(** * ParseAutoRia: the normalizer, the fetcher, the existence filter and
     the store sink

    A shallow embedding of [utils.py], of [AutoRiaScraper.fetch],
    [extract_car_links], [get_car_links], [parse_car_page] and
    [bulk_check_existence] from [scraper.py], and of [get_db], [save_cars]
    and [car_exists] from [database.py], with the properties of the
    specification stated over it, and further properties of the code after
    them.

    Conventions.
    - A Python [str] is a list of Unicode code points ([pystr]).
    - A call that may raise is a [result]: [Returns v] or [Raises e].
    - Python integers are [Z]; Python floats are IEEE 754 binary64 values,
      computed with the reference operations of [SpecFloat].
    - The interpreter's character tables ([\d], [\s], [str.lower]) are the
      ones of the Unicode Character Database 14.0.0.
    - [int()] is the language's conversion, with the interpreter's cap on
      the number of digits at its default of 4300
      ([sys.int_info.default_max_str_digits]), which the program never
      changes.
    - [BeautifulSoup] and its selectors are not modelled: a parsed page is
      what the selectors of the code find in it.
    - A coroutine is modelled as it runs by itself; the interleaving of the
      coroutines that [asyncio.gather] runs together ([process_page],
      [scrape_all_pages]) is outside the model. *)

From Stdlib Require Import ZArith NArith QArith List Bool Lia String Ascii.
From Stdlib Require Import Floats.SpecFloat.
From Stdlib Require Import DecimalString.
Import ListNotations.

Set Implicit Arguments.
Local Open Scope Z_scope.

(** ** Python values *)

Module Py.

(** A character is its code point. *)
Definition char := N.
Definition pystr := list char.

(** Exceptions the modelled code can raise. *)
Inductive exn : Type :=
| ValueError
| TypeError
| OverflowError
| SQLAlchemyError.

Inductive result (A : Type) : Type :=
| Returns (a : A)
| Raises (e : exn).
Arguments Returns {A} a.
Arguments Raises {A} e.

Definition bind {A B} (r : result A) (k : A -> result B) : result B :=
  match r with
  | Returns a => k a
  | Raises e => Raises e
  end.

(** [try: body  except (e1, ...): handler] *)
Definition try_except {A} (body : result A) (caught : exn -> bool)
           (handler : result A) : result A :=
  match body with
  | Returns a => Returns a
  | Raises e => if caught e then handler else Raises e
  end.

Declare Scope py_scope.
Delimit Scope py_scope with py.
Notation "x <- e ;; k" := (bind e (fun x => k))
  (at level 61, e at next level, right associativity) : py_scope.

(** *** Source literals

    String literals of this file are UTF-8; [u8] decodes them to code
    points, so that the constants below read as they do in the source. *)

Fixpoint utf8_decode (bs : list N) : pystr :=
  (match bs with
   | [] => []
   | b0 :: r0 =>
     if b0 <? 128 then b0 :: utf8_decode r0
     else if b0 <? 224 then
       match r0 with
       | b1 :: r1 => ((b0 mod 32) * 64 + b1 mod 64) :: utf8_decode r1
       | _ => []
       end
     else if b0 <? 240 then
       match r0 with
       | b1 :: b2 :: r2 =>
         ((b0 mod 16) * 4096 + (b1 mod 64) * 64 + b2 mod 64) :: utf8_decode r2
       | _ => []
       end
     else
       match r0 with
       | b1 :: b2 :: b3 :: r3 =>
         ((b0 mod 8) * 262144 + (b1 mod 64) * 4096 + (b2 mod 64) * 64
          + b3 mod 64) :: utf8_decode r3
       | _ => []
       end
   end)%N.

Definition u8 (s : string) : pystr :=
  utf8_decode (map N_of_ascii (list_ascii_of_string s)).

(** *** Unicode tables (UCD 14.0.0) *)

(** Code points of the digit zero of every decimal-digit block (general
    category Nd); the nine code points after each are its digits 1 to 9. *)
Definition decimal_zeros : list N :=
  [48; 1632; 1776; 1984; 2406; 2534; 2662; 2790; 2918; 3046; 3174; 3302;
   3430; 3558; 3664; 3792; 3872; 4160; 4240; 6112; 6160; 6470; 6608; 6784;
   6800; 6992; 7088; 7232; 7248; 42528; 43216; 43264; 43472; 43504; 43600;
   44016; 65296; 66720; 68912; 69734; 69872; 69942; 70096; 70384; 70736;
   70864; 71248; 71360; 71472; 71904; 72016; 72784; 73040; 73120; 92768;
   92864; 93008; 120782; 120792; 120802; 120812; 120822; 123200; 123632;
   125264; 130032]%N.

(** [Py_UNICODE_TODECIMAL]: the digit value of a decimal digit. *)
Definition decimal_value (c : char) : option Z :=
  match find (fun z => (z <=? c) && (c <? z + 10))%N decimal_zeros with
  | Some z => Some (Z.of_N (c - z))
  | None => None
  end.

(** [\d] of [re] on [str] patterns, [str.isdecimal]. *)
Definition is_decimal (c : char) : bool :=
  match decimal_value c with Some _ => true | None => false end.

(** [\s] of [re] on [str] patterns, [str.isspace], the characters removed by
    [str.strip()]. *)
Definition is_space (c : char) : bool :=
  existsb (N.eqb c)
    [9; 10; 11; 12; 13; 28; 29; 30; 31; 32; 133; 160; 5760; 8192; 8193;
     8194; 8195; 8196; 8197; 8198; 8199; 8200; 8201; 8202; 8232; 8233; 8239;
     8287; 12288]%N.

(** Simple lowercase mappings, run-length encoded: [(lo, n, step, lo')]
    maps [lo + i * step] to [lo' + i * step] for [i < n]. *)
Definition lower_runs : list (N * N * N * N) :=
  [
    (65, 26, 1, 97); (192, 23, 1, 224); (216, 7, 1, 248); (256, 24, 2, 257);
    (306, 3, 2, 307); (313, 8, 2, 314); (330, 23, 2, 331); (376, 1, 1, 255);
    (377, 3, 2, 378); (385, 1, 1, 595); (386, 2, 2, 387); (390, 1, 1, 596);
    (391, 1, 1, 392); (393, 2, 1, 598); (395, 1, 1, 396); (398, 1, 1, 477);
    (399, 1, 1, 601); (400, 1, 1, 603); (401, 1, 1, 402); (403, 1, 1, 608);
    (404, 1, 1, 611); (406, 1, 1, 617); (407, 1, 1, 616); (408, 1, 1, 409);
    (412, 1, 1, 623); (413, 1, 1, 626); (415, 1, 1, 629); (416, 3, 2, 417);
    (422, 1, 1, 640); (423, 1, 1, 424); (425, 1, 1, 643); (428, 1, 1, 429);
    (430, 1, 1, 648); (431, 1, 1, 432); (433, 2, 1, 650); (435, 2, 2, 436);
    (439, 1, 1, 658); (440, 1, 1, 441); (444, 1, 1, 445); (452, 1, 1, 454);
    (453, 1, 1, 454); (455, 1, 1, 457); (456, 1, 1, 457); (458, 1, 1, 460);
    (459, 9, 2, 460); (478, 9, 2, 479); (497, 1, 1, 499); (498, 2, 2, 499);
    (502, 1, 1, 405); (503, 1, 1, 447); (504, 20, 2, 505); (544, 1, 1, 414);
    (546, 9, 2, 547); (570, 1, 1, 11365); (571, 1, 1, 572); (573, 1, 1, 410);
    (574, 1, 1, 11366); (577, 1, 1, 578); (579, 1, 1, 384); (580, 1, 1, 649);
    (581, 1, 1, 652); (582, 5, 2, 583); (880, 2, 2, 881); (886, 1, 1, 887);
    (895, 1, 1, 1011); (902, 1, 1, 940); (904, 3, 1, 941); (908, 1, 1, 972);
    (910, 2, 1, 973); (913, 17, 1, 945); (931, 9, 1, 963); (975, 1, 1, 983);
    (984, 12, 2, 985); (1012, 1, 1, 952); (1015, 1, 1, 1016); (1017, 1, 1,
    1010); (1018, 1, 1, 1019); (1021, 3, 1, 891); (1024, 16, 1, 1104); (1040,
    32, 1, 1072); (1120, 17, 2, 1121); (1162, 27, 2, 1163); (1216, 1, 1, 1231);
    (1217, 7, 2, 1218); (1232, 48, 2, 1233); (1329, 38, 1, 1377); (4256, 38, 1,
    11520); (4295, 1, 1, 11559); (4301, 1, 1, 11565); (5024, 80, 1, 43888);
    (5104, 6, 1, 5112); (7312, 43, 1, 4304); (7357, 3, 1, 4349); (7680, 75, 2,
    7681); (7838, 1, 1, 223); (7840, 48, 2, 7841); (7944, 8, 1, 7936); (7960, 6,
    1, 7952); (7976, 8, 1, 7968); (7992, 8, 1, 7984); (8008, 6, 1, 8000); (8025,
    4, 2, 8017); (8040, 8, 1, 8032); (8072, 8, 1, 8064); (8088, 8, 1, 8080);
    (8104, 8, 1, 8096); (8120, 2, 1, 8112); (8122, 2, 1, 8048); (8124, 1, 1,
    8115); (8136, 4, 1, 8050); (8140, 1, 1, 8131); (8152, 2, 1, 8144); (8154, 2,
    1, 8054); (8168, 2, 1, 8160); (8170, 2, 1, 8058); (8172, 1, 1, 8165); (8184,
    2, 1, 8056); (8186, 2, 1, 8060); (8188, 1, 1, 8179); (8486, 1, 1, 969);
    (8490, 1, 1, 107); (8491, 1, 1, 229); (8498, 1, 1, 8526); (8544, 16, 1,
    8560); (8579, 1, 1, 8580); (9398, 26, 1, 9424); (11264, 48, 1, 11312);
    (11360, 1, 1, 11361); (11362, 1, 1, 619); (11363, 1, 1, 7549); (11364, 1, 1,
    637); (11367, 3, 2, 11368); (11373, 1, 1, 593); (11374, 1, 1, 625); (11375,
    1, 1, 592); (11376, 1, 1, 594); (11378, 1, 1, 11379); (11381, 1, 1, 11382);
    (11390, 2, 1, 575); (11392, 50, 2, 11393); (11499, 2, 2, 11500); (11506, 1,
    1, 11507); (42560, 23, 2, 42561); (42624, 14, 2, 42625); (42786, 7, 2,
    42787); (42802, 31, 2, 42803); (42873, 2, 2, 42874); (42877, 1, 1, 7545);
    (42878, 5, 2, 42879); (42891, 1, 1, 42892); (42893, 1, 1, 613); (42896, 2,
    2, 42897); (42902, 10, 2, 42903); (42922, 1, 1, 614); (42923, 1, 1, 604);
    (42924, 1, 1, 609); (42925, 1, 1, 620); (42926, 1, 1, 618); (42928, 1, 1,
    670); (42929, 1, 1, 647); (42930, 1, 1, 669); (42931, 1, 1, 43859); (42932,
    8, 2, 42933); (42948, 1, 1, 42900); (42949, 1, 1, 642); (42950, 1, 1, 7566);
    (42951, 2, 2, 42952); (42960, 1, 1, 42961); (42966, 2, 2, 42967); (42997, 1,
    1, 42998); (65313, 26, 1, 65345); (66560, 40, 1, 66600); (66736, 36, 1,
    66776); (66928, 11, 1, 66967); (66940, 15, 1, 66979); (66956, 7, 1, 66995);
    (66964, 2, 1, 67003); (68736, 51, 1, 68800); (71840, 32, 1, 71872); (93760,
    32, 1, 93792); (125184, 34, 1, 125218)
  ]%N.

Definition lower_char (c : char) : char :=
  match find (fun '(lo, n, step, _) =>
                (lo <=? c) && (c <? lo + n * step)
                && ((c - lo) mod step =? 0))%N lower_runs with
  | Some (lo, _, _, lo') => (lo' + (c - lo))%N
  | None => c
  end.

(** [str.lower()].  The two special casings of the database: U+0130 lowers
    to two code points, and U+03A3 lowers to U+03C3, or to U+03C2 at the end
    of a word.  The model always takes U+03C3: both are letters that are
    neither digits, nor white space, nor part of any token looked for in
    this program. *)
Definition lower (s : pystr) : pystr :=
  flat_map (fun c => if (c =? 304)%N then [105; 775]%N else [lower_char c]) s.

(** *** [str] methods *)

Definition str_eqb (a b : pystr) : bool :=
  if list_eq_dec N.eq_dec a b then true else false.

(** [not s] *)
Definition is_empty (s : pystr) : bool :=
  match s with [] => true | _ => false end.

(** [s.startswith(p)] *)
Fixpoint startswith (s p : pystr) : bool :=
  match p, s with
  | [], _ => true
  | _ :: _, [] => false
  | a :: p', b :: s' => (a =? b)%N && startswith s' p'
  end.

(** [p in s] *)
Fixpoint contains (s p : pystr) : bool :=
  startswith s p ||
  match s with
  | [] => false
  | _ :: s' => contains s' p
  end.

Fixpoint lstrip_with (sp : char -> bool) (s : pystr) : pystr :=
  match s with
  | c :: s' => if sp c then lstrip_with sp s' else s
  | [] => []
  end.

Definition rstrip_with (sp : char -> bool) (s : pystr) : pystr :=
  rev (lstrip_with sp (rev s)).

Definition strip_with (sp : char -> bool) (s : pystr) : pystr :=
  rstrip_with sp (lstrip_with sp s).

(** [s.strip()] *)
Definition strip : pystr -> pystr := strip_with is_space.

(** [s.replace(' ', '')]: every U+0020 is removed. *)
Definition remove_spaces (s : pystr) : pystr :=
  filter (fun c => negb (c =? 32)%N) s.

(** [s[-n:]] for [n > 0] *)
Definition last_n (n : nat) (s : pystr) : pystr :=
  skipn (List.length s - n) s.

(** *** [int(str)] *)

(** White space that [int()] skips at both ends of its argument: the
    conversion keeps code points below 127 as they are and then skips ASCII
    white space only, so the four separators U+001C..U+001F are not
    skipped. *)
Definition int_space (c : char) : bool :=
  is_space c && negb ((28 <=? c) && (c <=? 31))%N.

(** Digits after a first digit; a single underscore may separate two
    digits. *)
Fixpoint int_digits_from (acc : Z) (s : pystr) : option Z :=
  match s with
  | [] => Some acc
  | c :: r =>
    match decimal_value c with
    | Some d => int_digits_from (10 * acc + d) r
    | None =>
      if (c =? 95)%N then
        match r with
        | c' :: r' =>
          match decimal_value c' with
          | Some d => int_digits_from (10 * acc + d) r'
          | None => None
          end
        | [] => None
        end
      else None
    end
  end.

Definition int_digits (s : pystr) : option Z :=
  match s with
  | c :: r =>
    match decimal_value c with
    | Some d => int_digits_from d r
    | None => None
    end
  | [] => None
  end.

(** An optional sign in front of the digits. *)
Definition split_sign (t : pystr) : bool * pystr :=
  match t with
  | c :: r =>
    if (c =? 43)%N then (false, r)        (* + *)
    else if (c =? 45)%N then (true, r)    (* - *)
    else (false, t)
  | [] => (false, t)
  end.

(** [sys.int_info.default_max_str_digits]: the conversion refuses a text
    with more digits than this (underscores, the sign and the white space
    around do not count). *)
Definition max_str_digits : nat := 4300.

Definition count_digits (s : pystr) : nat :=
  List.length (filter is_decimal s).

(** [int(s)] in base 10: optional white space, an optional sign, digits,
    no more of them than [max_str_digits]. *)
Definition py_int (s : pystr) : result Z :=
  let '(neg, body) := split_sign (strip_with int_space s) in
  match int_digits body with
  | Some n =>
    if (max_str_digits <? count_digits body)%nat then Raises ValueError
    else Returns (if neg then - n else n)
  | None => Raises ValueError
  end.

(** *** [float] *)

Definition float := spec_float.
Definition prec : Z := 53.
Definition emax : Z := 1024.

(** [float(n)] as the arithmetic operators apply it to an [int] operand:
    the nearest binary64 value, ties to even; an [int] that rounds beyond
    the largest finite value raises [OverflowError]. *)
Definition float_of_int (n : Z) : result float :=
  match binary_normalize prec emax n 0 false with
  | S754_infinity _ => Raises OverflowError
  | f => Returns f
  end.

(** [int(x)] for a [float]: truncation toward zero. *)
Definition int_of_float (x : float) : result Z :=
  match x with
  | S754_zero _ => Returns 0
  | S754_infinity _ => Raises OverflowError
  | S754_nan => Raises ValueError
  | S754_finite s m e => Returns (cond_Zopp s (Z.shiftl (Z.pos m) e))
  end.

(** [n * x] and [n / x] for an [int] [n] and a non-zero [float] [x]. *)
Definition int_mul_float (n : Z) (x : float) : result float :=
  (f <- float_of_int n ;; Returns (SFmul prec emax f x))%py.

Definition int_div_float (n : Z) (x : float) : result float :=
  (f <- float_of_int n ;; Returns (SFdiv prec emax f x))%py.

(** The literals [1.1] and [41.22]: the binary64 values nearest to 11/10
    and to 4122/100. *)
Definition float_1_1 : float := S754_finite false 4953959590107546 (-52).
Definition float_41_22 : float := S754_finite false 5801199270006620 (-47).

End Py.

(** ** The fragment of [re] the program uses *)

Module Re.
Import Py.

Inductive cclass : Type :=
| Digit      (* \d *)
| Space      (* \s *)
| NonDigit.  (* \D *)

Definition in_class (k : cclass) (c : char) : bool :=
  match k with
  | Digit => is_decimal c
  | Space => is_space c
  | NonDigit => negb (is_decimal c)
  end.

Inductive regex : Type :=
| Lit (w : pystr)           (* a run of literal characters *)
| Cat (r1 r2 : regex)       (* r1 r2 *)
| Alt (r1 r2 : regex)       (* r1|r2 *)
| Opt (r : regex)           (* r? *)
| StarC (k : cclass)        (* k* *)
| PlusC (k : cclass)        (* k+ *)
| Grp (n : nat) (r : regex) (* a capturing group; [(?:r)] is [r] itself *).

(** Captured groups, most recent first. *)
Definition groups := list (nat * pystr).

(** [m.group(n)]; [None] when the group took no part in the match. *)
Fixpoint group (m : groups) (n : nat) : option pystr :=
  match m with
  | [] => None
  | (i, w) :: m' => if Nat.eqb i n then Some w else group m' n
  end.

(** What was read between the input [s] and its suffix [s']. *)
Definition consumed (s s' : pystr) : pystr :=
  firstn (List.length s - List.length s') s.

(** Greedy repetition of a one-character test: the longest run first, then
    shorter ones when the rest of the pattern fails. *)
Fixpoint greedy {A} (p : char -> bool) (s : pystr)
         (k : pystr -> option A) : option A :=
  match s with
  | c :: s' =>
    if p c then
      match greedy p s' k with
      | Some m => Some m
      | None => k s
      end
    else k s
  | [] => k s
  end.

(** The backtracking matcher: [run r s g k] matches [r] at the head of [s]
    and hands the rest of the input and the groups to [k]; alternatives are
    tried in the order of the pattern. *)
Fixpoint run {A} (r : regex) (s : pystr) (g : groups)
         (k : pystr -> groups -> option A) : option A :=
  match r with
  | Lit w => if startswith s w then k (skipn (List.length w) s) g else None
  | Cat r1 r2 => run r1 s g (fun s' g' => run r2 s' g' k)
  | Alt r1 r2 =>
    match run r1 s g k with
    | Some m => Some m
    | None => run r2 s g k
    end
  | Opt r1 =>
    match run r1 s g k with
    | Some m => Some m
    | None => k s g
    end
  | StarC c => greedy (in_class c) s (fun s' => k s' g)
  | PlusC c =>
    match s with
    | x :: s' =>
      if in_class c x then greedy (in_class c) s' (fun s' => k s' g)
      else None
    | [] => None
    end
  | Grp n r1 => run r1 s g (fun s' g' => k s' ((n, consumed s s') :: g'))
  end.

Definition match_at (r : regex) (s : pystr) : option groups :=
  run r s [] (fun _ g => Some g).

(** [re.search(r, s)]: the match at the leftmost position that has one. *)
Fixpoint search (r : regex) (s : pystr) : option groups :=
  match match_at r s with
  | Some m => Some m
  | None =>
    match s with
    | [] => None
    | _ :: s' => search r s'
    end
  end.

(** What the pattern language means, without the search order:
    [matches r s g s' g'] when [r] can read a prefix of [s], leaving [s'],
    and turn the groups [g] into [g']. *)
Inductive matches : regex -> pystr -> groups -> pystr -> groups -> Prop :=
| m_lit : forall w s g,
    startswith s w = true ->
    matches (Lit w) s g (skipn (List.length w) s) g
| m_cat : forall r1 r2 s g s1 g1 s2 g2,
    matches r1 s g s1 g1 -> matches r2 s1 g1 s2 g2 ->
    matches (Cat r1 r2) s g s2 g2
| m_alt_l : forall r1 r2 s g s' g',
    matches r1 s g s' g' -> matches (Alt r1 r2) s g s' g'
| m_alt_r : forall r1 r2 s g s' g',
    matches r2 s g s' g' -> matches (Alt r1 r2) s g s' g'
| m_opt_some : forall r s g s' g',
    matches r s g s' g' -> matches (Opt r) s g s' g'
| m_opt_none : forall r s g,
    matches (Opt r) s g s g
| m_star : forall c w s' g,
    forallb (in_class c) w = true ->
    matches (StarC c) (w ++ s') g s' g
| m_plus : forall c x w s' g,
    in_class c x = true -> forallb (in_class c) w = true ->
    matches (PlusC c) (x :: w ++ s') g s' g
| m_grp : forall n r s g s' g',
    matches r s g s' g' ->
    matches (Grp n r) s g s' ((n, consumed s s') :: g').

(** [re.sub(k, '', s)] for a one-character class [k]. *)
Definition sub_empty (k : cclass) (s : pystr) : pystr :=
  filter (fun c => negb (in_class k c)) s.

End Re.

(** ** utils.py *)

Module Utils.
Import Py Re.

(** [r"(\d+(?:\s*\d+)?)\s*(тис\.?|тыс\.?|км)?"], in its three parts. *)

(** [\d+(?:\s*\d+)?] *)
Definition number_re : regex :=
  Cat (PlusC Digit) (Opt (Cat (StarC Space) (PlusC Digit))).

(** [тис\.?|тыс\.?|км] *)
Definition marker_re : regex :=
  Alt (Cat (Lit (u8 "тис")) (Opt (Lit (u8 "."))))
      (Alt (Cat (Lit (u8 "тыс")) (Opt (Lit (u8 ".")))) (Lit (u8 "км"))).

Definition odometer_re : regex :=
  Cat (Grp 1 number_re) (Cat (StarC Space) (Opt (Grp 2 marker_re))).

(** [r"(\d+)"] *)
Definition price_re : regex := Grp 1 (PlusC Digit).

(** [int(m.group(n))]; [int(None)] is a [TypeError]. *)
Definition int_group (m : groups) (n : nat) : result Z :=
  match group m n with
  | Some w => py_int w
  | None => Raises TypeError
  end.

Definition parse_odometer (odometer_str : pystr) : result Z :=
  if is_empty odometer_str then Returns 0
  else
    match search odometer_re (lower odometer_str) with
    | None => Returns 0
    | Some m =>
      (value <- int_group m 1 ;;
       let multiplier := group m 2 in
       match multiplier with
       | Some w =>
         if negb (is_empty w) && contains w (u8 "тис")
         then Returns (value * 1000)
         else Returns value
       | None => Returns value
       end)%py
    end.

(** [except (ValueError, TypeError)] *)
Definition caught (e : exn) : bool :=
  match e with
  | ValueError | TypeError => true
  | _ => false
  end.

Definition parse_price (price_text : pystr) : result Z :=
  if is_empty price_text || str_eqb price_text (u8 "0") then Returns 0
  else
    let clean_price := remove_spaces (strip price_text) in
    match search price_re clean_price with
    | None => Returns 0
    | Some number_match =>
      try_except
        (amount <- int_group number_match 1 ;;
         if contains clean_price (u8 "€") then
           (x <- int_mul_float amount float_1_1 ;; int_of_float x)
         else if contains clean_price (u8 "грн") then
           (x <- int_div_float amount float_41_22 ;; int_of_float x)
         else Returns amount)%py
        caught (Returns 0)
    end.

Definition parse_phone (phone_str : pystr) : pystr :=
  if is_empty phone_str then []
  else
    let digits := sub_empty NonDigit phone_str in
    if startswith digits (u8 "380") && Nat.eqb (List.length digits) 11
    then u8 "+" ++ digits
    else if startswith digits (u8 "80") && Nat.eqb (List.length digits) 10
    then u8 "+3" ++ digits
    else if startswith digits (u8 "0") && Nat.eqb (List.length digits) 9
    then u8 "+38" ++ digits
    else if is_empty digits then [] else u8 "+380" ++ last_n 9 digits.

End Utils.

(** ** models.py, database.py *)

Module Database.
Import Py.

(** A row of the table [cars]. *)
Record car : Type := {
  url : pystr;
  title : pystr;
  price_usd : Z;
  odometer : Z;
  username : pystr;
  phone_number : option pystr;
  image_url : option pystr;
  images_count : Z;
  car_vin : pystr;
  car_number : pystr;
  datetime_found : Z
}.

(** Round trips to the database server. *)
Inductive db_op : Type :=
| Execute
| Commit
| Rollback
| Close.

Inductive log_entry : Type :=
| LogDatabaseError          (* get_db: "Database error: ..." *)
| LogErrorSavingCars        (* save_cars: "Error saving cars: ..." *)
| LogErrorBulkCheck.        (* bulk_check_existence: "Error in ..." *)

(** The store and its surroundings: the committed rows, the rows added to
    the open session and not yet committed, the log, the round trips made so
    far, and the round trips that are going to fail (by their position in
    the run). *)
Record world : Type := {
  rows : list car;
  pending : list car;
  log : list log_entry;
  ops : list db_op;
  fails : nat -> bool
}.

(** Stateful code that may raise. *)
Definition M (A : Type) : Type := world -> result A * world.

Definition ret {A} (a : A) : M A := fun w => (Returns a, w).

Definition raise {A} (e : exn) : M A := fun w => (Raises e, w).

Definition mbind {A B} (m : M A) (k : A -> M B) : M B :=
  fun w =>
    match m w with
    | (Returns a, w') => k a w'
    | (Raises e, w') => (Raises e, w')
    end.

Declare Scope db_scope.
Delimit Scope db_scope with db.
Notation "x <- e ;; k" := (mbind e (fun x => k))
  (at level 61, e at next level, right associativity) : db_scope.
Notation "e ;; k" := (mbind e (fun _ => k))
  (at level 61, right associativity) : db_scope.

(** [try: body  except Exception as e: handler] *)
Definition try_catch {A} (body : M A) (handler : exn -> M A) : M A :=
  fun w =>
    match body w with
    | (Returns a, w') => (Returns a, w')
    | (Raises e, w') => handler e w'
    end.

(** [try: body  finally: cleanup]; an exception of [cleanup] replaces the
    outcome of [body]. *)
Definition try_finally {A} (body : M A) (cleanup : M unit) : M A :=
  fun w =>
    match body w with
    | (r, w') =>
      match cleanup w' with
      | (Returns _, w'') => (r, w'')
      | (Raises e, w'') => (Raises e, w'')
      end
    end.

Definition logger_error (entry : log_entry) : M unit :=
  fun w => (Returns tt,
            {| rows := rows w; pending := pending w; log := log w ++ [entry];
               ops := ops w; fails := fails w |}).

(** A round trip: recorded, and failed when the run says so. *)
Definition round_trip (op : db_op) : M unit :=
  fun w =>
    let w' := {| rows := rows w; pending := pending w; log := log w;
                 ops := ops w ++ [op]; fails := fails w |} in
    if fails w (List.length (ops w)) then (Raises SQLAlchemyError, w')
    else (Returns tt, w').

Definition set_rows (committed added : list car) : M unit :=
  fun w => (Returns tt,
            {| rows := committed; pending := added; log := log w;
               ops := ops w; fails := fails w |}).

Definition get_rows : M (list car) := fun w => (Returns (rows w), w).
Definition get_pending : M (list car) := fun w => (Returns (pending w), w).

(** The constraint [unique=True] on [Car.url]. *)
Fixpoint unique_urls (l : list pystr) : bool :=
  match l with
  | [] => true
  | u :: l' => negb (existsb (str_eqb u) l') && unique_urls l'
  end.

(** [async_session()]: a new session, nothing added yet. *)
Definition async_session : M unit :=
  (committed <- get_rows ;; set_rows committed [])%db.

(** [session.add_all(cars)]: no round trip. *)
Definition add_all (cars : list car) : M unit :=
  (committed <- get_rows ;;
   added <- get_pending ;;
   set_rows committed (added ++ cars))%db.

(** [await session.commit()]: the added rows are inserted in one
    transaction; a violated constraint fails it as a whole. *)
Definition commit : M unit :=
  (round_trip Commit ;;
   committed <- get_rows ;;
   added <- get_pending ;;
   if unique_urls (map url (committed ++ added))
   then set_rows (committed ++ added) []
   else raise SQLAlchemyError)%db.

(** [await session.rollback()] *)
Definition rollback : M unit :=
  (round_trip Rollback ;;
   committed <- get_rows ;;
   set_rows committed [])%db.

(** [await session.close()] *)
Definition close : M unit :=
  (round_trip Close ;;
   committed <- get_rows ;;
   set_rows committed [])%db.

(** [select(Car.url).where(Car.url.in_(urls))], executed and fetched. *)
Definition execute_select_url_in (urls : list pystr) : M (list pystr) :=
  (round_trip Execute ;;
   committed <- get_rows ;;
   ret (filter (fun u => existsb (str_eqb u) urls) (map url committed)))%db.

(** [async with get_db() as session: body] *)
Definition get_db {A} (body : M A) : M A :=
  (async_session ;;
   try_finally
     (try_catch
        (x <- body ;; commit ;; ret x)
        (fun e => rollback ;; logger_error LogDatabaseError ;; raise e))
     close)%db.

Definition save_cars (cars : list car) : M unit :=
  try_catch
    (get_db (add_all cars ;; commit))%db
    (fun _ => logger_error LogErrorSavingCars).

End Database.

(** ** scraper.py *)

Module Scraper.
Import Py Database.

(** *** [AutoRiaScraper.fetch] *)

(** What the network answers to one request: a response with its status
    and its body ([None] when reading the body fails), or a fault of the
    transport (connection error, timeout). *)
Inductive reply : Type :=
| Response (status : Z) (text : option pystr)
| Fault.

(** What one attempt draws from its surroundings: the index picked by
    [random.choice], the sample of [random.random()] behind
    [random.uniform], and the answer of the network. *)
Record attempt_env : Type := {
  choice : nat;
  sample : float;
  answer : reply
}.

(** A Python number: an [int] or a [float]. *)
Inductive number : Type :=
| Int (n : Z)
| Float (x : float).

Inductive event : Type :=
| Sleep (seconds : number)                  (* asyncio.sleep *)
| Get (target : pystr) (user_agent : pystr) (* session.get *)
| LogAttemptFailed (attempt_number : Z).    (* logger.error *)

Definition user_agents : list pystr :=
  [u8 "Mozilla/5.0 (Windows NT 10.0; Win64; x64) Chrome/91.0.4472.124";
   u8 "Mozilla/5.0 (Windows NT 10.0; Win64; x64) Firefox/89.0"].

(** [random.choice(seq)] *)
Definition random_choice (seq : list pystr) (i : nat) : pystr :=
  nth (i mod List.length seq) seq [].

(** [random.uniform(a, b)] is [a + (b - a) * random()]. *)
Definition random_uniform (a b u : float) : float :=
  SFadd prec emax a (SFmul prec emax (SFsub prec emax b a) u).

Definition float_0_5 : float := S754_finite false 4503599627370496 (-53).
Definition float_1_5 : float := S754_finite false 6755399441055744 (-52).

(** The body of the loop for one value of [attempt]: the events it causes
    and [Some body] when it returns from [fetch]. *)
Definition fetch_attempt (env : nat -> attempt_env) (target : pystr)
           (attempt : nat) : list event * option pystr :=
  let e := env attempt in
  let headers := random_choice user_agents (choice e) in
  let before :=
    [Sleep (Float (random_uniform float_0_5 float_1_5 (sample e)));
     Get target headers] in
  match answer e with
  | Response status text =>
    if status =? 200 then
      match text with
      | Some body => (before, Some body)
      | None => (before ++ [LogAttemptFailed (Z.of_nat attempt + 1)], None)
      end
    else if status =? 429 then
      (before ++ [Sleep (Int (5 * (Z.of_nat attempt + 1)))], None)
    else (before, None)
  | Fault => (before ++ [LogAttemptFailed (Z.of_nat attempt + 1)], None)
  end.

(** [for attempt in attempts: ...; return None] *)
Fixpoint fetch_loop (env : nat -> attempt_env) (target : pystr)
         (attempts : list nat) : list event * option pystr :=
  match attempts with
  | [] => ([], None)
  | attempt :: rest =>
    match fetch_attempt env target attempt with
    | (evs, Some body) => (evs, Some body)
    | (evs, None) =>
      let '(evs', r) := fetch_loop env target rest in (evs ++ evs', r)
    end
  end.

(** [fetch(url)] with [settings.RETRY_ATTEMPTS = retry_attempts]. *)
Definition fetch (retry_attempts : Z) (env : nat -> attempt_env)
           (target : pystr) : list event * option pystr :=
  fetch_loop env target (seq 0 (Z.to_nat retry_attempts)).

(** *** [bulk_check_existence] and the filter of [process_page] *)

(** A [dict]: keys in insertion order, each once. *)
Definition dict (V : Type) : Type := list (pystr * V).

(** [d[k] = v] *)
Fixpoint dict_set {V} (d : dict V) (k : pystr) (v : V) : dict V :=
  match d with
  | [] => [(k, v)]
  | (k', v') :: d' =>
    if str_eqb k' k then (k', v) :: d' else (k', v') :: dict_set d' k v
  end.

(** [{k: f(k) for k in keys}] *)
Definition dict_comprehension {V} (f : pystr -> V) (keys : list pystr)
  : dict V :=
  fold_left (fun d k => dict_set d k (f k)) keys [].

(** [k in s] for a set [s] of strings. *)
Definition set_mem (k : pystr) (s : list pystr) : bool :=
  existsb (str_eqb k) s.

Definition bulk_check_existence (urls : list pystr) : M (dict bool) :=
  try_catch
    (existing_urls <- get_db (execute_select_url_in urls) ;;
     ret (dict_comprehension (fun u => set_mem u existing_urls) urls))%db
    (fun _ =>
       (logger_error LogErrorBulkCheck ;;
        ret (dict_comprehension (fun _ => false) urls))%db).

(** [[url for url, exists in existence_results.items() if not exists]] *)
Definition new_car_links (existence_results : dict bool) : list pystr :=
  map fst (filter (fun '(_, exists_) => negb exists_) existence_results).

(** The filter of [process_page]. *)
Definition filter_new (car_links : list pystr) : M (list pystr) :=
  (existence_results <- bulk_check_existence car_links ;;
   ret (new_car_links existence_results))%db.

End Scraper.

(** ** Vocabulary of the statements *)

Module Spec.
Import Py Re Database Scraper.

(** The number written by a run of decimal digits. *)
Definition digit (c : char) : Z :=
  match decimal_value c with Some d => d | None => 0 end.

Definition decimal_number (ds : pystr) : Z :=
  fold_left (fun acc c => 10 * acc + digit c) ds 0.

Definition all_decimal (s : pystr) : bool := forallb is_decimal s.

Definition no_decimal (s : pystr) : bool :=
  forallb (fun c => negb (is_decimal c)) s.

Definition all_space (s : pystr) : bool := forallb is_space s.

(** The text does not go on with a decimal digit. *)
Definition not_decimal_next (s : pystr) : bool :=
  match s with
  | [] => true
  | c :: _ => negb (is_decimal c)
  end.

(** [ds] is the first numeric run of [s]: the longest run of decimal
    digits that starts at the first decimal digit of [s]. *)
Definition first_run (s pre ds post : pystr) : Prop :=
  s = pre ++ ds ++ post /\ no_decimal pre = true /\ ds <> [] /\
  all_decimal ds = true /\ not_decimal_next post = true.

(** The unit marker that the odometer pattern reads at the head of a
    text: the first of [тис], [тыс] (each with an optional full stop) and
    [км] that the text starts with. *)
Definition with_dot (w r : pystr) : pystr :=
  if startswith (skipn (List.length w) r) (u8 ".") then w ++ u8 "." else w.

Definition marker_at (r : pystr) : option pystr :=
  if startswith r (u8 "тис") then Some (with_dot (u8 "тис") r)
  else if startswith r (u8 "тыс") then Some (with_dot (u8 "тыс") r)
  else if startswith r (u8 "км") then Some (u8 "км")
  else None.

(** The groups of a match, once the marker at [r] is read. *)
Definition add_marker (r : pystr) (g : groups) : groups :=
  match marker_at r with
  | Some w => (2%nat, w) :: g
  | None => g
  end.

(** The text does not go on with white space. *)
Definition not_space_next (s : pystr) : bool :=
  match s with
  | [] => true
  | c :: _ => negb (is_space c)
  end.

(** The canonical phone format: [+380] and exactly nine digits. *)
Definition canonical_phone (s : pystr) : bool :=
  match s with
  | 43%N :: 51%N :: 56%N :: 48%N :: rest =>
    Nat.eqb (List.length rest) 9 && all_decimal rest
  | _ => false
  end.

(** The digit characters of a text, in order. *)
Definition digits_of (s : pystr) : pystr := filter is_decimal s.

(** The three prefix rules of [parse_phone], on the digits of the input. *)
Definition rule_380 (d : pystr) : bool :=
  startswith d (u8 "380") && Nat.eqb (List.length d) 11.
Definition rule_80 (d : pystr) : bool :=
  startswith d (u8 "80") && Nat.eqb (List.length d) 10.
Definition rule_0 (d : pystr) : bool :=
  startswith d (u8 "0") && Nat.eqb (List.length d) 9.

(** The exact value of a finite [float]. *)
Definition float_to_Q (x : float) : option Q :=
  match x with
  | S754_zero _ => Some 0%Q
  | S754_finite s m e =>
    Some (match e with
          | Z0 => inject_Z (cond_Zopp s (Z.pos m))
          | Z.pos p => inject_Z (cond_Zopp s (Z.pos m) * 2 ^ Z.pos p)
          | Z.neg p => Qmake (cond_Zopp s (Z.pos m)) (2 ^ p)
          end)
  | _ => None
  end.

(** Zero, or a value with the sign bit clear. *)
Definition not_negative (x : float) : bool :=
  match x with
  | S754_zero _ => true
  | S754_finite s _ _ => negb s
  | S754_infinity s => negb s
  | S754_nan => false
  end.

(** [d[k]] *)
Fixpoint dict_get {V} (d : dict V) (k : pystr) : option V :=
  match d with
  | [] => None
  | (k', v) :: d' => if str_eqb k' k then Some v else dict_get d' k
  end.

(** The attempt came back with status 200 and a readable body. *)
Definition succeeded (a : reply) : bool :=
  match a with
  | Response status (Some _) => status =? 200
  | _ => false
  end.

(** What an attempt that does not succeed leaves in the trace: the pacing
    sleep and the request, then the backoff sleep after a status 429, or
    the log entry after a fault (of the transport, or of reading the body
    of a status 200), or nothing after any other status. *)
Definition failed_attempt_events (env : nat -> attempt_env) (target : pystr)
           (attempt : nat) : list event :=
  [Sleep (Float (random_uniform float_0_5 float_1_5 (sample (env attempt))));
   Get target (random_choice user_agents (choice (env attempt)))] ++
  match answer (env attempt) with
  | Response status _ =>
    if status =? 429 then [Sleep (Int (5 * (Z.of_nat attempt + 1)))]
    else if status =? 200 then [LogAttemptFailed (Z.of_nat attempt + 1)]
    else []
  | Fault => [LogAttemptFailed (Z.of_nat attempt + 1)]
  end.

Definition is_get (e : event) : bool :=
  match e with Get _ _ => true | _ => false end.

Definition requests (evs : list event) : nat :=
  List.length (filter is_get evs).

Definition is_commit (op : db_op) : bool :=
  match op with Commit => true | _ => false end.

End Spec.

(** ** scraper.py and database.py: the rest of the pipeline *)

Module Extractor.
Import Py Utils Database Scraper.

(** *** [init_db] *)

(** [async with engine.begin() as conn]: a connection and a transaction,
    committed when the block ends, rolled back when the block or the commit
    raises, and the connection closed in either case.  [drop_all] and
    [create_all] are statements of that transaction (the data definition
    statements of PostgreSQL are transactional): once it is committed
    the table [cars] is there and empty. *)
Definition init_db : M unit :=
  try_finally
    (try_catch
       (round_trip Execute ;;    (* Base.metadata.drop_all *)
        round_trip Execute ;;    (* Base.metadata.create_all *)
        round_trip Commit ;;
        set_rows [] [])%db
       (fun e => round_trip Rollback ;; raise e)%db)
    (round_trip Close).

(** *** [car_exists] *)

(** [select(Car).where(Car.url == u)], executed. *)
Definition execute_select_car_by_url (u : pystr) : M (list car) :=
  (round_trip Execute ;;
   committed <- get_rows ;;
   ret (filter (fun c => str_eqb (url c) u) committed))%db.

(** [result.scalar_one_or_none()]: the row, [None] without one, and
    [MultipleResultsFound] (an [SQLAlchemyError]) with several. *)
Definition scalar_one_or_none (found : list car) : M (option car) :=
  match found with
  | [] => ret None
  | [c] => ret (Some c)
  | _ => raise SQLAlchemyError
  end.

(** Lines that the rest of the pipeline logs. *)
Inductive note : Type :=
| ErrorCheckingCarExistence   (* car_exists: logger.error *)
| DebugSkippingNewCar         (* parse_car_page: logger.debug *)
| DebugSkippingProcessedCar   (* parse_car_page: logger.debug *)
| ErrorParsingCarPage.        (* parse_car_page: logger.error *)

(** What the pipeline works on: the store, its own log lines, the trace of
    the network, the number of calls of [fetch] made so far and what the
    network is going to answer to each attempt of each call. *)
Record state : Type := {
  store : world;
  journal : list note;
  trace : list event;
  fetches : nat;
  net : nat -> nat -> attempt_env
}.

Definition P (A : Type) : Type := state -> A * state.

Definition pure {A} (a : A) : P A := fun st => (a, st).

Definition pbind {A B} (m : P A) (k : A -> P B) : P B :=
  fun st => let '(a, st') := m st in k a st'.

Declare Scope page_scope.
Delimit Scope page_scope with page.
Notation "x <- e ;; k" := (pbind e (fun x => k))
  (at level 61, e at next level, right associativity) : page_scope.
Notation "e ;; k" := (pbind e (fun _ => k))
  (at level 61, right associativity) : page_scope.

Definition put_store (w : world) (st : state) : state :=
  {| store := w; journal := journal st; trace := trace st;
     fetches := fetches st; net := net st |}.

Definition logger_note (n : note) : P unit :=
  fun st => (tt, {| store := store st; journal := journal st ++ [n];
                    trace := trace st; fetches := fetches st;
                    net := net st |}).

Definition car_exists (u : pystr) : P bool :=
  fun st =>
    match get_db (found <- execute_select_car_by_url u ;;
                  row <- scalar_one_or_none found ;;
                  ret (match row with Some _ => true | None => false end))%db
                 (store st) with
    | (Returns b, w) => (b, put_store w st)
    | (Raises _, w) =>
      (false, snd (logger_note ErrorCheckingCarExistence (put_store w st)))
    end.

(** *** The settings and the parsed documents *)

(** An [<source>] element of the gallery, by its three attributes. *)
Record image : Type := {
  srcset : option pystr;
  src : option pystr;
  data_src : option pystr
}.

(** What the selectors of [parse_car_page] find in a parsed detail page:
    for an element looked for with [select_one], its stripped text
    ([get_text(strip=True)]), or [None] without the element; for the plate
    number, the children of the element, which are texts on the pages of
    the site; for [select], the elements found (their stripped texts for
    the phones).  An element is true in a condition whatever it holds. *)
Record page_elements : Type := {
  el_title : option pystr;
  el_price : option pystr;
  el_odometer : option pystr;
  el_username : option pystr;
  el_vin : option pystr;
  el_car_number : option (list pystr);
  el_phones : list pystr;
  el_images : list image
}.

(** [settings], and [BeautifulSoup] with the selectors applied: the
    [href] of every card of a listing page ([None] without the attribute),
    and the elements of a detail page. *)
Record context : Type := {
  RETRY_ATTEMPTS : Z;
  START_URL : pystr;
  listing_cards : pystr -> list (option pystr);
  detail_elements : pystr -> page_elements
}.

(** [await self.fetch(url)]: the next call of [fetch]. *)
Definition fetch_page (ctx : context) (target : pystr) : P (option pystr) :=
  fun st =>
    let '(evs, r) := fetch (RETRY_ATTEMPTS ctx) (net st (fetches st)) target in
    (r, {| store := store st; journal := journal st;
           trace := trace st ++ evs; fetches := S (fetches st);
           net := net st |}).

(** *** [extract_car_links], [get_car_links] *)

(** [x] in a condition, for an optional string. *)
Definition truthy (x : option pystr) : bool :=
  match x with
  | Some (_ :: _) => true
  | _ => false
  end.

(** [[card.get("href") for card in cards if card.get("href")]] *)
Definition extract_car_links (ctx : context) (html : pystr) : list pystr :=
  flat_map (fun href => match href with
                        | Some (c :: h) => [c :: h]
                        | _ => []
                        end) (listing_cards ctx html).

(** [str(n)] for an [int]. *)
Definition str_of_int (n : Z) : pystr :=
  u8 (NilZero.string_of_int (Z.to_int n)).

Definition get_car_links (ctx : context) (page : Z) : P (list pystr) :=
  (html <- fetch_page ctx (START_URL ctx ++ u8 "?page=" ++ str_of_int page) ;;
   pure (if truthy html
         then match html with
              | Some h => extract_car_links ctx h
              | None => []
              end
         else []))%page.

(** *** [parse_car_page] *)

(** The exceptions of the [try] block of [parse_car_page]. *)
Inductive exc : Type :=
| Builtin (e : exn)
| AttributeError.

Inductive built (A : Type) : Type :=
| Built (a : A)
| Failed (e : exc).
Arguments Built {A} a.
Arguments Failed {A} e.

Definition of_result {A} (r : result A) : built A :=
  match r with
  | Returns a => Built a
  | Raises e => Failed (Builtin e)
  end.

Definition bbind {A B} (r : built A) (k : A -> built B) : built B :=
  match r with
  | Built a => k a
  | Failed e => Failed e
  end.

(** [e.get_text(strip=True)] for what [select_one] returned. *)
Definition get_text (e : option pystr) : built pystr :=
  match e with
  | Some t => Built t
  | None => Failed AttributeError
  end.

(** [e.get_text(strip=True) if e else default] *)
Definition text_or (e : option pystr) (default : pystr) : pystr :=
  match e with
  | Some t => t
  | None => default
  end.

(** [a or b or c] *)
Definition or3 (a b c : option pystr) : option pystr :=
  if truthy a then a else if truthy b then b else c.

(** The canonical phones of the phone elements, empty ones left out. *)
Definition collect_phones (texts : list pystr) : list pystr :=
  filter (fun p => negb (is_empty p)) (map parse_phone texts).

(** The [try] block: the phones, the images, then the arguments of
    [Car(...)] in their order. *)
Definition build_car (u : pystr) (elements : page_elements) (now : Z)
  : built car :=
  let phones := collect_phones (el_phones elements) in
  let '(image_url_, images_count_) :=
    match el_images elements with
    | first_image :: _ =>
      (or3 (srcset first_image) (src first_image) (data_src first_image),
       Z.of_nat (List.length (el_images elements)))
    | [] => (None, 0)
    end in
  bbind (get_text (el_title elements)) (fun title_ =>
  bbind (of_result (parse_price (text_or (el_price elements) (u8 "0"))))
        (fun price_usd_ =>
  bbind (of_result (parse_odometer (text_or (el_odometer elements) (u8 "0"))))
        (fun odometer_ =>
  Built {| url := u;
           title := title_;
           price_usd := price_usd_;
           odometer := odometer_;
           username := text_or (el_username elements) (u8 "Unknown");
           phone_number := Some (hd [] phones);
           image_url := image_url_;
           images_count := images_count_;
           car_vin := text_or (el_vin elements) [];
           car_number := match el_car_number elements with
                         | Some (first_child :: _) => first_child
                         | _ => []
                         end;
           datetime_found := now |}))).

(** [parse_car_page(url)], with [now] for [datetime.now()]. *)
Definition parse_car_page (ctx : context) (now : Z) (u : pystr)
  : P (option car) :=
  (if contains u (u8 "newauto") then
     logger_note DebugSkippingNewCar ;; pure None
   else
     known <- car_exists u ;;
     if known then logger_note DebugSkippingProcessedCar ;; pure None
     else
       html <- fetch_page ctx u ;;
       if truthy html then
         match build_car u (detail_elements ctx (text_or html [])) now with
         | Built c => pure (Some c)
         | Failed _ => logger_note ErrorParsingCarPage ;; pure None
         end
       else pure None)%page.

End Extractor.

(** ** More vocabulary of the statements *)

Module Terms.
Import Py Database Scraper Extractor Spec.

(** The URLs of the store. *)
Definition stored_urls (w : world) : list pystr := map url (rows w).

(** No round trip fails from position [n] on. *)
Definition no_fault_from (w : world) (n : nat) : Prop :=
  forall i, (n <= i)%nat -> fails w i = false.

(** The last round trip of a run. *)
Definition last_op (l : list db_op) : option db_op :=
  match rev l with
  | op :: _ => Some op
  | [] => None
  end.

Definition has_digit (s : pystr) : bool := existsb is_decimal s.

(** Every request follows a pacing sleep (the [float] drawn by
    [random.uniform]) at once. *)
Fixpoint paced (slept : bool) (evs : list event) : bool :=
  match evs with
  | [] => true
  | Sleep (Float _) :: evs' => paced true evs'
  | Get _ _ :: evs' => slept && paced false evs'
  | _ :: evs' => paced false evs'
  end.

(** Values for the examples: a row, a store with no session open, a
    network that answers nothing, and a run that has not started. *)
Definition example_car (u : pystr) : car :=
  {| url := u; title := u8 "A"; price_usd := 6999; odometer := 95000;
     username := u8 "Unknown"; phone_number := None; image_url := None;
     images_count := 0; car_vin := []; car_number := [];
     datetime_found := 0 |}.

Definition example_world (rs : list car) (fl : nat -> bool) : world :=
  {| rows := rs; pending := []; log := []; ops := []; fails := fl |}.

Definition no_network : nat -> nat -> attempt_env :=
  fun _ _ => {| choice := 0; sample := float_0_5; answer := Fault |}.

Definition example_state (w : world) (nt : nat -> nat -> attempt_env)
  : state :=
  {| store := w; journal := []; trace := []; fetches := 0; net := nt |}.

(** A network that answers every request with the same body. *)
Definition network_of (body : pystr) : nat -> nat -> attempt_env :=
  fun _ _ => {| choice := 0; sample := float_0_5;
                answer := Response 200 (Some body) |}.

(** A detail page with nothing but its title. *)
Definition title_only (t : pystr) : page_elements :=
  {| el_title := Some t; el_price := None; el_odometer := None;
     el_username := None; el_vin := None; el_car_number := None;
     el_phones := []; el_images := [] |}.

(** A detail page: two phone elements after one with no digit, two
    [source] elements, a plate element with no child; [odometer_text] is
    the text of the odometer element. *)
Definition example_page (odometer_text : pystr) : page_elements :=
  {| el_title := Some (u8 "Audi A4 2016");
     el_price := Some (u8 "6 999 $");
     el_odometer := Some odometer_text;
     el_username := None;
     el_vin := Some (u8 "WAUZZZ8K9GA000000");
     el_car_number := Some [];
     el_phones := [u8 "показати"; u8 "(099) 123-45-67";
                   u8 "(050) 111 22 33"];
     el_images := [{| srcset := None; src := Some [];
                      data_src := Some (u8 "https://cdn.example/1.jpg") |};
                   {| srcset := Some (u8 "https://cdn.example/2.jpg");
                      src := None; data_src := None |}] |}.

(** The record of [example_page] with a readable odometer, and the record
    of a page with nothing but its title. *)
Definition example_record (u : pystr) : car :=
  {| url := u; title := u8 "Audi A4 2016"; price_usd := 6999;
     odometer := 95000; username := u8 "Unknown";
     phone_number := Some (u8 "+380991234567");
     image_url := Some (u8 "https://cdn.example/1.jpg");
     images_count := 2; car_vin := u8 "WAUZZZ8K9GA000000";
     car_number := []; datetime_found := 0 |}.

Definition bare_record (u : pystr) : car :=
  {| url := u; title := u8 "Audi A4 2016"; price_usd := 0; odometer := 0;
     username := u8 "Unknown"; phone_number := Some []; image_url := None;
     images_count := 0; car_vin := []; car_number := [];
     datetime_found := 0 |}.

(** The settings of the repository, a listing page with four cards (one
    without [href], one with an empty one) and detail pages with the
    elements [els]. *)
Definition example_context (els : page_elements) : context :=
  {| RETRY_ATTEMPTS := 2;
     START_URL := u8 "https://auto.ria.com/uk/car/used/";
     listing_cards := fun _ => [Some (u8 "/auto_a_1.html"); None; Some [];
                                Some (u8 "/auto_b_2.html")];
     detail_elements := fun _ => els |}.

End Terms.

(** ** Facts about the Python values *)

Unset Implicit Arguments.

Module PyFacts.
Import Py Spec.

Lemma str_eqb_eq (a b : pystr) : str_eqb a b = true <-> a = b.
Proof.
  unfold str_eqb. destruct (list_eq_dec N.eq_dec a b); split; congruence.
Qed.

Lemma str_eqb_refl (a : pystr) : str_eqb a a = true.
Proof. now apply str_eqb_eq. Qed.

Lemma str_eqb_neq (a b : pystr) : str_eqb a b = false <-> a <> b.
Proof.
  unfold str_eqb. destruct (list_eq_dec N.eq_dec a b); split; congruence.
Qed.

Lemma is_decimal_value (c : char) :
  is_decimal c = true <-> exists d, decimal_value c = Some d.
Proof.
  unfold is_decimal. destruct (decimal_value c); split; intros H.
  - now exists z.
  - reflexivity.
  - discriminate.
  - destruct H as [d H]. discriminate.
Qed.

Lemma decimal_value_range (c : char) (d : Z) :
  decimal_value c = Some d -> 0 <= d <= 9.
Proof.
  unfold decimal_value.
  destruct (find _ decimal_zeros) as [z|] eqn:F; [|discriminate].
  apply find_some in F. destruct F as [_ F].
  apply andb_true_iff in F. destruct F as [F1 F2].
  apply N.leb_le in F1. apply N.ltb_lt in F2.
  intros E. injection E as <-. lia.
Qed.

Lemma digit_range (c : char) : 0 <= digit c <= 9.
Proof.
  unfold digit. destruct (decimal_value c) eqn:E.
  - eapply decimal_value_range; eauto.
  - lia.
Qed.

Lemma digit_of_value (c : char) (d : Z) :
  decimal_value c = Some d -> digit c = d.
Proof. unfold digit. now intros ->. Qed.

(** No white space character is a decimal digit. *)
Lemma space_not_decimal (c : char) : is_space c = true -> is_decimal c = false.
Proof.
  unfold is_space. intros H. apply existsb_exists in H.
  destruct H as [x [Hin Hx]]. apply N.eqb_eq in Hx. subst x.
  simpl in Hin.
  repeat (destruct Hin as [<- | Hin]; [reflexivity|]).
  contradiction.
Qed.

Lemma decimal_not_space (c : char) : is_decimal c = true -> is_space c = false.
Proof.
  intros H. destruct (is_space c) eqn:E; [|reflexivity].
  apply space_not_decimal in E. congruence.
Qed.

Lemma int_space_is_space (c : char) : int_space c = true -> is_space c = true.
Proof. unfold int_space. intros H. now apply andb_true_iff in H. Qed.

Lemma decimal_not_int_space (c : char) :
  is_decimal c = true -> int_space c = false.
Proof.
  intros H. unfold int_space. now rewrite (decimal_not_space _ H).
Qed.

(** *** [strip] *)

Lemma lstrip_with_head (sp : char -> bool) (c : char) (s : pystr) :
  sp c = false -> lstrip_with sp (c :: s) = c :: s.
Proof. intros H. simpl. now rewrite H. Qed.

Lemma lstrip_with_last (sp : char -> bool) (c : char) (s : pystr) :
  sp c = false -> lstrip_with sp (s ++ [c]) = lstrip_with sp s ++ [c].
Proof.
  intros H. induction s as [|x s IH]; simpl.
  - now rewrite H.
  - destruct (sp x); [exact IH | reflexivity].
Qed.

Lemma rstrip_with_head (sp : char -> bool) (c : char) (s : pystr) :
  sp c = false -> exists t, rstrip_with sp (c :: s) = c :: t.
Proof.
  intros H. unfold rstrip_with. simpl.
  rewrite lstrip_with_last by exact H.
  rewrite rev_app_distr. simpl. eauto.
Qed.

Lemma strip_with_head (sp : char -> bool) (c : char) (s : pystr) :
  sp c = false -> exists t, strip_with sp (c :: s) = c :: t.
Proof.
  intros H. unfold strip_with. rewrite lstrip_with_head by exact H.
  now apply rstrip_with_head.
Qed.

Lemma rstrip_with_last (sp : char -> bool) (c : char) (s : pystr) :
  sp c = false -> rstrip_with sp (s ++ [c]) = s ++ [c].
Proof.
  intros H. unfold rstrip_with. rewrite rev_app_distr. simpl.
  rewrite H. simpl. now rewrite rev_involutive.
Qed.

(** *** [int] *)

Lemma int_digits_from_nonneg (s : pystr) :
  forall acc n, 0 <= acc -> int_digits_from acc s = Some n -> 0 <= n.
Proof.
  assert (forall k s, (List.length s <= k)%nat -> forall acc n,
            0 <= acc -> int_digits_from acc s = Some n -> 0 <= n) as H.
  { induction k as [|k IH]; intros t Hk acc n Hacc.
    - destruct t; [|simpl in Hk; lia].
      simpl. intros E. injection E as <-. exact Hacc.
    - destruct t as [|c r]; cbn [int_digits_from].
      + intros E. injection E as <-. exact Hacc.
      + simpl in Hk. destruct (decimal_value c) as [d|] eqn:D.
        * apply IH; [lia|]. apply decimal_value_range in D. lia.
        * destruct (c =? 95)%N; [|discriminate].
          destruct r as [|c' r']; [discriminate|].
          destruct (decimal_value c') as [d'|] eqn:D'; [|discriminate].
          simpl in Hk. apply IH; [lia|].
          apply decimal_value_range in D'. lia. }
  intros acc n. now apply (H (List.length s)).
Qed.

Lemma int_digits_nonneg (s : pystr) (n : Z) :
  int_digits s = Some n -> 0 <= n.
Proof.
  unfold int_digits. destruct s as [|c r]; [discriminate|].
  destruct (decimal_value c) as [d|] eqn:D; [|discriminate].
  apply int_digits_from_nonneg. apply decimal_value_range in D. lia.
Qed.

Lemma split_sign_digit (c : char) (t : pystr) :
  is_decimal c = true -> split_sign (c :: t) = (false, c :: t).
Proof.
  intros H. unfold split_sign.
  destruct (c =? 43)%N eqn:E1.
  { apply N.eqb_eq in E1. subst c. vm_compute in H. discriminate. }
  destruct (c =? 45)%N eqn:E2.
  { apply N.eqb_eq in E2. subst c. vm_compute in H. discriminate. }
  reflexivity.
Qed.

(** [int] of a text that starts with a digit is not negative. *)
Lemma py_int_digit_head (c : char) (s : pystr) :
  is_decimal c = true ->
  (exists n, py_int (c :: s) = Returns n /\ 0 <= n) \/
  py_int (c :: s) = Raises ValueError.
Proof.
  intros H. unfold py_int.
  destruct (strip_with_head int_space c s (decimal_not_int_space _ H))
    as [t ->].
  rewrite (split_sign_digit c t H).
  destruct (int_digits (c :: t)) as [n|] eqn:E.
  - destruct (max_str_digits <? count_digits (c :: t))%nat; [now right|].
    left. exists n. split; [reflexivity|]. now apply int_digits_nonneg in E.
  - now right.
Qed.

Lemma int_digits_from_decimal (ds : pystr) (acc : Z) :
  all_decimal ds = true ->
  int_digits_from acc ds = Some (fold_left (fun a c => 10 * a + digit c) ds acc).
Proof.
  revert acc. induction ds as [|c ds IH]; intros acc H;
    cbn [int_digits_from fold_left].
  - reflexivity.
  - simpl in H. apply andb_true_iff in H. destruct H as [Hc Hds].
    apply is_decimal_value in Hc. destruct Hc as [d Hd].
    rewrite Hd, (digit_of_value _ _ Hd). now apply IH.
Qed.

Lemma count_digits_decimal (ds : pystr) :
  all_decimal ds = true -> count_digits ds = List.length ds.
Proof.
  unfold count_digits, all_decimal. induction ds as [|c ds IH];
    [reflexivity|].
  cbn [forallb filter]. intros H. apply andb_true_iff in H.
  destruct H as [Hc Hds]. rewrite Hc. cbn [List.length]. now rewrite IH.
Qed.

(** [int] of a run of decimal digits is the number it writes, unless the
    run is longer than [max_str_digits]. *)
Lemma py_int_decimal (ds : pystr) :
  ds <> [] -> all_decimal ds = true ->
  py_int ds =
  if (max_str_digits <? List.length ds)%nat then Raises ValueError
  else Returns (decimal_number ds).
Proof.
  intros Hne Hall. pose proof (count_digits_decimal ds Hall) as Hcount.
  assert (strip_with int_space ds = ds) as Hstrip.
  { destruct ds as [|c r]; [congruence|].
    pose proof Hall as Hall'. simpl in Hall'.
    apply andb_true_iff in Hall'. destruct Hall' as [Hc _].
    unfold strip_with.
    rewrite lstrip_with_head by now apply decimal_not_int_space.
    destruct (exists_last (l := c :: r)) as [l [z E]]; [congruence|].
    rewrite E. apply rstrip_with_last. apply decimal_not_int_space.
    unfold all_decimal in Hall. rewrite E, forallb_app in Hall.
    apply andb_true_iff in Hall. destruct Hall as [_ Hz].
    simpl in Hz. now rewrite andb_true_r in Hz. }
  unfold py_int. rewrite Hstrip.
  destruct ds as [|c r]; [congruence|].
  simpl in Hall. apply andb_true_iff in Hall. destruct Hall as [Hc Hr].
  rewrite (split_sign_digit c r Hc), Hcount.
  unfold int_digits. apply is_decimal_value in Hc. destruct Hc as [d Hd].
  rewrite Hd, (int_digits_from_decimal _ _ Hr).
  unfold decimal_number. cbn [fold_left].
  now rewrite (digit_of_value _ _ Hd).
Qed.

Lemma space_not_underscore (c : char) : is_space c = true -> (c =? 95)%N = false.
Proof.
  unfold is_space. intros H. apply existsb_exists in H.
  destruct H as [x [Hin Hx]]. apply N.eqb_eq in Hx. subst x.
  simpl in Hin.
  repeat (destruct Hin as [<- | Hin]; [reflexivity|]).
  contradiction.
Qed.

Lemma int_digits_from_space (w rest : pystr) (c : char) (acc : Z) :
  all_decimal w = true -> is_space c = true ->
  int_digits_from acc (w ++ c :: rest) = None.
Proof.
  intros Hw Hc. revert acc.
  induction w as [|x w IH]; intros acc; cbn [app int_digits_from].
  - pose proof (space_not_decimal _ Hc) as Hd. unfold is_decimal in Hd.
    destruct (decimal_value c); [discriminate|].
    now rewrite (space_not_underscore _ Hc).
  - simpl in Hw. apply andb_true_iff in Hw. destruct Hw as [Hx Hw].
    apply is_decimal_value in Hx. destruct Hx as [d ->]. now apply IH.
Qed.

(** [int] rejects white space between digits. *)
Lemma py_int_spaced (x y c : char) (w ws w2 : pystr) :
  is_decimal x = true -> all_decimal w = true ->
  is_space c = true ->
  is_decimal y = true -> all_decimal w2 = true ->
  py_int (x :: w ++ (c :: ws) ++ y :: w2) = Raises ValueError.
Proof.
  intros Hx Hw Hc Hy Hw2.
  assert (strip_with int_space (x :: w ++ (c :: ws) ++ y :: w2)
          = x :: w ++ (c :: ws) ++ y :: w2) as Hstrip.
  { unfold strip_with.
    rewrite lstrip_with_head by now apply decimal_not_int_space.
    destruct (exists_last (l := y :: w2)) as [l [z E]]; [discriminate|].
    assert (is_decimal z = true) as Hz.
    { assert (all_decimal (y :: w2) = true) as Hall
        by (simpl; now rewrite Hy, Hw2).
      rewrite E in Hall. unfold all_decimal in Hall.
      rewrite forallb_app in Hall. apply andb_true_iff in Hall.
      destruct Hall as [_ Hall]. simpl in Hall.
      now rewrite andb_true_r in Hall. }
    rewrite E.
    replace (x :: w ++ (c :: ws) ++ l ++ [z])
      with ((x :: w ++ (c :: ws) ++ l) ++ [z])
      by (simpl; rewrite <- !app_assoc; simpl; now rewrite <- !app_assoc).
    apply rstrip_with_last. now apply decimal_not_int_space. }
  unfold py_int. rewrite Hstrip, (split_sign_digit _ _ Hx).
  unfold int_digits. apply is_decimal_value in Hx. destruct Hx as [d ->].
  change ((c :: ws) ++ y :: w2) with (c :: ws ++ y :: w2).
  now rewrite (int_digits_from_space w _ c d Hw Hc).
Qed.

Lemma decimal_number_nonneg (ds : pystr) : 0 <= decimal_number ds.
Proof.
  unfold decimal_number.
  assert (forall acc, 0 <= acc ->
            0 <= fold_left (fun a c => 10 * a + digit c) ds acc) as H.
  { induction ds as [|c ds IH]; intros acc Ha; cbn [fold_left]; [exact Ha|].
    apply IH. pose proof (digit_range c). lia. }
  apply H. lia.
Qed.

End PyFacts.

(** ** Facts about the matcher *)

Module ReFacts.
Import Py Re Spec PyFacts.

Ltac inv H := inversion H; subst; clear H.

Lemma consumed_app (w s' : pystr) : consumed (w ++ s') s' = w.
Proof.
  unfold consumed. rewrite length_app.
  replace (List.length w + List.length s' - List.length s')%nat
    with (List.length w) by lia.
  rewrite firstn_app, firstn_all, Nat.sub_diag. simpl. apply app_nil_r.
Qed.

Lemma startswith_app (s w : pystr) :
  startswith s w = true -> s = w ++ skipn (List.length w) s.
Proof.
  revert s. induction w as [|a w IH]; intros s H.
  - reflexivity.
  - destruct s as [|b s]; simpl in H; [discriminate|].
    apply andb_true_iff in H. destruct H as [Hab H].
    apply N.eqb_eq in Hab. subst b. simpl. f_equal. now apply IH.
Qed.

(** A greedy repetition hands over a suffix that is reached through
    characters of the class only. *)
Lemma greedy_sound {A} (p : char -> bool) (s : pystr)
      (k : pystr -> option A) (m : A) :
  greedy p s k = Some m ->
  exists w s', s = w ++ s' /\ forallb p w = true /\ k s' = Some m.
Proof.
  induction s as [|c s IH]; simpl; intros H.
  - exists [], []. auto.
  - destruct (p c) eqn:Hc.
    + destruct (greedy p s k) as [m'|] eqn:G.
      * injection H as <-.
        destruct (IH eq_refl) as [w [s' [-> [Hw Hk]]]].
        exists (c :: w), s'. simpl. rewrite Hc, Hw. auto.
      * exists [], (c :: s). auto.
    + exists [], (c :: s). auto.
Qed.

(** It tries the longest run first. *)
Lemma greedy_longest {A} (p : char -> bool) (w s' : pystr)
      (k : pystr -> option A) (m : A) :
  forallb p w = true ->
  match s' with [] => true | c :: _ => negb (p c) end = true ->
  k s' = Some m ->
  greedy p (w ++ s') k = Some m.
Proof.
  intros Hw Hs' Hk. induction w as [|c w IH]; simpl.
  - destruct s' as [|c t]; [exact Hk|].
    simpl. apply negb_true_iff in Hs'. now rewrite Hs'.
  - simpl in Hw. apply andb_true_iff in Hw. destruct Hw as [Hc Hw].
    now rewrite Hc, (IH Hw).
Qed.

Lemma matches_lit_inv (w s s' : pystr) (g g' : groups) :
  matches (Lit w) s g s' g' -> s = w ++ s' /\ g' = g.
Proof.
  intros H. inv H. split; [|reflexivity]. now apply startswith_app.
Qed.

Lemma matches_cat_inv (r1 r2 : regex) (s s2 : pystr) (g g2 : groups) :
  matches (Cat r1 r2) s g s2 g2 ->
  exists s1 g1, matches r1 s g s1 g1 /\ matches r2 s1 g1 s2 g2.
Proof. intros H. inv H. eauto. Qed.

Lemma matches_alt_inv (r1 r2 : regex) (s s' : pystr) (g g' : groups) :
  matches (Alt r1 r2) s g s' g' ->
  matches r1 s g s' g' \/ matches r2 s g s' g'.
Proof. intros H. inv H; auto. Qed.

Lemma matches_opt_inv (r : regex) (s s' : pystr) (g g' : groups) :
  matches (Opt r) s g s' g' ->
  matches r s g s' g' \/ (s' = s /\ g' = g).
Proof. intros H. inv H; auto. Qed.

Lemma matches_star_inv (c : cclass) (s s' : pystr) (g g' : groups) :
  matches (StarC c) s g s' g' ->
  exists w, s = w ++ s' /\ forallb (in_class c) w = true /\ g' = g.
Proof. intros H. inv H. eauto. Qed.

Lemma matches_plus_inv (c : cclass) (s s' : pystr) (g g' : groups) :
  matches (PlusC c) s g s' g' ->
  exists x w, s = x :: w ++ s' /\ in_class c x = true /\
              forallb (in_class c) w = true /\ g' = g.
Proof. intros H. inv H. eexists _, _. eauto. Qed.

Lemma matches_grp_inv (n : nat) (r : regex) (s s' : pystr) (g g2 : groups) :
  matches (Grp n r) s g s' g2 ->
  exists g', g2 = (n, consumed s s') :: g' /\ matches r s g s' g'.
Proof. intros H. inv H. eauto. Qed.

(** A match reads a prefix of its input. *)
Lemma matches_prefix (r : regex) (s s' : pystr) (g g' : groups) :
  matches r s g s' g' -> exists w, s = w ++ s'.
Proof.
  induction 1.
  - exists (firstn (List.length w) s).
    symmetry. apply firstn_skipn.
  - destruct IHmatches1 as [w1 ->]. destruct IHmatches2 as [w2 ->].
    exists (w1 ++ w2). now rewrite app_assoc.
  - assumption.
  - assumption.
  - assumption.
  - now exists [].
  - now exists w.
  - now exists (x :: w).
  - assumption.
Qed.

(** Whatever the matcher finds is a match of the pattern. *)
Lemma run_sound {A} (r : regex) :
  forall (s : pystr) (g : groups) (k : pystr -> groups -> option A) (m : A),
    run r s g k = Some m ->
    exists s' g', matches r s g s' g' /\ k s' g' = Some m.
Proof.
  induction r as [w|r1 IH1 r2 IH2|r1 IH1 r2 IH2|r1 IH1|c|c|n r1 IH1];
    intros s g k m H; simpl in H.
  - destruct (startswith s w) eqn:E; [|discriminate].
    eexists _, _. split; [now apply m_lit | exact H].
  - apply IH1 in H. destruct H as [s1 [g1 [M1 H]]].
    apply IH2 in H. destruct H as [s2 [g2 [M2 H]]].
    eexists _, _. split; [eapply m_cat; eauto | exact H].
  - destruct (run r1 s g k) as [m1|] eqn:E.
    + injection H as <-. apply IH1 in E. destruct E as [s' [g' [M E]]].
      eexists _, _. split; [apply m_alt_l; eauto | exact E].
    + apply IH2 in H. destruct H as [s' [g' [M H]]].
      eexists _, _. split; [apply m_alt_r; eauto | exact H].
  - destruct (run r1 s g k) as [m1|] eqn:E.
    + injection H as <-. apply IH1 in E. destruct E as [s' [g' [M E]]].
      eexists _, _. split; [apply m_opt_some; eauto | exact E].
    + eexists _, _. split; [apply m_opt_none | exact H].
  - apply greedy_sound in H. destruct H as [w [s' [-> [Hw H]]]].
    eexists _, _. split; [now apply m_star | exact H].
  - destruct s as [|x s]; [discriminate|].
    destruct (in_class c x) eqn:Hx; [|discriminate].
    apply greedy_sound in H. destruct H as [w [s' [-> [Hw H]]]].
    eexists _, _. split; [now apply m_plus | exact H].
  - apply IH1 in H. destruct H as [s' [g' [M H]]].
    eexists _, _. split; [apply m_grp; eauto | exact H].
Qed.

(** The equations of the matcher. *)
Lemma run_cat {A} (r1 r2 : regex) (s : pystr) (g : groups)
      (k : pystr -> groups -> option A) :
  run (Cat r1 r2) s g k = run r1 s g (fun s' g' => run r2 s' g' k).
Proof. reflexivity. Qed.

Lemma run_opt {A} (r : regex) (s : pystr) (g : groups)
      (k : pystr -> groups -> option A) :
  run (Opt r) s g k =
  match run r s g k with
  | Some m => Some m
  | None => k s g
  end.
Proof. reflexivity. Qed.

Lemma run_grp {A} (n : nat) (r : regex) (s : pystr) (g : groups)
      (k : pystr -> groups -> option A) :
  run (Grp n r) s g k =
  run r s g (fun s' g' => k s' ((n, consumed s s') :: g')).
Proof. reflexivity. Qed.

Lemma run_star {A} (c : cclass) (s : pystr) (g : groups)
      (k : pystr -> groups -> option A) :
  run (StarC c) s g k = greedy (in_class c) s (fun s' => k s' g).
Proof. reflexivity. Qed.

Lemma run_plus {A} (c : cclass) (x : char) (s : pystr) (g : groups)
      (k : pystr -> groups -> option A) :
  in_class c x = true ->
  run (PlusC c) (x :: s) g k = greedy (in_class c) s (fun s' => k s' g).
Proof. intros H. simpl. now rewrite H. Qed.

Lemma match_at_sound (r : regex) (s : pystr) (m : groups) :
  match_at r s = Some m -> exists s', matches r s [] s' m.
Proof.
  unfold match_at. intros H. apply run_sound in H.
  destruct H as [s' [g' [M E]]]. injection E as ->. eauto.
Qed.

(** A search result is a match at some position of the text. *)
Lemma search_sound (r : regex) (s : pystr) (m : groups) :
  search r s = Some m ->
  exists pre t, s = pre ++ t /\ match_at r t = Some m.
Proof.
  induction s as [|c s IH]; simpl; intros H.
  - destruct (match_at r []) eqn:E; [|discriminate].
    injection H as <-. now exists [], [].
  - destruct (match_at r (c :: s)) eqn:E.
    + injection H as <-. now exists [], (c :: s).
    + destruct (IH H) as [pre [t [-> Ht]]]. now exists (c :: pre), t.
Qed.

End ReFacts.

(** ** Facts about binary64 arithmetic *)

Module FloatFacts.
Import Py Spec.

(** The literals are the correctly rounded quotients 11/10 and
    4122/100, and lie within half a unit in the last place of them. *)
Lemma float_literals :
  float_1_1 = SFdiv prec emax (binary_normalize prec emax 11 0 false)
                    (binary_normalize prec emax 10 0 false) /\
  float_41_22 = SFdiv prec emax (binary_normalize prec emax 4122 0 false)
                      (binary_normalize prec emax 100 0 false) /\
  Z.abs (10 * 4953959590107546 - 11 * 2 ^ 52) * 2 <= 10 /\
  Z.abs (100 * 5801199270006620 - 4122 * 2 ^ 47) * 2 <= 100.
Proof. repeat split; vm_compute; congruence. Qed.

Lemma iter_pos_invariant {A} (P : A -> Prop) (f : A -> A) :
  (forall x, P x -> P (f x)) ->
  forall p x, P x -> P (iter_pos f p x).
Proof.
  intros Hf. induction p as [p IH|p IH|]; intros x Hx; simpl; auto.
Qed.

Lemma shr_1_nonneg (mrs : shr_record) :
  0 <= shr_m mrs -> 0 <= shr_m (shr_1 mrs).
Proof.
  destruct mrs as [m r s]. simpl.
  destruct m as [|p|p]; [| destruct p | destruct p]; simpl; lia.
Qed.

Lemma shr_m_of_loc (m : Z) (l : location) :
  shr_m (shr_record_of_loc m l) = m.
Proof. destruct l as [|[ | | ]]; reflexivity. Qed.

Lemma shr_fexp_nonneg (m e : Z) (l : location) :
  0 <= m -> 0 <= shr_m (fst (shr_fexp prec emax m e l)).
Proof.
  intros Hm. unfold shr_fexp, shr.
  destruct (fexp prec emax (Zdigits2 m + e) - e) as [|p|p]; simpl;
    try (rewrite shr_m_of_loc; exact Hm).
  apply (iter_pos_invariant (fun x => 0 <= shr_m x)).
  - exact shr_1_nonneg.
  - rewrite shr_m_of_loc. exact Hm.
Qed.

Lemma round_nearest_even_nonneg (m : Z) (l : location) :
  0 <= m -> 0 <= round_nearest_even m l.
Proof.
  intros Hm. unfold round_nearest_even.
  destruct l as [|[ | | ]]; try destruct (Z.even m); lia.
Qed.

(** Rounding a mantissa that is not negative never yields a NaN and keeps
    the sign it is given. *)
Lemma binary_round_aux_sign (sx : bool) (mx ex : Z) (lx : location) :
  0 <= mx ->
  match binary_round_aux prec emax sx mx ex lx with
  | S754_zero s => s = sx
  | S754_finite s _ _ => s = sx
  | S754_infinity s => s = sx
  | S754_nan => False
  end.
Proof.
  intros Hm. unfold binary_round_aux.
  pose proof (shr_fexp_nonneg mx ex lx Hm) as H1.
  destruct (shr_fexp prec emax mx ex lx) as [mrs' e']. simpl in H1.
  pose proof (shr_fexp_nonneg _ e' loc_Exact
                (round_nearest_even_nonneg _ (loc_of_shr_record mrs') H1))
    as H2.
  destruct (shr_fexp prec emax
              (round_nearest_even (shr_m mrs') (loc_of_shr_record mrs'))
              e' loc_Exact) as [mrs'' e''].
  simpl in H2.
  destruct (shr_m mrs'') as [|p|p]; [reflexivity | | lia].
  destruct (e'' <=? emax - prec); reflexivity.
Qed.

Lemma float_of_int_not_negative (n : Z) (x : float) :
  0 <= n -> float_of_int n = Returns x ->
  not_negative x = true /\
  match x with S754_infinity _ => False | _ => True end.
Proof.
  intros Hn. unfold float_of_int, binary_normalize.
  destruct n as [|p|p]; [| | lia].
  - intros E. injection E as <-. now split.
  - unfold binary_round.
    destruct (shl_align p 0 (fexp prec emax (Z.pos (digits2_pos p) + 0)))
      as [mz ez].
    pose proof (binary_round_aux_sign false (Z.pos mz) ez loc_Exact) as H.
    destruct (binary_round_aux prec emax false (Z.pos mz) ez loc_Exact)
      as [s|s| |s m e]; intros E; try discriminate;
      injection E as <-; specialize (H ltac:(lia)); subst; now split.
Qed.

Lemma shiftl_pos_nonneg (p : positive) (s : Z) : 0 <= Z.shiftl (Z.pos p) s.
Proof. apply Z.shiftl_nonneg. lia. Qed.

Lemma SFdiv_not_negative (x y : float) :
  not_negative x = true ->
  match x with S754_infinity _ => False | _ => True end ->
  match y with S754_finite false _ _ => True | _ => False end ->
  not_negative (SFdiv prec emax x y) = true.
Proof.
  intros Hx Hfin Hy.
  destruct y as [| | |sy my ey]; try contradiction.
  destruct sy; [contradiction|].
  destruct x as [sx|sx| |sx mx ex]; try contradiction; try discriminate.
  - reflexivity.
  - simpl in Hx. apply negb_true_iff in Hx. subst sx.
    unfold SFdiv, SFdiv_core_binary.
    set (e' := Z.min _ _). set (sh := ex - ey - e').
    set (m' := match sh with
               | 0 => Z.pos mx
               | Z.pos _ => Z.shiftl (Z.pos mx) sh
               | Z.neg _ => 0
               end).
    assert (0 <= m') as Hm'.
    { unfold m'. destruct sh; try lia. apply shiftl_pos_nonneg. }
    assert (0 <= fst (Z.div_eucl m' (Z.pos my))) as Hq.
    { change (0 <= m' / Z.pos my). apply Z.div_pos; lia. }
    destruct (Z.div_eucl m' (Z.pos my)) as [q r]. simpl in Hq.
    pose proof (binary_round_aux_sign (xorb false false) q e'
                  (new_location (Z.pos my) r) Hq) as H.
    destruct (binary_round_aux prec emax (xorb false false) q e'
                (new_location (Z.pos my) r)) as [s|s| |s m e];
      simpl in *; subst; try reflexivity; contradiction.
Qed.

Lemma SFmul_not_negative (x y : float) :
  not_negative x = true ->
  match x with S754_infinity _ => False | _ => True end ->
  match y with S754_finite false _ _ => True | _ => False end ->
  not_negative (SFmul prec emax x y) = true.
Proof.
  intros Hx Hfin Hy.
  destruct y as [| | |sy my ey]; try contradiction.
  destruct sy; [contradiction|].
  destruct x as [sx|sx| |sx mx ex]; try contradiction; try discriminate.
  - reflexivity.
  - simpl in Hx. apply negb_true_iff in Hx. subst sx.
    unfold SFmul.
    pose proof (binary_round_aux_sign (xorb false false) (Z.pos (mx * my))
                  (ex + ey) loc_Exact ltac:(lia)) as H.
    destruct (binary_round_aux prec emax (xorb false false)
                (Z.pos (mx * my)) (ex + ey) loc_Exact) as [s|s| |s m e];
      simpl in *; subst; try reflexivity; contradiction.
Qed.

(** *** The quotient by 41.22 is finite *)

Lemma digits2_size (p : positive) : digits2_pos p = Pos.size p.
Proof. induction p as [p IH|p IH|]; simpl; now rewrite ?IH. Qed.

Lemma Zdigits2_nonneg (m : Z) : 0 <= Zdigits2 m.
Proof. destruct m; simpl; lia. Qed.

Lemma Zdigits2_lt_pow (m : Z) : 0 <= m -> m < 2 ^ Zdigits2 m.
Proof.
  destruct m as [|p|p]; intros H; [reflexivity | | lia].
  simpl Zdigits2. rewrite digits2_size, <- Pos2Z.inj_pow.
  apply Pos2Z.pos_lt_pos, Pos.size_gt.
Qed.

Lemma Zdigits2_le (m k : Z) : 0 <= m -> 0 <= k -> m < 2 ^ k -> Zdigits2 m <= k.
Proof.
  destruct m as [|p|p]; intros Hm Hk H; [exact Hk | | lia].
  simpl Zdigits2. rewrite digits2_size.
  pose proof (Pos.size_le p) as Hs.
  apply Pos2Z.pos_le_pos in Hs. rewrite Pos2Z.inj_pow in Hs.
  change (Z.pos p~0) with (2 * Z.pos p) in Hs.
  assert (2 ^ Z.pos (Pos.size p) < 2 ^ (k + 1)) as Hlt.
  { rewrite Z.pow_add_r by lia. change (2 ^ 1) with 2. lia. }
  apply Z.pow_lt_mono_r_iff in Hlt; lia.
Qed.

Lemma shr_1_digits (mrs : shr_record) :
  0 <= shr_m mrs ->
  Zdigits2 (shr_m (shr_1 mrs)) = Z.max (Zdigits2 (shr_m mrs) - 1) 0.
Proof.
  destruct mrs as [m r s]. cbn [shr_m].
  destruct m as [|p|p]; [reflexivity | | lia].
  intros _.
  destruct p as [p|p|]; cbn [shr_1 shr_m Zdigits2 digits2_pos];
    rewrite ?Pos2Z.inj_succ; lia.
Qed.

Lemma iter_shr_1_digits (p : positive) :
  forall mrs, 0 <= shr_m mrs ->
    0 <= shr_m (iter_pos shr_1 p mrs) /\
    Zdigits2 (shr_m (iter_pos shr_1 p mrs))
    = Z.max (Zdigits2 (shr_m mrs) - Z.pos p) 0.
Proof.
  induction p as [p IH|p IH|]; intros mrs H; simpl iter_pos.
  - pose proof (shr_1_nonneg mrs H) as H1.
    pose proof (shr_1_digits mrs H) as D1.
    destruct (IH _ H1) as [H2 D2]. destruct (IH _ H2) as [H3 D3].
    split; [exact H3|]. rewrite D3, D2, D1. lia.
  - destruct (IH _ H) as [H2 D2]. destruct (IH _ H2) as [H3 D3].
    split; [exact H3|]. rewrite D3, D2. lia.
  - split; [now apply shr_1_nonneg|]. now rewrite shr_1_digits.
Qed.

Lemma fexp_eq (z : Z) : fexp prec emax z = Z.max (z - 53) (-1074).
Proof. reflexivity. Qed.

(** The shift to the exponent of the format leaves at most 53 digits. *)
Lemma shr_fexp_bounds (m e : Z) (l : location) :
  0 <= m ->
  0 <= shr_m (fst (shr_fexp prec emax m e l)) /\
  Zdigits2 (shr_m (fst (shr_fexp prec emax m e l))) <= 53 /\
  snd (shr_fexp prec emax m e l) = Z.max e (fexp prec emax (Zdigits2 m + e)) /\
  Zdigits2 (shr_m (fst (shr_fexp prec emax m e l)))
  + snd (shr_fexp prec emax m e l)
  <= Z.max (Zdigits2 m + e) (fexp prec emax (Zdigits2 m + e)).
Proof.
  intros Hm. unfold shr_fexp, shr.
  pose proof (Zdigits2_nonneg m) as Hd.
  rewrite !fexp_eq.
  destruct (Z.max (Zdigits2 m + e - 53) (-1074) - e) as [|p|p] eqn:E;
    cbn [fst snd]; rewrite ?shr_m_of_loc.
  - repeat split; lia.
  - destruct (iter_shr_1_digits p (shr_record_of_loc m l)) as [H1 D1];
      [now rewrite shr_m_of_loc|].
    rewrite shr_m_of_loc in D1. rewrite D1.
    repeat split; lia.
  - repeat split; lia.
Qed.

Lemma round_nearest_even_digits (m : Z) (l : location) :
  0 <= m -> Zdigits2 (round_nearest_even m l) <= Zdigits2 m + 1.
Proof.
  intros Hm.
  assert (Zdigits2 (m + 1) <= Zdigits2 m + 1) as H1.
  { pose proof (Zdigits2_nonneg m). pose proof (Zdigits2_lt_pow m Hm).
    apply Zdigits2_le; try lia.
    rewrite Z.pow_add_r by lia. change (2 ^ 1) with 2. lia. }
  unfold round_nearest_even.
  destruct l as [|[ | | ]]; try destruct (Z.even m); lia.
Qed.

(** Rounding gives a finite value when the exponent is in range. *)
Lemma binary_round_aux_finite (sx : bool) (m e : Z) (l : location) :
  0 <= m -> e <= 971 -> Zdigits2 m + e <= 1023 ->
  match binary_round_aux prec emax sx m e l with
  | S754_zero s => s = sx
  | S754_finite s _ _ => s = sx
  | _ => False
  end.
Proof.
  intros Hm He Hd. unfold binary_round_aux.
  destruct (shr_fexp_bounds m e l Hm) as [H1 [D1 [E1 S1]]].
  destruct (shr_fexp prec emax m e l) as [mrs' e']. cbn [fst snd] in *.
  pose proof (round_nearest_even_nonneg _ (loc_of_shr_record mrs') H1) as H2.
  pose proof (round_nearest_even_digits _ (loc_of_shr_record mrs') H1) as D2.
  destruct (shr_fexp_bounds _ e' loc_Exact H2) as [H3 [D3 [E3 S3]]].
  destruct (shr_fexp prec emax
              (round_nearest_even (shr_m mrs') (loc_of_shr_record mrs'))
              e' loc_Exact) as [mrs'' e'']. cbn [fst snd] in *.
  rewrite !fexp_eq in *.
  destruct (shr_m mrs'') as [|p|p]; [reflexivity | | lia].
  assert (e'' <= 971) as H by lia.
  apply Z.leb_le in H. unfold emax, prec. simpl Z.sub. now rewrite H.
Qed.

(** A finite result of rounding has at most 53 digits and an exponent in
    range. *)
Lemma binary_round_aux_canonical (sx : bool) (m e : Z) (l : location) :
  0 <= m ->
  match binary_round_aux prec emax sx m e l with
  | S754_finite _ mz ez => Zdigits2 (Z.pos mz) <= 53 /\ ez <= 971
  | _ => True
  end.
Proof.
  intros Hm. unfold binary_round_aux.
  destruct (shr_fexp_bounds m e l Hm) as [H1 _].
  destruct (shr_fexp prec emax m e l) as [mrs' e']. cbn [fst snd] in *.
  pose proof (round_nearest_even_nonneg _ (loc_of_shr_record mrs') H1) as H2.
  destruct (shr_fexp_bounds _ e' loc_Exact H2) as [H3 [D3 _]].
  destruct (shr_fexp prec emax
              (round_nearest_even (shr_m mrs') (loc_of_shr_record mrs'))
              e' loc_Exact) as [mrs'' e'']. cbn [fst snd] in *.
  destruct (shr_m mrs'') as [|p|p]; try exact I.
  destruct (e'' <=? emax - prec) eqn:E; [|exact I].
  apply Z.leb_le in E. unfold emax, prec in E. split; [exact D3 | lia].
Qed.

Lemma float_of_int_canonical (n : Z) (s : bool) (m : positive) (e : Z) :
  float_of_int n = Returns (S754_finite s m e) ->
  Zdigits2 (Z.pos m) <= 53 /\ e <= 971.
Proof.
  unfold float_of_int, binary_normalize.
  destruct n as [|p|p]; [discriminate | |]; unfold binary_round;
    destruct (shl_align p 0 (fexp prec emax (Z.pos (digits2_pos p) + 0)))
      as [mz ez];
    match goal with
    | |- context [binary_round_aux prec emax ?sx ?mm ?ee ?ll] =>
      pose proof (binary_round_aux_canonical sx mm ee ll ltac:(lia)) as H;
      destruct (binary_round_aux prec emax sx mm ee ll)
    end; intros E; try discriminate; injection E as -> -> ->; exact H.
Qed.

(** The quotient of a finite value by 41.22 is finite. *)
Lemma SFdiv_41_22_finite (m : positive) (e : Z) :
  Zdigits2 (Z.pos m) <= 53 -> e <= 971 ->
  match SFdiv prec emax (S754_finite false m e) float_41_22 with
  | S754_zero _ | S754_finite false _ _ => True
  | _ => False
  end.
Proof.
  intros Hd He. unfold SFdiv, float_41_22, SFdiv_core_binary.
  set (d1 := Zdigits2 (Z.pos m)) in *.
  change (Zdigits2 5801199270006620) with 53.
  rewrite fexp_eq.
  set (e' := Z.min (Z.max (d1 + e - (53 + -47) - 53) (-1074)) (e - -47)).
  set (sh := e - -47 - e').
  set (m' := match sh with
             | 0 => Z.pos m
             | Z.pos _ => Z.shiftl (Z.pos m) sh
             | Z.neg _ => 0
             end).
  assert (0 <= sh) as Hsh by (unfold sh, e'; lia).
  assert (0 < d1) as Hd1 by (unfold d1; simpl; lia).
  assert (m' = Z.pos m * 2 ^ sh) as Hm'.
  { unfold m'. destruct sh as [|q|q] eqn:Es; [simpl; lia | | lia].
    now rewrite Z.shiftl_mul_pow2 by lia. }
  assert (0 <= m' < 2 ^ (d1 + sh)) as Hb.
  { rewrite Hm', Z.pow_add_r by lia.
    pose proof (Zdigits2_lt_pow (Z.pos m) ltac:(lia)) as Hlt. fold d1 in Hlt.
    assert (0 < 2 ^ sh) by (apply Z.pow_pos_nonneg; lia).
    nia. }
  assert (0 <= m' / 5801199270006620) as Hq0 by (apply Z.div_pos; lia).
  assert (Zdigits2 (m' / 5801199270006620) <= Z.max (d1 + sh - 52) 0) as Hq.
  { destruct (Z_le_gt_dec 52 (d1 + sh)) as [Hge | Hlt].
    - apply Zdigits2_le; [exact Hq0 | lia |].
      rewrite Z.max_l by lia.
      apply Z.div_lt_upper_bound; [lia|].
      assert (2 ^ (d1 + sh) = 2 ^ 52 * 2 ^ (d1 + sh - 52)) as Epow.
      { rewrite <- Z.pow_add_r by lia. f_equal. lia. }
      assert (0 < 2 ^ (d1 + sh - 52)) by (apply Z.pow_pos_nonneg; lia).
      change (2 ^ 52) with 4503599627370496 in Epow. nia.
    - assert (2 ^ (d1 + sh) <= 2 ^ 52) as Hp
        by (apply Z.pow_le_mono_r; lia).
      change (2 ^ 52) with 4503599627370496 in Hp.
      rewrite Z.div_small by lia. simpl. lia. }
  change (m' / 5801199270006620)
    with (fst (Z.div_eucl m' 5801199270006620)) in Hq, Hq0.
  destruct (Z.div_eucl m' 5801199270006620) as [q r]. cbn [fst] in Hq, Hq0.
  pose proof (binary_round_aux_finite (xorb false false) q e'
                (new_location 5801199270006620 r) Hq0) as H.
  destruct (binary_round_aux prec emax (xorb false false) q e'
              (new_location 5801199270006620 r)) as [s|s| |s mz ez];
    try (apply H; unfold sh, e' in *; lia).
  - exact I.
  - assert (s = xorb false false) as ->
        by (apply H; unfold sh, e' in *; lia).
    exact I.
Qed.

(** [int] of a value that is not negative: an integer that is not
    negative, or the overflow of an infinity. *)
Lemma int_of_float_not_negative (x : float) :
  not_negative x = true ->
  (exists n, int_of_float x = Returns n /\ 0 <= n) \/
  int_of_float x = Raises OverflowError.
Proof.
  destruct x as [s|s| |s m e]; simpl; intros H; try discriminate.
  - left. exists 0. split; [reflexivity | lia].
  - now right.
  - apply negb_true_iff in H. subst s. left. eexists. split; [reflexivity|].
    simpl. apply shiftl_pos_nonneg.
Qed.

(** [int] truncates: the integer returned for a value that is not negative
    is the largest one that does not exceed it. *)
Lemma int_of_float_truncates (x : float) (n : Z) :
  not_negative x = true -> int_of_float x = Returns n ->
  exists v, float_to_Q x = Some v /\
            (inject_Z n <= v)%Q /\ (v < inject_Z n + 1)%Q.
Proof.
  destruct x as [s|s| |s m e]; simpl; intros H E; try discriminate.
  - injection E as <-. exists 0%Q. split; [reflexivity|].
    split; [apply Qle_refl | reflexivity].
  - apply negb_true_iff in H. subst s. injection E as <-.
    eexists. split; [reflexivity|].
    destruct e as [|p|p]; simpl cond_Zopp.
    + rewrite Z.shiftl_0_r. split; [apply Qle_refl|].
      rewrite <- (Qplus_0_r (inject_Z (Z.pos m))) at 1.
      apply Qplus_lt_r. reflexivity.
    + rewrite Z.shiftl_mul_pow2 by lia. split; [apply Qle_refl|].
      rewrite <- (Qplus_0_r (inject_Z _)) at 1.
      apply Qplus_lt_r. reflexivity.
    + change (Z.shiftl (Z.pos m) (Z.neg p))
        with (Z.shiftr (Z.pos m) (Z.pos p)).
      rewrite Z.shiftr_div_pow2 by lia.
      assert (2 ^ Z.pos p = Z.pos (2 ^ p)) as Hpow.
      { now rewrite Pos2Z.inj_pow. }
      rewrite Hpow.
      pose proof (Z.mul_div_le (Z.pos m) (Z.pos (2 ^ p)) ltac:(lia)).
      pose proof (Z.mul_succ_div_gt (Z.pos m) (Z.pos (2 ^ p)) ltac:(lia)).
      unfold Qle, Qlt, Qplus, inject_Z. simpl Qnum. simpl Qden.
      split; lia.
Qed.

End FloatFacts.

(** ** The normalizer *)

Module PhoneSpec.
Import Py Re Utils Spec PyFacts ReFacts.

Lemma sub_empty_NonDigit (s : pystr) : sub_empty NonDigit s = digits_of s.
Proof.
  unfold sub_empty, digits_of. apply filter_ext. intros c. simpl.
  apply negb_involutive.
Qed.

Lemma digits_of_all_decimal (s : pystr) : all_decimal (digits_of s) = true.
Proof.
  unfold all_decimal, digits_of. apply forallb_forall. intros c H.
  now apply filter_In in H.
Qed.

Lemma digits_of_nil (s : pystr) :
  digits_of s = [] <-> (forall c, In c s -> is_decimal c = false).
Proof.
  unfold digits_of. split.
  - intros H c Hc. destruct (is_decimal c) eqn:E; [|reflexivity].
    assert (In c (filter is_decimal s)) as Hin by now apply filter_In.
    rewrite H in Hin. contradiction.
  - intros H. induction s as [|c s IH]; [reflexivity|].
    simpl. rewrite (H c (or_introl eq_refl)).
    apply IH. intros x Hx. apply H. now right.
Qed.

(** [parse_phone] on the digits of its input. *)
Lemma parse_phone_digits (s : pystr) :
  parse_phone s =
  let d := digits_of s in
  if rule_380 d then u8 "+" ++ d
  else if rule_80 d then u8 "+3" ++ d
  else if rule_0 d then u8 "+38" ++ d
  else if is_empty d then [] else u8 "+380" ++ last_n 9 d.
Proof.
  unfold parse_phone. rewrite sub_empty_NonDigit.
  destruct s as [|c s]; reflexivity.
Qed.

Lemma all_decimal_skipn (n : nat) (d : pystr) :
  all_decimal d = true -> all_decimal (skipn n d) = true.
Proof.
  unfold all_decimal. intros H. apply forallb_forall. intros c Hc.
  rewrite forallb_forall in H. apply H.
  rewrite <- (firstn_skipn n d). apply in_or_app. now right.
Qed.

Lemma all_decimal_last_n (n : nat) (d : pystr) :
  all_decimal d = true -> all_decimal (last_n n d) = true.
Proof. apply all_decimal_skipn. Qed.

Lemma length_last_n (n : nat) (d : pystr) :
  List.length (last_n n d) = Nat.min n (List.length d).
Proof. unfold last_n. rewrite length_skipn. lia. Qed.

Lemma all_decimal_app (a b : pystr) :
  all_decimal (a ++ b) = all_decimal a && all_decimal b.
Proof. apply forallb_app. Qed.

(** The shape of every result: empty, or [+] and digits. *)
Lemma parse_phone_shape (s : pystr) :
  (parse_phone s = [] /\ digits_of s = []) \/
  (exists ds, parse_phone s = 43%N :: ds /\ ds <> [] /\
              all_decimal ds = true /\ digits_of s <> []).
Proof.
  rewrite parse_phone_digits. cbv zeta.
  pose proof (digits_of_all_decimal s) as Hd.
  assert (forall (pre : string) c d, all_decimal (c :: d) = true ->
            all_decimal (u8 pre) = true ->
            exists ds, u8 "+" ++ u8 pre ++ c :: d = 43%N :: ds /\ ds <> [] /\
                       all_decimal ds = true /\ c :: d <> []) as Hshape.
  { intros pre c d Hcd Hpre. exists (u8 pre ++ c :: d).
    repeat split.
    - destruct (u8 pre); discriminate.
    - rewrite all_decimal_app, Hpre, Hcd. reflexivity.
    - discriminate. }
  destruct (rule_380 (digits_of s)) eqn:R1;
    [|destruct (rule_80 (digits_of s)) eqn:R2;
      [|destruct (rule_0 (digits_of s)) eqn:R3]].
  - right. apply andb_true_iff in R1. destruct R1 as [R1 _].
    destruct (digits_of s) as [|c d]; [discriminate|].
    exact (Hshape EmptyString c d Hd eq_refl).
  - right. apply andb_true_iff in R2. destruct R2 as [R2 _].
    destruct (digits_of s) as [|c d]; [discriminate|].
    exact (Hshape "3"%string c d Hd eq_refl).
  - right. apply andb_true_iff in R3. destruct R3 as [R3 _].
    destruct (digits_of s) as [|c d]; [discriminate|].
    exact (Hshape "38"%string c d Hd eq_refl).
  - destruct (digits_of s) as [|c d] eqn:E; [now left|].
    right. exists (u8 "380" ++ last_n 9 (c :: d)).
    repeat split; try discriminate.
    rewrite all_decimal_app. apply andb_true_iff. split; [reflexivity|].
    now apply all_decimal_skipn.
Qed.

(** A prefix rule leaves eight digits after [+380]. *)
Lemma rule_not_canonical (d p q : pystr) :
  startswith d q = true ->
  List.length d = (11 - List.length p)%nat ->
  (List.length p <= 3)%nat ->
  p ++ q = u8 "380" ->
  canonical_phone (u8 "+" ++ p ++ d) = false.
Proof.
  intros Hq Hlen Hp Hpq.
  rewrite (startswith_app d q Hq).
  rewrite (app_assoc p q), Hpq.
  change (u8 "+" ++ u8 "380" ++ skipn (List.length q) d)
    with (43 :: 51 :: 56 :: 48 :: skipn (List.length q) d)%N.
  cbn [canonical_phone]. rewrite length_skipn.
  assert (List.length p + List.length q = 3)%nat as Hsum.
  { rewrite <- length_app, Hpq. reflexivity. }
  replace (List.length d - List.length q)%nat with 8%nat by lia.
  reflexivity.
Qed.

(** The results of the canonical shape. *)
Lemma parse_phone_canonical_iff (s : pystr) :
  canonical_phone (parse_phone s) = true <->
  (9 <= List.length (digits_of s))%nat /\
  rule_380 (digits_of s) = false /\ rule_80 (digits_of s) = false /\
  rule_0 (digits_of s) = false.
Proof.
  rewrite parse_phone_digits. cbv zeta.
  destruct (rule_380 (digits_of s)) eqn:R1.
  { split; [|intros [_ [H _]]; discriminate].
    intros H. exfalso. unfold rule_380 in R1.
    apply andb_true_iff in R1. destruct R1 as [Hq Hlen].
    apply Nat.eqb_eq in Hlen.
    change (u8 "+" ++ digits_of s)
      with (u8 "+" ++ [] ++ digits_of s) in H.
    rewrite (rule_not_canonical (digits_of s) [] (u8 "380") Hq Hlen) in H;
      [discriminate | simpl; lia | reflexivity]. }
  destruct (rule_80 (digits_of s)) eqn:R2.
  { split; [|intros [_ [_ [H _]]]; discriminate].
    intros H. exfalso. unfold rule_80 in R2.
    apply andb_true_iff in R2. destruct R2 as [Hq Hlen].
    apply Nat.eqb_eq in Hlen.
    change (u8 "+3" ++ digits_of s)
      with (u8 "+" ++ u8 "3" ++ digits_of s) in H.
    rewrite (rule_not_canonical (digits_of s) (u8 "3") (u8 "80") Hq Hlen)
      in H; [discriminate | simpl; lia | reflexivity]. }
  destruct (rule_0 (digits_of s)) eqn:R3.
  { split; [|intros [_ [_ [_ H]]]; discriminate].
    intros H. exfalso. unfold rule_0 in R3.
    apply andb_true_iff in R3. destruct R3 as [Hq Hlen].
    apply Nat.eqb_eq in Hlen.
    change (u8 "+38" ++ digits_of s)
      with (u8 "+" ++ u8 "38" ++ digits_of s) in H.
    rewrite (rule_not_canonical (digits_of s) (u8 "38") (u8 "0") Hq Hlen)
      in H; [discriminate | simpl; lia | reflexivity]. }
  pose proof (digits_of_all_decimal s) as Hall.
  destruct (digits_of s) as [|c d] eqn:E.
  { simpl. split; [discriminate | intros [H _]; simpl in H; lia]. }
  cbn [is_empty].
  change (u8 "+380" ++ last_n 9 (c :: d))
    with (43 :: 51 :: 56 :: 48 :: last_n 9 (c :: d))%N.
  cbn [canonical_phone].
  rewrite length_last_n, (all_decimal_last_n _ _ Hall), andb_true_r.
  rewrite Nat.eqb_eq. split; [intros H | intros [H _]]; [split; auto|]; lia.
Qed.

(** C10. [parse_phone] returns the empty string exactly when its input has
    no digit character; for an input with a digit the result is not empty
    and begins with [+]. *)
Theorem parse_phone_empty_iff_no_digit (s : pystr) :
  (parse_phone s = [] <-> (forall c, In c s -> is_decimal c = false)) /\
  ((exists c, In c s /\ is_decimal c = true) ->
   exists t, parse_phone s = 43%N :: t).
Proof.
  rewrite <- digits_of_nil.
  destruct (parse_phone_shape s) as [[Hp Hd] | [ds [Hp [_ [_ Hd]]]]].
  - split; [now split|].
    intros [c [Hin Hc]]. exfalso.
    rewrite digits_of_nil in Hd. rewrite (Hd c Hin) in Hc. discriminate.
  - split.
    + split; intros H; [rewrite Hp in H; discriminate | contradiction].
    + intros _. now exists ds.
Qed.

Lemma parse_phone_empty_iff_no_digit_witness :
  exists t, parse_phone (u8 "(099) 123-45-67") = 43%N :: t.
Proof.
  apply (proj2 (parse_phone_empty_iff_no_digit (u8 "(099) 123-45-67"))).
  exists 48%N. split; [right; left; reflexivity | reflexivity].
Defined.

(** C4 (as amended). [parse_phone] is total and follows the digit-count and
    prefix rules exactly; its result is the empty string or [+] and digits;
    it has the canonical shape ([+380] and nine digits) whenever the input
    has at least nine digits and none of the three prefix rules applies. *)
Theorem parse_phone_rules (s : pystr) :
  let d := digits_of s in
  (rule_380 d = true -> parse_phone s = u8 "+" ++ d) /\
  (rule_80 d = true -> parse_phone s = u8 "+3" ++ d) /\
  (rule_0 d = true -> parse_phone s = u8 "+38" ++ d) /\
  (rule_380 d = false -> rule_80 d = false -> rule_0 d = false ->
   d <> [] -> parse_phone s = u8 "+380" ++ last_n 9 d) /\
  (d = [] -> parse_phone s = []) /\
  (parse_phone s = [] \/
   exists ds, parse_phone s = 43%N :: ds /\ ds <> [] /\
              all_decimal ds = true) /\
  ((9 <= List.length d)%nat ->
   rule_380 d = false -> rule_80 d = false -> rule_0 d = false ->
   canonical_phone (parse_phone s) = true).
Proof.
  cbv zeta.
  assert (rule_380 (digits_of s) = true ->
          rule_80 (digits_of s) = false /\ rule_0 (digits_of s) = false)
    as X1.
  { unfold rule_380, rule_80, rule_0. intros H.
    apply andb_true_iff in H. destruct H as [_ H].
    apply Nat.eqb_eq in H. rewrite H. simpl. now rewrite !andb_false_r. }
  assert (rule_80 (digits_of s) = true ->
          rule_380 (digits_of s) = false /\ rule_0 (digits_of s) = false)
    as X2.
  { unfold rule_380, rule_80, rule_0. intros H.
    apply andb_true_iff in H. destruct H as [_ H].
    apply Nat.eqb_eq in H. rewrite H. simpl. now rewrite !andb_false_r. }
  assert (rule_0 (digits_of s) = true ->
          rule_380 (digits_of s) = false /\ rule_80 (digits_of s) = false)
    as X3.
  { unfold rule_380, rule_80, rule_0. intros H.
    apply andb_true_iff in H. destruct H as [_ H].
    apply Nat.eqb_eq in H. rewrite H. simpl. now rewrite !andb_false_r. }
  repeat match goal with |- _ /\ _ => split end.
  - intros H. rewrite parse_phone_digits. cbv zeta. now rewrite H.
  - intros H. destruct (X2 H) as [H1 _].
    rewrite parse_phone_digits. cbv zeta. now rewrite H1, H.
  - intros H. destruct (X3 H) as [H1 H2].
    rewrite parse_phone_digits. cbv zeta. now rewrite H1, H2, H.
  - intros H1 H2 H3 Hd. rewrite parse_phone_digits. cbv zeta.
    rewrite H1, H2, H3. destruct (digits_of s); [congruence | reflexivity].
  - intros Hd. rewrite parse_phone_digits. cbv zeta. now rewrite Hd.
  - destruct (parse_phone_shape s) as [[Hp _] | [ds [Hp [Hne [Hds _]]]]];
      [now left | right; now exists ds].
  - intros H9 R1 R2 R3.
    apply parse_phone_canonical_iff. now repeat split.
Qed.

Lemma parse_phone_rules_witness :
  parse_phone (u8 "380 12 345 678") = u8 "+38012345678" /\
  parse_phone (u8 "80 12 345 678") = u8 "+38012345678" /\
  parse_phone (u8 "0 12 345 678") = u8 "+38012345678" /\
  parse_phone (u8 "(099) 123-45-67") = u8 "+380991234567" /\
  parse_phone (u8 "n/a") = [] /\
  canonical_phone (parse_phone (u8 "(099) 123-45-67")) = true.
Proof.
  refine (conj _ (conj _ (conj _ (conj _ (conj _ _))))).
  - apply (proj1 (parse_phone_rules (u8 "380 12 345 678"))). reflexivity.
  - apply (proj1 (proj2 (parse_phone_rules (u8 "80 12 345 678")))).
    reflexivity.
  - apply (proj1 (proj2 (proj2 (parse_phone_rules (u8 "0 12 345 678"))))).
    reflexivity.
  - apply (proj1 (proj2 (proj2 (proj2
             (parse_phone_rules (u8 "(099) 123-45-67")))))).
    + reflexivity.
    + reflexivity.
    + reflexivity.
    + discriminate.
  - apply (proj1 (proj2 (proj2 (proj2 (proj2
             (parse_phone_rules (u8 "n/a"))))))). reflexivity.
  - apply (proj2 (proj2 (proj2 (proj2 (proj2 (proj2
             (parse_phone_rules (u8 "(099) 123-45-67")))))))).
    + simpl. lia.
    + reflexivity.
    + reflexivity.
    + reflexivity.
Defined.

(** C4 (as stated) fails: a text with five digits gives [+380] and five
    digits, and an input that a prefix rule accepts gives [+380] and eight
    digits; neither is empty or of the canonical shape. *)
Lemma parse_phone_not_canonical :
  parse_phone (u8 "12345") = u8 "+38012345" /\
  parse_phone (u8 "12345") <> [] /\
  canonical_phone (parse_phone (u8 "12345")) = false /\
  parse_phone (u8 "38012345678") = u8 "+38012345678" /\
  canonical_phone (parse_phone (u8 "38012345678")) = false.
Proof.
  repeat split; try reflexivity. discriminate.
Qed.

End PhoneSpec.

Module PriceSpec.
Import Py Re Utils Spec PyFacts ReFacts FloatFacts.

Lemma match_at_price_nil : match_at price_re [] = None.
Proof. reflexivity. Qed.

Lemma match_at_price_other (c : char) (s : pystr) :
  is_decimal c = false -> match_at price_re (c :: s) = None.
Proof. intros H. unfold match_at, price_re. simpl. now rewrite H. Qed.

Lemma match_at_price_run (x : char) (w post : pystr) :
  is_decimal x = true -> all_decimal w = true ->
  not_decimal_next post = true ->
  match_at price_re (x :: w ++ post) = Some [(1%nat, x :: w)].
Proof.
  intros Hx Hw Hpost. unfold match_at, price_re.
  cbn [run in_class]. rewrite Hx.
  apply greedy_longest; [exact Hw | exact Hpost |].
  cbv beta. do 3 f_equal. exact (consumed_app (x :: w) post).
Qed.

Lemma search_skip_no_decimal (pre t : pystr) :
  no_decimal pre = true ->
  t <> [] ->
  search price_re (pre ++ t) = search price_re t.
Proof.
  intros Hpre Ht. induction pre as [|c pre IH]; [reflexivity|].
  simpl in Hpre. apply andb_true_iff in Hpre. destruct Hpre as [Hc Hpre].
  apply negb_true_iff in Hc.
  change ((c :: pre) ++ t) with (c :: (pre ++ t)).
  cbn [search]. rewrite (match_at_price_other _ _ Hc). now apply IH.
Qed.

Lemma search_price_no_decimal (s : pystr) :
  no_decimal s = true -> search price_re s = None.
Proof.
  induction s as [|c s IH]; intros H; [reflexivity|].
  simpl in H. apply andb_true_iff in H. destruct H as [Hc Hs].
  apply negb_true_iff in Hc.
  cbn [search]. rewrite (match_at_price_other _ _ Hc). now apply IH.
Qed.

(** [re.search(r"(\d+)", s)] captures the first numeric run of [s]. *)
Lemma search_price_first_run (s pre ds post : pystr) :
  first_run s pre ds post -> search price_re s = Some [(1%nat, ds)].
Proof.
  intros [-> [Hpre [Hne [Hds Hpost]]]].
  destruct ds as [|x w]; [congruence|].
  simpl in Hds. apply andb_true_iff in Hds. destruct Hds as [Hx Hw].
  rewrite search_skip_no_decimal by (exact Hpre || discriminate).
  change ((x :: w) ++ post) with (x :: w ++ post).
  cbn [search]. now rewrite match_at_price_run.
Qed.

Lemma decimal_span (s : pystr) :
  exists ds post, s = ds ++ post /\ all_decimal ds = true /\
                  not_decimal_next post = true.
Proof.
  induction s as [|c s [ds [post [-> [Hds Hpost]]]]].
  - now exists [], [].
  - destruct (is_decimal c) eqn:Hc.
    + exists (c :: ds), post. simpl. now rewrite Hc.
    + exists [], (c :: ds ++ post). simpl. now rewrite Hc.
Qed.

(** Every text has a first numeric run, or no decimal digit at all. *)
Lemma first_run_exists (s : pystr) :
  no_decimal s = true \/ exists pre ds post, first_run s pre ds post.
Proof.
  induction s as [|c s IH]; [now left|].
  destruct (is_decimal c) eqn:Hc.
  - right. destruct (decimal_span s) as [ds [post [-> [Hds Hpost]]]].
    exists [], (c :: ds), post. unfold first_run. simpl. rewrite Hc.
    repeat split; auto. discriminate.
  - destruct IH as [IH | [pre [ds [post [-> [Hpre H]]]]]].
    + left. simpl. now rewrite Hc.
    + right. exists (c :: pre), ds, post. unfold first_run. simpl.
      rewrite Hc. now split.
Qed.

(** [parse_price] on a text whose cleaned form has the first numeric run
    [ds]. *)
Lemma parse_price_first_run (s pre ds post : pystr) :
  first_run (remove_spaces (strip s)) pre ds post ->
  parse_price s =
  if (max_str_digits <? List.length ds)%nat then Returns 0
  else
    try_except
      (if contains (remove_spaces (strip s)) (u8 "€") then
         bind (int_mul_float (decimal_number ds) float_1_1) int_of_float
       else if contains (remove_spaces (strip s)) (u8 "грн") then
         bind (int_div_float (decimal_number ds) float_41_22) int_of_float
       else Returns (decimal_number ds))
      caught (Returns 0).
Proof.
  intros H. pose proof (search_price_first_run _ _ _ _ H) as Hs.
  destruct H as [Hclean [_ [Hne [Hds _]]]].
  unfold parse_price.
  destruct (is_empty s || str_eqb s (u8 "0")) eqn:E.
  - apply orb_true_iff in E. destruct E as [E | E].
    + destruct s; [|discriminate]. clear E.
      exfalso. change (remove_spaces (strip [])) with (@nil char) in Hclean.
      symmetry in Hclean. apply app_eq_nil in Hclean.
      destruct Hclean as [_ Hclean]. apply app_eq_nil in Hclean.
      now destruct Hclean.
    + apply str_eqb_eq in E. subst s.
      vm_compute in Hs. injection Hs as <-. reflexivity.
  - cbv zeta. rewrite Hs. unfold int_group. cbn [group Nat.eqb].
    rewrite (py_int_decimal ds Hne Hds).
    destruct (max_str_digits <? List.length ds)%nat; reflexivity.
Qed.

(** A run within the limit of [int]. *)
Lemma within_max_str_digits (ds : pystr) :
  (List.length ds <= max_str_digits)%nat ->
  (max_str_digits <? List.length ds)%nat = false.
Proof. intros H. now apply Nat.ltb_ge. Qed.

(** A run beyond the limit of [int]: the [ValueError] is caught. *)
Lemma parse_price_long_run (s pre ds post : pystr) :
  first_run (remove_spaces (strip s)) pre ds post ->
  (max_str_digits < List.length ds)%nat ->
  parse_price s = Returns 0.
Proof.
  intros Hrun Hlen. rewrite (parse_price_first_run _ _ _ _ Hrun).
  apply Nat.ltb_lt in Hlen. now rewrite Hlen.
Qed.

Lemma parse_price_no_decimal (s : pystr) :
  no_decimal (remove_spaces (strip s)) = true -> parse_price s = Returns 0.
Proof.
  intros H. unfold parse_price.
  destruct (is_empty s || str_eqb s (u8 "0")); [reflexivity|].
  cbv zeta. now rewrite (search_price_no_decimal _ H).
Qed.

Lemma try_except_not_negative (x : float) :
  not_negative x = true ->
  try_except (int_of_float x) caught (Returns 0) = int_of_float x.
Proof.
  intros H. destruct (int_of_float_not_negative x H) as [[n [-> _]] | ->];
    reflexivity.
Qed.

(** C1 (as amended). For every price text whose cleaned form carries the
    Hryvnia token and no Euro sign, and whose amount (the first numeric run)
    has no more digits than [int] accepts and converts to a [float],
    [parse_price] returns [int(amount / 41.22)]: the largest integer not
    above the binary64 quotient of the amount by the [float] nearest to
    41.22 (truncation, never rounding up).  For a first numeric run with
    more digits than [int] accepts, [parse_price] returns 0, whatever the
    currency.  The text ["300 000 грн"] gives 7278. *)
Theorem parse_price_hryvnia :
  (forall (s pre ds post : pystr) (x : float),
     first_run (remove_spaces (strip s)) pre ds post ->
     contains (remove_spaces (strip s)) (u8 "€") = false ->
     contains (remove_spaces (strip s)) (u8 "грн") = true ->
     (List.length ds <= max_str_digits)%nat ->
     float_of_int (decimal_number ds) = Returns x ->
     exists (n : Z) (v : Q),
       parse_price s = Returns n /\
       float_to_Q (SFdiv prec emax x float_41_22) = Some v /\
       (inject_Z n <= v)%Q /\ (v < inject_Z n + 1)%Q) /\
  (forall (s pre ds post : pystr),
     first_run (remove_spaces (strip s)) pre ds post ->
     (max_str_digits < List.length ds)%nat ->
     parse_price s = Returns 0) /\
  parse_price (u8 "300 000 грн") = Returns 7278.
Proof.
  split; [|split; [exact parse_price_long_run | vm_compute; reflexivity]].
  intros s pre ds post x Hrun Heur Huah Hlen Hx.
  pose proof (float_of_int_not_negative _ x (decimal_number_nonneg ds) Hx)
    as [Hnn Hfin].
  assert (not_negative (SFdiv prec emax x float_41_22) = true) as Hq.
  { apply SFdiv_not_negative; [exact Hnn | exact Hfin | exact I]. }
  assert (parse_price s = int_of_float (SFdiv prec emax x float_41_22)) as E.
  { rewrite (parse_price_first_run _ _ _ _ Hrun),
            (within_max_str_digits ds Hlen), Heur, Huah.
    unfold int_div_float. rewrite Hx. cbn [bind].
    now apply try_except_not_negative. }
  assert (exists n, int_of_float (SFdiv prec emax x float_41_22) = Returns n)
    as [n Hn].
  { destruct x as [sx|sx| |sx mx ex]; try contradiction; try discriminate.
    - now exists 0.
    - simpl in Hnn. apply negb_true_iff in Hnn. subst sx.
      destruct (float_of_int_canonical _ _ _ _ Hx) as [Hd He].
      pose proof (SFdiv_41_22_finite mx ex Hd He) as Hf.
      destruct (SFdiv prec emax (S754_finite false mx ex) float_41_22)
        as [s0|s0| |s0 m0 e0]; try contradiction; eexists; reflexivity. }
  destruct (int_of_float_truncates _ n Hq Hn) as [v [Hv [Hle Hlt]]].
  exists n, v. rewrite E. now repeat split.
Qed.

Lemma parse_price_hryvnia_witness :
  exists (n : Z) (v : Q),
    parse_price (u8 "300 000 грн") = Returns n /\
    float_to_Q (SFdiv prec emax (binary_normalize prec emax 300000 0 false)
                      float_41_22) = Some v /\
    (inject_Z n <= v)%Q /\ (v < inject_Z n + 1)%Q.
Proof.
  apply (proj1 parse_price_hryvnia
           (u8 "300 000 грн") [] (u8 "300000") (u8 "грн")
           (binary_normalize prec emax 300000 0 false)).
  - unfold first_run.
    refine (conj eq_refl (conj eq_refl (conj _ (conj eq_refl eq_refl)))).
    discriminate.
  - reflexivity.
  - reflexivity.
  - vm_compute. lia.
  - reflexivity.
Defined.

(** C1 (as stated) fails: the text carrying 300000 and the Hryvnia token
    gives 7278, since 300000 / 41.22 = 7278.02..., not 7277; and an amount
    beyond the range of [float] raises [OverflowError]. *)
Lemma parse_price_hryvnia_300000 :
  parse_price (u8 "300 000 грн") = Returns 7278 /\
  parse_price (u8 "300 000 грн") <> Returns 7277 /\
  parse_price (repeat 57%N 309 ++ u8 "грн") = Raises OverflowError.
Proof.
  split; [vm_compute; reflexivity|].
  split; [vm_compute; discriminate|].
  vm_compute; reflexivity.
Qed.

(** C7 (as amended). [parse_price("6 999 $")] is 6999 and
    [parse_price("24 200 €")] is 26620; an amount with no recognised
    currency symbol is returned unchanged when it has no more digits than
    [int] accepts, and gives 0 when it has more. *)
Theorem parse_price_usd :
  parse_price (u8 "6 999 $") = Returns 6999 /\
  parse_price (u8 "24 200 €") = Returns 26620 /\
  (forall s pre ds post : pystr,
     first_run (remove_spaces (strip s)) pre ds post ->
     contains (remove_spaces (strip s)) (u8 "€") = false ->
     contains (remove_spaces (strip s)) (u8 "грн") = false ->
     (List.length ds <= max_str_digits)%nat ->
     parse_price s = Returns (decimal_number ds)) /\
  (forall s pre ds post : pystr,
     first_run (remove_spaces (strip s)) pre ds post ->
     contains (remove_spaces (strip s)) (u8 "€") = false ->
     contains (remove_spaces (strip s)) (u8 "грн") = false ->
     (max_str_digits < List.length ds)%nat ->
     parse_price s = Returns 0).
Proof.
  split; [vm_compute; reflexivity|].
  split; [vm_compute; reflexivity|].
  split.
  - intros s pre ds post Hrun Heur Huah Hlen.
    now rewrite (parse_price_first_run _ _ _ _ Hrun),
                (within_max_str_digits ds Hlen), Heur, Huah.
  - intros s pre ds post Hrun _ _ Hlen.
    exact (parse_price_long_run s pre ds post Hrun Hlen).
Qed.

Lemma parse_price_usd_witness :
  parse_price (u8 "1 250 usd") = Returns (decimal_number (u8 "1250")).
Proof.
  apply (proj1 (proj2 (proj2 parse_price_usd))
           (u8 "1 250 usd") [] (u8 "1250") (u8 "usd")).
  - unfold first_run. repeat split; try reflexivity. discriminate.
  - reflexivity.
  - reflexivity.
  - vm_compute. lia.
Defined.

(** C7 (as stated) fails: an amount of 4301 digits with the dollar sign,
    4300 zeros and a 5, is the number 5, and [parse_price] returns 0:
    [int] refuses the digits and the [ValueError] is caught. *)
Lemma parse_price_usd_long_run :
  contains (remove_spaces (strip (repeat 48%N 4300 ++ u8 "5 $"))) (u8 "€")
  = false /\
  contains (remove_spaces (strip (repeat 48%N 4300 ++ u8 "5 $"))) (u8 "грн")
  = false /\
  decimal_number (repeat 48%N 4300 ++ u8 "5") = 5 /\
  parse_price (repeat 48%N 4300 ++ u8 "5 $") = Returns 0 /\
  parse_price (repeat 48%N 4300 ++ u8 "5 $")
  <> Returns (decimal_number (repeat 48%N 4300 ++ u8 "5")).
Proof.
  split; [vm_compute; reflexivity|].
  split; [vm_compute; reflexivity|].
  split; [vm_compute; reflexivity|].
  split; [vm_compute; reflexivity|].
  vm_compute. discriminate.
Qed.

(** Every outcome of [parse_price]. *)
Lemma parse_price_outcomes (s : pystr) :
  (exists v, parse_price s = Returns v /\ 0 <= v) \/
  parse_price s = Raises OverflowError.
Proof.
  destruct (first_run_exists (remove_spaces (strip s)))
    as [Hno | [pre [ds [post Hrun]]]].
  - left. exists 0. split; [now apply parse_price_no_decimal | lia].
  - rewrite (parse_price_first_run _ _ _ _ Hrun).
    destruct (max_str_digits <? List.length ds)%nat;
      [left; exists 0; split; [reflexivity | lia]|].
    pose proof (decimal_number_nonneg ds) as Hamount.
    assert (forall op : float -> float,
              (forall f, not_negative f = true ->
                 match f with S754_infinity _ => False | _ => True end ->
                 not_negative (op f) = true) ->
              let r := try_except
                         (bind (bind (float_of_int (decimal_number ds))
                                     (fun f => Returns (op f)))
                               int_of_float) caught (Returns 0) in
              (exists v, r = Returns v /\ 0 <= v) \/
              r = Raises OverflowError) as Hconv.
    { intros op Hop. cbv zeta.
      destruct (float_of_int (decimal_number ds)) as [f|e] eqn:Hf.
      - destruct (float_of_int_not_negative _ f Hamount Hf) as [Hnn Hfin].
        cbn [bind]. rewrite try_except_not_negative by now apply Hop.
        apply int_of_float_not_negative. now apply Hop.
      - right. unfold float_of_int in Hf.
        destruct (binary_normalize prec emax (decimal_number ds) 0 false);
          try discriminate.
        injection Hf as <-. reflexivity. }
    destruct (contains _ (u8 "€")).
    + apply (Hconv (fun f => SFmul prec emax f float_1_1)).
      intros f Hnn Hfin. now apply SFmul_not_negative.
    + destruct (contains _ (u8 "грн")).
      * apply (Hconv (fun f => SFdiv prec emax f float_41_22)).
        intros f Hnn Hfin. now apply SFdiv_not_negative.
      * left. exists (decimal_number ds). now split.
Qed.

End PriceSpec.


Module OdometerSpec.
Import Py Re Utils Spec PyFacts ReFacts.

(** Group 1 of a match of the odometer pattern starts with a digit. *)
Lemma odometer_match_group1 (t : pystr) (m : groups) :
  match_at odometer_re t = Some m ->
  exists c w, group m 1 = Some (c :: w) /\ is_decimal c = true.
Proof.
  intros H. apply match_at_sound in H. destruct H as [s' H].
  unfold odometer_re, number_re, marker_re in H.
  apply matches_cat_inv in H. destruct H as [s1 [g1 [H1 H2]]].
  apply matches_grp_inv in H1. destruct H1 as [g0 [-> H1]].
  apply matches_cat_inv in H1. destruct H1 as [sa [ga [Hd Ho]]].
  apply matches_plus_inv in Hd. destruct Hd as [x [w [-> [Hx [Hw ->]]]]].
  apply matches_prefix in Ho. destruct Ho as [w2 ->].
  assert (consumed (x :: w ++ w2 ++ s1) s1 = x :: w ++ w2) as Hc.
  { rewrite app_assoc. exact (consumed_app (x :: w ++ w2) s1). }
  rewrite Hc in H2. exists x, (w ++ w2). split; [|exact Hx].
  apply matches_cat_inv in H2. destruct H2 as [sb [gb [Hs Hm]]].
  apply matches_star_inv in Hs. destruct Hs as [ws [-> [_ ->]]].
  apply matches_opt_inv in Hm. destruct Hm as [Hm | [_ ->]].
  - apply matches_grp_inv in Hm. destruct Hm as [g2 [-> Hm]].
    assert (g2 = (1%nat, x :: w ++ w2) :: g0) as ->; [|reflexivity].
    assert (forall (a : pystr) u v h h',
              matches (Cat (Lit a) (Opt (Lit (u8 ".")))) u h v h' ->
              h' = h) as Hdot.
    { intros a u v h h' M.
      apply matches_cat_inv in M. destruct M as [u1 [h1 [Ma Mb]]].
      apply matches_lit_inv in Ma. destruct Ma as [_ ->].
      apply matches_opt_inv in Mb. destruct Mb as [Mb | [_ ->]].
      - apply matches_lit_inv in Mb. now destruct Mb.
      - reflexivity. }
    apply matches_alt_inv in Hm. destruct Hm as [Hm | Hm].
    + now apply Hdot in Hm.
    + apply matches_alt_inv in Hm. destruct Hm as [Hm | Hm].
      * now apply Hdot in Hm.
      * apply matches_lit_inv in Hm. now destruct Hm.
  - reflexivity.
Qed.

Lemma consumed_lit (w r : pystr) :
  startswith r w = true -> consumed r (skipn (List.length w) r) = w.
Proof.
  intros H. rewrite (startswith_app r w H) at 1. apply consumed_app.
Qed.

Lemma consumed_lit_lit (w1 w2 r : pystr) :
  startswith r w1 = true ->
  startswith (skipn (List.length w1) r) w2 = true ->
  consumed r (skipn (List.length w2) (skipn (List.length w1) r)) = w1 ++ w2.
Proof.
  intros H1 H2. rewrite (startswith_app r w1 H1) at 1.
  rewrite (startswith_app _ w2 H2) at 1.
  rewrite app_assoc. apply consumed_app.
Qed.

(** The optional marker group reads the marker at the head of the text. *)
Lemma run_marker (r : pystr) (g : groups) :
  run (Opt (Grp 2 marker_re)) r g (fun _ g' => Some g') =
  Some (add_marker r g).
Proof.
  unfold marker_re, add_marker, marker_at, with_dot.
  cbn [run].
  destruct (startswith r (u8 "тис")) eqn:H1.
  { destruct (startswith (skipn _ r) (u8 ".")) eqn:D.
    - now rewrite (consumed_lit_lit _ _ r H1 D).
    - now rewrite (consumed_lit _ r H1). }
  destruct (startswith r (u8 "тыс")) eqn:H2.
  { destruct (startswith (skipn _ r) (u8 ".")) eqn:D.
    - now rewrite (consumed_lit_lit _ _ r H2 D).
    - now rewrite (consumed_lit _ r H2). }
  destruct (startswith r (u8 "км")) eqn:H3.
  { now rewrite (consumed_lit _ r H3). }
  reflexivity.
Qed.

(** [\s*(тис\.?|тыс\.?|км)?] skips the white space and reads the marker. *)
Lemma run_tail (ws r : pystr) (g : groups) :
  all_space ws = true -> not_space_next r = true ->
  run (Cat (StarC Space) (Opt (Grp 2 marker_re))) (ws ++ r) g
      (fun _ g' => Some g') = Some (add_marker r g).
Proof.
  intros Hws Hr. cbn [run].
  apply greedy_longest; [exact Hws | exact Hr |].
  apply run_marker.
Qed.

(** A repetition fails when the rest of the pattern fails wherever the
    repetition may stop. *)
Lemma greedy_none {A} (p : char -> bool) (s : pystr)
      (k : pystr -> option A) :
  (forall w s', s = w ++ s' -> forallb p w = true -> k s' = None) ->
  greedy p s k = None.
Proof.
  induction s as [|c s IH]; intros H; simpl.
  - now apply (H [] []).
  - destruct (p c) eqn:Hc.
    + rewrite IH.
      * now apply (H [] (c :: s)).
      * intros w s' -> Hw. apply (H (c :: w) s'); [reflexivity|].
        simpl. now rewrite Hc.
    + now apply (H [] (c :: s)).
Qed.

(** White space split at its end. *)
Lemma space_span (s : pystr) :
  exists ws r, s = ws ++ r /\ all_space ws = true /\
               not_space_next r = true.
Proof.
  induction s as [|c s [ws [r [-> [Hws Hr]]]]].
  - now exists [], [].
  - destruct (is_space c) eqn:Hc.
    + exists (c :: ws), r. simpl. now rewrite Hc.
    + exists [], (c :: ws ++ r). simpl. now rewrite Hc.
Qed.

(** The second run of digits needs a digit after the white space. *)
Lemma second_run_fails {A} (ws r : pystr) (g : groups)
      (k : pystr -> groups -> option A) :
  all_space ws = true -> not_space_next r = true ->
  not_decimal_next r = true ->
  run (Cat (StarC Space) (PlusC Digit)) (ws ++ r) g k = None.
Proof.
  intros Hws Hsp Hr. cbn [run]. apply greedy_none.
  intros w s' E Hw.
  destruct s' as [|c s'']; [reflexivity|].
  assert (is_decimal c = false) as Hc.
  { clear k. revert w E Hw. induction ws as [|x ws IH]; intros w E Hw.
    - simpl in E. subst r.
      destruct w as [|y w].
      + simpl in Hr. now apply negb_true_iff in Hr.
      + simpl in Hsp, Hw. apply andb_true_iff in Hw. destruct Hw as [Hy _].
        simpl in Hy. rewrite Hy in Hsp. discriminate.
    - simpl in Hws. apply andb_true_iff in Hws. destruct Hws as [Hx Hws].
      destruct w as [|y w].
      + simpl in E. injection E as <- _. now apply space_not_decimal.
      + simpl in E. injection E as _ E. simpl in Hw.
        apply andb_true_iff in Hw. destruct Hw as [_ Hw].
        now apply (IH Hws w). }
  cbn [in_class]. now rewrite Hc.
Qed.

Lemma not_decimal_next_space (ws r : pystr) :
  all_space ws = true -> not_decimal_next r = true ->
  not_decimal_next (ws ++ r) = true.
Proof.
  intros Hws Hr. destruct ws as [|c ws]; [exact Hr|].
  simpl in *. apply andb_true_iff in Hws. destruct Hws as [Hc _].
  now rewrite (space_not_decimal _ Hc).
Qed.

(** The match at a run of digits that no second run follows. *)
Lemma match_at_odometer_single (x : char) (w ws r : pystr) :
  is_decimal x = true -> all_decimal w = true ->
  all_space ws = true -> not_space_next r = true ->
  not_decimal_next r = true ->
  match_at odometer_re (x :: w ++ ws ++ r) =
  Some (add_marker r [(1%nat, x :: w)]).
Proof.
  intros Hx Hw Hws Hsp Hr.
  unfold match_at, odometer_re, number_re.
  rewrite run_cat, run_grp, run_cat, (run_plus Digit x _ _ _ Hx).
  apply greedy_longest;
    [exact Hw | now apply not_decimal_next_space |].
  cbv beta. rewrite run_opt, (second_run_fails ws r _ _ Hws Hsp Hr).
  cbv beta match.
  change (x :: w ++ ws ++ r) with ((x :: w) ++ ws ++ r).
  rewrite (consumed_app (x :: w) (ws ++ r)).
  now apply run_tail.
Qed.

(** The match at two runs of digits with white space between them. *)
Lemma match_at_odometer_spaced (x y : char) (w ws w2 r : pystr) :
  is_decimal x = true -> all_decimal w = true ->
  ws <> [] -> all_space ws = true ->
  is_decimal y = true -> all_decimal w2 = true ->
  not_decimal_next r = true ->
  exists m, match_at odometer_re (x :: w ++ ws ++ y :: w2 ++ r) = Some m /\
            group m 1 = Some (x :: w ++ ws ++ y :: w2).
Proof.
  intros Hx Hw Hne Hws Hy Hw2 Hr.
  destruct (space_span r) as [ws2 [r2 [-> [Hws2 Hr2]]]].
  exists (add_marker r2 [(1%nat, x :: w ++ ws ++ y :: w2)]).
  split.
  - unfold match_at, odometer_re, number_re.
    rewrite run_cat, run_grp, run_cat, (run_plus Digit x _ _ _ Hx).
    apply greedy_longest; [exact Hw | |].
    { destruct ws as [|c ws]; [congruence|].
      simpl in *. apply andb_true_iff in Hws. destruct Hws as [Hc _].
      now rewrite (space_not_decimal _ Hc). }
    cbv beta. rewrite run_opt, run_cat, run_star.
    assert (forall A (k : pystr -> option A) (m : A),
              k (y :: w2 ++ ws2 ++ r2) = Some m ->
              greedy (in_class Space) (ws ++ y :: w2 ++ ws2 ++ r2) k = Some m)
      as Hskip.
    { intros A k m Hk. apply greedy_longest; [exact Hws | | exact Hk].
      simpl. now rewrite (decimal_not_space _ Hy). }
    erewrite Hskip; [reflexivity|].
    rewrite (run_plus Digit y _ _ _ Hy).
    apply greedy_longest; [exact Hw2 | exact Hr |].
    cbv beta.
    replace (consumed (x :: w ++ ws ++ y :: w2 ++ ws2 ++ r2) (ws2 ++ r2))
      with (x :: w ++ ws ++ y :: w2).
    + now apply run_tail.
    + symmetry.
      replace (x :: w ++ ws ++ y :: w2 ++ ws2 ++ r2)
        with ((x :: w ++ ws ++ y :: w2) ++ ws2 ++ r2).
      * apply consumed_app.
      * simpl. now rewrite <- !app_assoc.
  - unfold add_marker. destruct (marker_at r2); reflexivity.
Qed.

Lemma match_at_odometer_nil : match_at odometer_re [] = None.
Proof. reflexivity. Qed.

Lemma match_at_odometer_other (c : char) (s : pystr) :
  is_decimal c = false -> match_at odometer_re (c :: s) = None.
Proof.
  intros H. unfold match_at, odometer_re, number_re.
  rewrite run_cat, run_grp, run_cat. simpl. now rewrite H.
Qed.

Lemma search_odometer_skip (pre t : pystr) :
  no_decimal pre = true -> t <> [] ->
  search odometer_re (pre ++ t) = search odometer_re t.
Proof.
  intros Hpre Ht. induction pre as [|c pre IH]; [reflexivity|].
  simpl in Hpre. apply andb_true_iff in Hpre. destruct Hpre as [Hc Hpre].
  apply negb_true_iff in Hc.
  change ((c :: pre) ++ t) with (c :: (pre ++ t)).
  cbn [search]. rewrite (match_at_odometer_other _ _ Hc). now apply IH.
Qed.

Lemma search_odometer_no_decimal (s : pystr) :
  no_decimal s = true -> search odometer_re s = None.
Proof.
  induction s as [|c s IH]; intros H; [reflexivity|].
  simpl in H. apply andb_true_iff in H. destruct H as [Hc Hs].
  apply negb_true_iff in Hc.
  cbn [search]. rewrite (match_at_odometer_other _ _ Hc). now apply IH.
Qed.

(** Only [тис] is a marker that the multiplier test accepts. *)
Lemma marker_multiplies (r : pystr) :
  match marker_at r with
  | Some w => negb (is_empty w) && contains w (u8 "тис")
  | None => false
  end = startswith r (u8 "тис").
Proof.
  unfold marker_at, with_dot.
  destruct (startswith r (u8 "тис")).
  { now destruct (startswith _ (u8 ".")). }
  destruct (startswith r (u8 "тыс")).
  { now destruct (startswith _ (u8 ".")). }
  now destruct (startswith r (u8 "км")).
Qed.

(** No number: 0. *)
Lemma parse_odometer_no_number (s : pystr) :
  no_decimal (lower s) = true -> parse_odometer s = Returns 0.
Proof.
  intros H. unfold parse_odometer.
  destruct (is_empty s); [reflexivity|].
  now rewrite (search_odometer_no_decimal _ H).
Qed.

(** One run of digits: the number, times 1000 when [тис] follows, unless
    the run has more digits than [int] accepts. *)
Lemma parse_odometer_single (s pre ds ws r : pystr) :
  first_run (lower s) pre ds (ws ++ r) ->
  all_space ws = true -> not_space_next r = true ->
  not_decimal_next r = true ->
  parse_odometer s =
  if (max_str_digits <? List.length ds)%nat then Raises ValueError
  else Returns (if startswith r (u8 "тис") then decimal_number ds * 1000
                else decimal_number ds).
Proof.
  intros [Hlow [Hpre [Hne [Hds _]]]] Hws Hsp Hr.
  unfold parse_odometer.
  destruct (is_empty s) eqn:Es.
  { destruct s; [|discriminate]. simpl in Hlow.
    symmetry in Hlow. apply app_eq_nil in Hlow.
    destruct Hlow as [_ Hlow]. apply app_eq_nil in Hlow.
    now destruct Hlow. }
  destruct ds as [|x w]; [congruence|].
  pose proof Hds as Hds'.
  simpl in Hds. apply andb_true_iff in Hds. destruct Hds as [Hx Hw].
  rewrite Hlow, search_odometer_skip by (exact Hpre || discriminate).
  change ((x :: w) ++ ws ++ r) with (x :: w ++ ws ++ r).
  cbn [search].
  rewrite (match_at_odometer_single x w ws r Hx Hw Hws Hsp Hr).
  pose proof (marker_multiplies r) as Hm.
  unfold add_marker, int_group.
  destruct (marker_at r) as [mk|]; cbn [group Nat.eqb];
    rewrite (py_int_decimal (x :: w) ltac:(discriminate) Hds');
    destruct (max_str_digits <? List.length (x :: w))%nat;
    cbn [bind group Nat.eqb]; try reflexivity; rewrite <- Hm;
    try destruct (negb (is_empty mk) && contains mk (u8 "тис"));
    reflexivity.
Qed.

(** Two runs of digits with white space between them: [ValueError]. *)
Lemma parse_odometer_spaced (s pre ds ws rest : pystr) (y : char) :
  first_run (lower s) pre ds (ws ++ y :: rest) ->
  ws <> [] -> all_space ws = true -> is_decimal y = true ->
  parse_odometer s = Raises ValueError.
Proof.
  intros [Hlow [Hpre [Hne [Hds _]]]] Hwne Hws Hy.
  unfold parse_odometer.
  destruct (is_empty s) eqn:Es.
  { destruct s; [|discriminate]. simpl in Hlow.
    symmetry in Hlow. apply app_eq_nil in Hlow.
    destruct Hlow as [_ Hlow]. apply app_eq_nil in Hlow.
    now destruct Hlow. }
  destruct ds as [|x w]; [congruence|].
  simpl in Hds. apply andb_true_iff in Hds. destruct Hds as [Hx Hw].
  destruct (PriceSpec.decimal_span rest) as [w2 [r [-> [Hw2 Hr]]]].
  destruct (match_at_odometer_spaced x y w ws w2 r Hx Hw Hwne Hws Hy Hw2 Hr)
    as [m [Hm Hg]].
  rewrite Hlow, search_odometer_skip by (exact Hpre || discriminate).
  change ((x :: w) ++ ws ++ y :: w2 ++ r)
    with (x :: w ++ ws ++ y :: w2 ++ r).
  cbn [search]. rewrite Hm. unfold int_group. rewrite Hg.
  destruct ws as [|c ws]; [congruence|].
  simpl in Hws. apply andb_true_iff in Hws. destruct Hws as [Hc _].
  now rewrite (py_int_spaced x y c w ws w2 Hx Hw Hc Hy Hw2).
Qed.

(** The three cases of [parse_odometer], which cover every text: no digit;
    a first numeric run followed by white space and a digit; a first
    numeric run followed by anything else. *)
Lemma parse_odometer_cases (s : pystr) :
  (no_decimal (lower s) = true /\ parse_odometer s = Returns 0) \/
  (exists pre ds ws r,
     first_run (lower s) pre ds (ws ++ r) /\ all_space ws = true /\
     not_space_next r = true /\
     ((ws <> [] /\ not_decimal_next r = false /\
       parse_odometer s = Raises ValueError) \/
      (not_decimal_next r = true /\
       parse_odometer s =
       if (max_str_digits <? List.length ds)%nat then Raises ValueError
       else Returns (if startswith r (u8 "тис")
                     then decimal_number ds * 1000
                     else decimal_number ds)))).
Proof.
  destruct (PriceSpec.first_run_exists (lower s))
    as [Hno | [pre [ds [post Hrun]]]].
  - left. split; [exact Hno | now apply parse_odometer_no_number].
  - right. destruct (space_span post) as [ws [r [-> [Hws Hsp]]]].
    exists pre, ds, ws, r. split; [exact Hrun|]. split; [exact Hws|].
    split; [exact Hsp|].
    destruct (not_decimal_next r) eqn:Hr.
    + right. split; [reflexivity|].
      now apply (parse_odometer_single s pre ds ws r).
    + left. destruct r as [|y rest]; [discriminate|].
      simpl in Hr. apply negb_false_iff in Hr.
      assert (ws <> []) as Hne.
      { intros ->. destruct Hrun as [_ [_ [_ [_ Hpost]]]].
        simpl in Hpost. rewrite Hr in Hpost. discriminate. }
      split; [exact Hne|]. split; [reflexivity|].
      now apply (parse_odometer_spaced s pre ds ws rest y).
Qed.

(** A first numeric run with more digits than [int] accepts:
    [ValueError], whatever follows. *)
Lemma parse_odometer_long_run (s pre ds post : pystr) :
  first_run (lower s) pre ds post ->
  (max_str_digits < List.length ds)%nat ->
  parse_odometer s = Raises ValueError.
Proof.
  intros Hrun Hlen. destruct (space_span post) as [ws [r [-> [Hws Hsp]]]].
  destruct (not_decimal_next r) eqn:Hr.
  - rewrite (parse_odometer_single s pre ds ws r Hrun Hws Hsp Hr).
    apply Nat.ltb_lt in Hlen. now rewrite Hlen.
  - destruct r as [|y rest]; [discriminate|].
    simpl in Hr. apply negb_false_iff in Hr.
    assert (ws <> []) as Hne.
    { intros ->. destruct Hrun as [_ [_ [_ [_ Hpost]]]].
      simpl in Hpost. rewrite Hr in Hpost. discriminate. }
    now apply (parse_odometer_spaced s pre ds ws rest y).
Qed.

(** Every outcome of [parse_odometer]. *)
Lemma parse_odometer_outcomes (s : pystr) :
  (exists v, parse_odometer s = Returns v /\ 0 <= v) \/
  parse_odometer s = Raises ValueError.
Proof.
  unfold parse_odometer.
  destruct (is_empty s); [left; exists 0; split; [reflexivity | lia]|].
  destruct (search odometer_re (lower s)) as [m|] eqn:E;
    [|left; exists 0; split; [reflexivity | lia]].
  apply search_sound in E. destruct E as [pre [t [_ E]]].
  apply odometer_match_group1 in E. destruct E as [c [w [Hg Hc]]].
  unfold int_group. rewrite Hg.
  destruct (py_int_digit_head c w Hc) as [[n [-> Hn]] | ->];
    [|now right].
  left. cbn [bind].
  destruct (group m 2) as [mult|].
  - destruct (negb (is_empty mult) && contains mult (u8 "тис")).
    + exists (n * 1000). split; [reflexivity | lia].
    + exists n. now split.
  - exists n. now split.
Qed.

(** C2. The code multiplies for the marker [тис] only: with the marker
    [тыс], which the pattern also reads, the number comes back as it is;
    and digits separated by white space raise. *)
Theorem parse_odometer_thousand_markers :
  parse_odometer (u8 "95 тис. км") = Returns 95000 /\
  parse_odometer (u8 "95 тыс. км") = Returns 95 /\
  parse_odometer (u8 "95 000 км") = Raises ValueError.
Proof. repeat split; vm_compute; reflexivity. Qed.

(** C3. [parse_odometer] is not total: a digit run, white space and
    another digit raise [ValueError], where [parse_price] returns. *)
Theorem parse_odometer_spaced_digits_raise :
  parse_odometer (u8 "95 000 км") = Raises ValueError /\
  parse_odometer (u8 "95 000") = Raises ValueError /\
  parse_price (u8 "95 000 км") = Returns 95000.
Proof. repeat split; vm_compute; reflexivity. Qed.

(** C8. Whatever [parse_price] and [parse_odometer] return is an integer
    that is not negative; a call that returns nothing raises
    [OverflowError] (price) or [ValueError] (odometer). *)
Theorem normalizer_values_not_negative (s : pystr) :
  ((exists v, parse_price s = Returns v /\ 0 <= v) \/
   parse_price s = Raises OverflowError) /\
  ((exists v, parse_odometer s = Returns v /\ 0 <= v) \/
   parse_odometer s = Raises ValueError).
Proof.
  split; [apply PriceSpec.parse_price_outcomes | apply parse_odometer_outcomes].
Qed.

End OdometerSpec.

(** ** The fetcher *)

Module FetchSpec.
Import Py Scraper Spec.

Lemma fetch_attempt_failed (env : nat -> attempt_env) (target : pystr)
      (i : nat) :
  succeeded (answer (env i)) = false ->
  fetch_attempt env target i = (failed_attempt_events env target i, None).
Proof.
  unfold fetch_attempt, failed_attempt_events, succeeded.
  destruct (answer (env i)) as [status [body|]|]; intros H.
  - rewrite H.
    destruct (status =? 429); [reflexivity|]. now rewrite app_nil_r.
  - destruct (status =? 200) eqn:E.
    + apply Z.eqb_eq in E. subst status. reflexivity.
    + destruct (status =? 429); [reflexivity|]. now rewrite app_nil_r.
  - reflexivity.
Qed.

Lemma fetch_attempt_succeeded (env : nat -> attempt_env) (target : pystr)
      (i : nat) :
  succeeded (answer (env i)) = true ->
  exists body,
    answer (env i) = Response 200 (Some body) /\
    fetch_attempt env target i =
    ([Sleep (Float (random_uniform float_0_5 float_1_5 (sample (env i))));
      Get target (random_choice user_agents (choice (env i)))], Some body).
Proof.
  unfold fetch_attempt, succeeded.
  destruct (answer (env i)) as [status [body|]|]; intros H;
    try discriminate.
  rewrite H. apply Z.eqb_eq in H. subst status. now exists body.
Qed.

Lemma requests_app (a b : list event) :
  requests (a ++ b) = (requests a + requests b)%nat.
Proof. unfold requests. now rewrite filter_app, length_app. Qed.

Lemma requests_failed_attempt (env : nat -> attempt_env) (target : pystr)
      (i : nat) :
  requests (failed_attempt_events env target i) = 1%nat.
Proof.
  unfold failed_attempt_events. rewrite requests_app.
  destruct (answer (env i)) as [status text|]; [|reflexivity].
  destruct (status =? 429); [reflexivity|].
  destruct (status =? 200); reflexivity.
Qed.

Lemma requests_failed_attempts (env : nat -> attempt_env) (target : pystr)
      (attempts : list nat) :
  requests (flat_map (failed_attempt_events env target) attempts)
  = List.length attempts.
Proof.
  induction attempts as [|i rest IH]; [reflexivity|].
  cbn [flat_map List.length].
  now rewrite requests_app, requests_failed_attempt, IH.
Qed.

(** The loop issues at most one request per attempt. *)
Lemma fetch_loop_requests (env : nat -> attempt_env) (target : pystr)
      (attempts : list nat) :
  (requests (fst (fetch_loop env target attempts))
   <= List.length attempts)%nat.
Proof.
  induction attempts as [|i rest IH]; [cbv; lia|].
  cbn [fetch_loop].
  destruct (succeeded (answer (env i))) eqn:E.
  - destruct (fetch_attempt_succeeded env target i E) as [body [_ ->]].
    cbn. lia.
  - rewrite (fetch_attempt_failed env target i E).
    destruct (fetch_loop env target rest) as [evs r]. cbn [fst] in *.
    rewrite requests_app, requests_failed_attempt. cbn [List.length]. lia.
Qed.

(** When no attempt succeeds the loop runs them all and returns [None]. *)
Lemma fetch_loop_exhausted (env : nat -> attempt_env) (target : pystr)
      (attempts : list nat) :
  (forall i, In i attempts -> succeeded (answer (env i)) = false) ->
  fetch_loop env target attempts =
  (flat_map (failed_attempt_events env target) attempts, None).
Proof.
  induction attempts as [|i rest IH]; intros H; [reflexivity|].
  cbn [fetch_loop flat_map].
  rewrite (fetch_attempt_failed env target i (H i (or_introl eq_refl))).
  rewrite IH; [reflexivity|].
  intros j Hj. apply H. now right.
Qed.

(** The loop stops at the first attempt that succeeds. *)
Lemma fetch_loop_first_success (env : nat -> attempt_env) (target : pystr)
      (before after : list nat) (i : nat) (body : pystr) :
  (forall j, In j before -> succeeded (answer (env j)) = false) ->
  answer (env i) = Response 200 (Some body) ->
  fetch_loop env target (before ++ i :: after) =
  (flat_map (failed_attempt_events env target) before ++
   [Sleep (Float (random_uniform float_0_5 float_1_5 (sample (env i))));
    Get target (random_choice user_agents (choice (env i)))],
   Some body).
Proof.
  intros Hb Hi. induction before as [|j before IH].
  - cbn [app fetch_loop flat_map]. unfold fetch_attempt. now rewrite Hi.
  - cbn [app fetch_loop flat_map].
    rewrite (fetch_attempt_failed env target j (Hb j (or_introl eq_refl))).
    rewrite IH by (intros k Hk; apply Hb; now right).
    now rewrite app_assoc.
Qed.

(** C6. [fetch] makes at most [RETRY_ATTEMPTS] requests; when none of them
    succeeds it returns [None] after exactly that many, each attempt
    leaving its pacing sleep and its request in the trace, followed by a
    backoff sleep of [5 * (attempt + 1)] seconds after a status 429, by
    nothing after another status, and by a log entry after a fault. *)
Theorem fetch_retries_then_none (retry_attempts : Z)
        (env : nat -> attempt_env) (target : pystr) :
  (requests (fst (fetch retry_attempts env target))
   <= Z.to_nat retry_attempts)%nat /\
  ((forall i, (i < Z.to_nat retry_attempts)%nat ->
              succeeded (answer (env i)) = false) ->
   fetch retry_attempts env target =
   (flat_map (failed_attempt_events env target)
             (seq 0 (Z.to_nat retry_attempts)), None) /\
   requests (fst (fetch retry_attempts env target))
   = Z.to_nat retry_attempts).
Proof.
  unfold fetch. split.
  - pose proof (fetch_loop_requests env target
                  (seq 0 (Z.to_nat retry_attempts))) as H.
    now rewrite length_seq in H.
  - intros H.
    assert (fetch_loop env target (seq 0 (Z.to_nat retry_attempts)) =
            (flat_map (failed_attempt_events env target)
                      (seq 0 (Z.to_nat retry_attempts)), None)) as E.
    { apply fetch_loop_exhausted. intros i Hi. apply H.
      apply in_seq in Hi. lia. }
    split; [exact E|]. rewrite E. cbn [fst].
    now rewrite requests_failed_attempts, length_seq.
Qed.

Lemma fetch_retries_then_none_witness :
  fetch 2 (fun i => {| choice := i; sample := float_0_5;
                       answer := if Nat.eqb i 0 then Response 429 None
                                 else Fault |})
        (u8 "https://auto.ria.com/uk/car/used/?page=1") =
  ([Sleep (Float (S754_finite false 4503599627370496 (-52)));
    Get (u8 "https://auto.ria.com/uk/car/used/?page=1")
        (u8 "Mozilla/5.0 (Windows NT 10.0; Win64; x64) Chrome/91.0.4472.124");
    Sleep (Int 5);
    Sleep (Float (S754_finite false 4503599627370496 (-52)));
    Get (u8 "https://auto.ria.com/uk/car/used/?page=1")
        (u8 "Mozilla/5.0 (Windows NT 10.0; Win64; x64) Firefox/89.0");
    LogAttemptFailed 2], None).
Proof.
  set (env := fun i => {| choice := i; sample := float_0_5;
                          answer := if Nat.eqb i 0 then Response 429 None
                                    else Fault |}).
  assert (forall i, (i < Z.to_nat 2)%nat ->
                    succeeded (answer (env i)) = false) as H.
  { intros [|[|i]] Hi; [reflexivity | reflexivity | simpl in Hi; lia]. }
  rewrite (proj1 (proj2 (fetch_retries_then_none 2 env
                           (u8 "https://auto.ria.com/uk/car/used/?page=1"))
                        H)).
  vm_compute. reflexivity.
Defined.

End FetchSpec.

(** ** The store sink and the existence filter *)

Module StoreSpec.
Import Py Database Scraper Spec PyFacts.

(** *** [save_cars] *)

(** [save_cars] catches everything: it always returns. *)
Lemma save_cars_returns (cars : list car) (w : world) :
  fst (save_cars cars w) = Returns tt.
Proof.
  unfold save_cars, try_catch.
  destruct (get_db _ w) as [[[]|e] w']; reflexivity.
Qed.

Ltac db_step :=
  cbv beta iota zeta delta
      [save_cars get_db try_catch try_finally mbind async_session add_all
       commit rollback close round_trip get_rows get_pending set_rows ret
       raise logger_error execute_select_url_in
       ops rows log fails pending];
  cbn [app].

(** When nothing fails the batch is inserted. *)
Lemma save_cars_inserts (cars : list car) (w : world) :
  let n := List.length (ops w) in
  fails w n = false -> fails w (n + 1)%nat = false ->
  fails w (n + 2)%nat = false ->
  unique_urls (map url (rows w ++ cars)) = true ->
  exists w', save_cars cars w = (Returns tt, w') /\
             rows w' = rows w ++ cars /\ log w' = log w.
Proof.
  destruct w as [rs pend lg os fl]. cbn [ops rows log fails].
  intros H0 H1 H2 Hu.
  db_step. rewrite H0. db_step. rewrite Hu. db_step.
  rewrite length_app. cbn [List.length]. rewrite H1. db_step.
  rewrite app_nil_r, Hu. db_step.
  rewrite !length_app. cbn [List.length].
  replace (List.length os + 1 + 1)%nat with (List.length os + 2)%nat by lia.
  rewrite H2. db_step.
  eexists. split; [reflexivity|]. now split.
Qed.

(** C9. When the bulk insert fails, [save_cars] returns to its caller with
    the store as it was: the one commit is followed by a rollback and the
    closing of the session, never by a second attempt, and the failure is
    logged.  [save_cars] returns whatever happens. *)
Theorem save_cars_failed_insert :
  (forall (cars : list car) (w : world),
     fails w (List.length (ops w)) = true \/
     unique_urls (map url (rows w ++ cars)) = false ->
     exists w', save_cars cars w = (Returns tt, w') /\
                rows w' = rows w /\
                ops w' = ops w ++ [Commit; Rollback; Close] /\
                (exists l, log w' = log w ++ l ++ [LogErrorSavingCars])) /\
  (forall (cars : list car) (w : world), fst (save_cars cars w) = Returns tt).
Proof.
  split; [|exact save_cars_returns].
  intros cars [rs pend lg os fl]. cbn [ops rows log fails].
  intros H.
  db_step.
  destruct (fl (List.length os)) eqn:F0.
  - db_step. rewrite length_app. cbn [List.length].
    destruct (fl (List.length os + 1)%nat) eqn:F1; db_step;
      rewrite !length_app; cbn [List.length];
      destruct (fl (List.length os + 1 + 1)%nat) eqn:F2; db_step;
      (eexists; split; [reflexivity|]; cbn [ops rows log];
       split; [reflexivity|]; split; [now rewrite <- !app_assoc|]);
      first [ exists []; reflexivity
            | exists [LogDatabaseError]; now rewrite <- app_assoc ].
  - destruct H as [H | H]; [discriminate|].
    db_step. rewrite H. db_step. rewrite length_app. cbn [List.length].
    destruct (fl (List.length os + 1)%nat) eqn:F1; db_step;
      rewrite !length_app; cbn [List.length];
      destruct (fl (List.length os + 1 + 1)%nat) eqn:F2; db_step;
      (eexists; split; [reflexivity|]; cbn [ops rows log];
       split; [reflexivity|]; split; [now rewrite <- !app_assoc|]);
      first [ exists []; reflexivity
            | exists [LogDatabaseError]; now rewrite <- app_assoc ].
Qed.

Lemma save_cars_failed_insert_witness :
  exists w',
    save_cars
      [{| url := u8 "https://auto.ria.com/uk/auto_a_1.html";
          title := u8 "A"; price_usd := 6999; odometer := 95000;
          username := u8 "Unknown"; phone_number := None;
          image_url := None; images_count := 0; car_vin := [];
          car_number := []; datetime_found := 0 |}]
      {| rows := [{| url := u8 "https://auto.ria.com/uk/auto_a_1.html";
                     title := u8 "A"; price_usd := 7000; odometer := 94000;
                     username := u8 "Unknown"; phone_number := None;
                     image_url := None; images_count := 0; car_vin := [];
                     car_number := []; datetime_found := 0 |}];
         pending := []; log := []; ops := []; fails := fun _ => false |}
    = (Returns tt, w') /\
    List.length (rows w') = 1%nat /\
    ops w' = [Commit; Rollback; Close] /\
    (exists l, log w' = l ++ [LogErrorSavingCars]).
Proof.
  destruct (proj1 save_cars_failed_insert
      [{| url := u8 "https://auto.ria.com/uk/auto_a_1.html";
          title := u8 "A"; price_usd := 6999; odometer := 95000;
          username := u8 "Unknown"; phone_number := None;
          image_url := None; images_count := 0; car_vin := [];
          car_number := []; datetime_found := 0 |}]
      {| rows := [{| url := u8 "https://auto.ria.com/uk/auto_a_1.html";
                     title := u8 "A"; price_usd := 7000; odometer := 94000;
                     username := u8 "Unknown"; phone_number := None;
                     image_url := None; images_count := 0; car_vin := [];
                     car_number := []; datetime_found := 0 |}];
         pending := []; log := []; ops := []; fails := fun _ => false |}
      (or_intror eq_refl)) as [w' [E [Hr [Ho Hl]]]].
  exists w'. split; [exact E|]. split; [now rewrite Hr|].
  split; [exact Ho | exact Hl].
Defined.

(** *** [bulk_check_existence] and the filter *)

Lemma set_mem_In (k : pystr) (l : list pystr) :
  set_mem k l = true <-> In k l.
Proof.
  unfold set_mem. rewrite existsb_exists. split.
  - intros [x [Hx E]]. apply str_eqb_eq in E. now subst.
  - intros H. exists k. split; [exact H | apply str_eqb_refl].
Qed.

Lemma dict_get_set_same {V} (d : dict V) (k : pystr) (v : V) :
  dict_get (dict_set d k v) k = Some v.
Proof.
  induction d as [|[k' v'] d IH]; simpl.
  - now rewrite str_eqb_refl.
  - destruct (str_eqb k' k) eqn:E; simpl; rewrite E; [reflexivity | exact IH].
Qed.

Lemma dict_get_set_other {V} (d : dict V) (k k' : pystr) (v : V) :
  k' <> k -> dict_get (dict_set d k v) k' = dict_get d k'.
Proof.
  intros Hne. induction d as [|[k0 v0] d IH]; simpl.
  - destruct (str_eqb k k') eqn:E; [|reflexivity].
    apply str_eqb_eq in E. congruence.
  - destruct (str_eqb k0 k) eqn:E; simpl.
    + apply str_eqb_eq in E. subst k0.
      destruct (str_eqb k k') eqn:E'; [|reflexivity].
      apply str_eqb_eq in E'. congruence.
    + now rewrite IH.
Qed.

Lemma dict_set_keys {V} (d : dict V) (k k' : pystr) (v : V) :
  In k' (map fst (dict_set d k v)) <-> k' = k \/ In k' (map fst d).
Proof.
  induction d as [|[k0 v0] d IH]; simpl.
  - intuition.
  - destruct (str_eqb k0 k) eqn:E; simpl.
    + apply str_eqb_eq in E. subst k0. intuition.
    + rewrite IH. intuition.
Qed.

Lemma dict_set_NoDup {V} (d : dict V) (k : pystr) (v : V) :
  NoDup (map fst d) -> NoDup (map fst (dict_set d k v)).
Proof.
  induction d as [|[k0 v0] d IH]; simpl; intros H.
  - constructor; [intros [] | constructor].
  - inversion H as [|? ? Hnotin Hnd]; subst.
    destruct (str_eqb k0 k) eqn:E; simpl.
    + now constructor.
    + constructor; [|now apply IH].
      rewrite dict_set_keys. intros [-> | Hin]; [|contradiction].
      rewrite str_eqb_refl in E. discriminate.
Qed.

Lemma dict_get_keys {V} (d : dict V) (k : pystr) :
  In k (map fst d) <-> exists v, dict_get d k = Some v.
Proof.
  induction d as [|[k0 v0] d IH]; simpl.
  - split; [intros [] | intros [v H]; discriminate].
  - destruct (str_eqb k0 k) eqn:E.
    + apply str_eqb_eq in E. subst. split; eauto.
    + apply str_eqb_neq in E. rewrite <- IH. intuition.
Qed.

Lemma dict_get_In {V} (d : dict V) (k : pystr) (v : V) :
  NoDup (map fst d) -> (In (k, v) d <-> dict_get d k = Some v).
Proof.
  induction d as [|[k0 v0] d IH]; simpl; intros H.
  - split; [intros [] | discriminate].
  - inversion H as [|? ? Hnotin Hnd]; subst.
    destruct (str_eqb k0 k) eqn:E.
    + apply str_eqb_eq in E. subst k0. split.
      * intros [E | Hin]; [congruence|].
        exfalso. apply Hnotin. apply in_map_iff. now exists (k, v).
      * intros E. left. congruence.
    + apply str_eqb_neq in E. rewrite <- (IH Hnd). split.
      * intros [E' | Hin]; [congruence | exact Hin].
      * now right.
Qed.

(** A comprehension over [keys] has exactly these keys, each once, each
    with its value. *)
Lemma dict_comprehension_spec {V} (f : pystr -> V) (keys : list pystr) :
  NoDup (map fst (dict_comprehension f keys)) /\
  (forall k, In k (map fst (dict_comprehension f keys)) <-> In k keys) /\
  (forall k, In k keys -> dict_get (dict_comprehension f keys) k = Some (f k)).
Proof.
  unfold dict_comprehension.
  assert (forall (d0 : dict V),
            NoDup (map fst d0) ->
            (forall k, In k (map fst d0) -> dict_get d0 k = Some (f k)) ->
            let d := fold_left (fun d k => dict_set d k (f k)) keys d0 in
            NoDup (map fst d) /\
            (forall k, In k (map fst d) <-> In k (map fst d0) \/ In k keys) /\
            (forall k, In k (map fst d) -> dict_get d k = Some (f k))) as H.
  { induction keys as [|k0 keys IH]; intros d0 Hnd Hval;
      cbn [fold_left]; cbv zeta.
    - split; [exact Hnd|]. split; [intros k; simpl; tauto | exact Hval].
    - specialize (IH (dict_set d0 k0 (f k0)) (dict_set_NoDup d0 k0 (f k0) Hnd)).
      destruct IH as [IH1 [IH2 IH3]].
      { intros k Hk. apply dict_set_keys in Hk.
        destruct (list_eq_dec N.eq_dec k k0) as [-> | Hne].
        - apply dict_get_set_same.
        - rewrite dict_get_set_other by exact Hne.
          destruct Hk as [-> | Hk]; [congruence | now apply Hval]. }
      split; [exact IH1|]. split; [|exact IH3].
      intros k. rewrite IH2, dict_set_keys. simpl.
      split; [intros [[-> | H] | H] | intros [H | [-> | H]]]; auto. }
  destruct (H [] (NoDup_nil _) (fun k (F : In k []) => match F with end))
    as [H1 [H2 H3]].
  split; [exact H1|]. split.
  - intros k. rewrite H2. simpl. tauto.
  - intros k Hk. apply H3, H2. now right.
Qed.

Lemma NoDup_filter_keys {V} (p : pystr * V -> bool) (d : dict V) :
  NoDup (map fst d) -> NoDup (map fst (filter p d)).
Proof.
  induction d as [|[k v] d IH]; simpl; intros H; [constructor|].
  inversion H as [|? ? Hnotin Hnd]; subst.
  destruct (p (k, v)); simpl; [|now apply IH].
  constructor; [|now apply IH].
  intros Hin. apply Hnotin. apply in_map_iff in Hin.
  destruct Hin as [[k' v'] [E Hin]]. simpl in E. subst k'.
  apply filter_In in Hin. apply in_map_iff. now exists (k, v').
Qed.

(** The new links are the keys whose value is [False]. *)
Lemma new_car_links_spec (d : dict bool) :
  NoDup (map fst d) ->
  NoDup (new_car_links d) /\
  (forall u, In u (new_car_links d) <-> dict_get d u = Some false).
Proof.
  intros Hnd. unfold new_car_links. split; [now apply NoDup_filter_keys|].
  intros u. rewrite in_map_iff. split.
  - intros [[k v] [E Hin]]. simpl in E. subst k.
    apply filter_In in Hin. destruct Hin as [Hin Hv].
    apply negb_true_iff in Hv. subst v. now apply dict_get_In.
  - intros H. exists (u, false). split; [reflexivity|].
    apply filter_In. split; [now apply dict_get_In | reflexivity].
Qed.

Ltac db_run fl :=
  repeat (db_step; rewrite ?length_app; cbn [List.length];
          match goal with
          | |- context [if fl ?n then _ else _] => destruct (fl n) eqn:?
          | |- context [if unique_urls ?l then _ else _] =>
            destruct (unique_urls l) eqn:?
          end);
  db_step.

(** A lookup that returns has read the URLs of the store that are among
    the candidates. *)
Lemma lookup_returns (urls existing : list pystr) (w w1 : world) :
  get_db (execute_select_url_in urls) w = (Returns existing, w1) ->
  existing = filter (fun u => existsb (str_eqb u) urls) (map url (rows w)).
Proof.
  destruct w as [rs pend lg os fl]. cbn [rows].
  db_run fl; intros E; try discriminate; now inversion E.
Qed.

Lemma not_known_iff (urls existing : list pystr) (w : world) (u : pystr) :
  existing = filter (fun u => existsb (str_eqb u) urls) (map url (rows w)) ->
  In u urls ->
  (set_mem u existing = false <-> ~ In u (map url (rows w))).
Proof.
  intros -> Hu. rewrite <- not_true_iff_false, set_mem_In, filter_In.
  fold (set_mem u urls). rewrite set_mem_In. tauto.
Qed.

(** A lookup returns when its three round trips work (and the store
    satisfies its constraint). *)
Lemma lookup_succeeds (urls : list pystr) (w : world) :
  let n := List.length (ops w) in
  fails w n = false -> fails w (n + 1)%nat = false ->
  fails w (n + 1 + 1)%nat = false ->
  unique_urls (map url (rows w)) = true ->
  exists existing w1,
    get_db (execute_select_url_in urls) w = (Returns existing, w1) /\
    rows w1 = rows w.
Proof.
  destruct w as [rs pend lg os fl]. cbn [ops rows fails].
  intros H0 H1 H2 Hu.
  db_step. rewrite H0. db_step.
  rewrite length_app. cbn [List.length]. rewrite H1. db_step.
  rewrite app_nil_r, Hu. db_step.
  rewrite !length_app. cbn [List.length]. rewrite H2. db_step.
  eexists _, _. split; reflexivity.
Qed.

(** C5. When the lookup succeeds every candidate is marked with its
    presence in the store and the filter returns the candidates that the
    store does not know, each once; when it fails, every candidate is
    marked as not existing and the filter returns them all. *)
Theorem filter_new_set_difference (urls : list pystr) (w : world) :
  (forall existing w1,
     get_db (execute_select_url_in urls) w = (Returns existing, w1) ->
     exists d new,
       bulk_check_existence urls w = (Returns d, w1) /\
       (forall u, In u urls ->
                  dict_get d u = Some (set_mem u (map url (rows w)))) /\
       filter_new urls w = (Returns new, w1) /\ NoDup new /\
       forall u, In u new <-> In u urls /\ ~ In u (map url (rows w))) /\
  (forall e w1,
     get_db (execute_select_url_in urls) w = (Raises e, w1) ->
     exists d new w2,
       bulk_check_existence urls w = (Returns d, w2) /\
       (forall u, In u urls -> dict_get d u = Some false) /\
       filter_new urls w = (Returns new, w2) /\ NoDup new /\
       forall u, In u new <-> In u urls).
Proof.
  split.
  - intros existing w1 E.
    pose proof (lookup_returns urls existing w w1 E) as Hex.
    destruct (dict_comprehension_spec (fun u => set_mem u existing) urls)
      as [Hnd [Hkeys Hval]].
    destruct (new_car_links_spec _ Hnd) as [Hnew Hin].
    exists (dict_comprehension (fun u => set_mem u existing) urls),
           (new_car_links
              (dict_comprehension (fun u => set_mem u existing) urls)).
    split; [|split; [|split; [|split; [exact Hnew|]]]].
    + unfold bulk_check_existence, try_catch, mbind, ret. now rewrite E.
    + intros u Hu. rewrite (Hval u Hu). f_equal.
      apply eq_true_iff_eq. rewrite !set_mem_In, Hex, filter_In.
      fold (set_mem u urls). rewrite set_mem_In. tauto.
    + unfold filter_new, bulk_check_existence, try_catch, mbind, ret.
      now rewrite E.
    + intros u. rewrite Hin. split.
      * intros Hget.
        assert (In u urls) as Hu.
        { apply Hkeys, dict_get_keys. now exists false. }
        split; [exact Hu|].
        apply (not_known_iff urls existing w u Hex Hu).
        rewrite (Hval u Hu) in Hget. congruence.
      * intros [Hu Hnot]. rewrite (Hval u Hu). f_equal.
        now apply (not_known_iff urls existing w u Hex Hu).
  - intros e w1 E.
    destruct (dict_comprehension_spec (fun _ : pystr => false) urls)
      as [Hnd [Hkeys Hval]].
    destruct (new_car_links_spec _ Hnd) as [Hnew Hin].
    exists (dict_comprehension (fun _ => false) urls),
           (new_car_links (dict_comprehension (fun _ => false) urls)),
           (snd (logger_error LogErrorBulkCheck w1)).
    split; [|split; [exact Hval|split; [|split; [exact Hnew|]]]].
    + unfold bulk_check_existence, try_catch, mbind, ret.
      now rewrite E.
    + unfold filter_new, bulk_check_existence, try_catch, mbind, ret.
      now rewrite E.
    + intros u. rewrite Hin. split.
      * intros Hget. apply Hkeys, dict_get_keys. now exists false.
      * exact (Hval u).
Qed.

Lemma filter_new_set_difference_witness :
  (exists new w1,
     filter_new [u8 "/auto_a_1.html"; u8 "/auto_b_2.html";
                 u8 "/auto_c_3.html"]
                {| rows := [{| url := u8 "/auto_b_2.html"; title := u8 "B";
                               price_usd := 6999; odometer := 95000;
                               username := u8 "Unknown";
                               phone_number := None; image_url := None;
                               images_count := 0; car_vin := [];
                               car_number := []; datetime_found := 0 |}];
                   pending := []; log := []; ops := [];
                   fails := fun _ => false |}
     = (Returns new, w1) /\ NoDup new /\
     (In (u8 "/auto_a_1.html") new /\ ~ In (u8 "/auto_b_2.html") new)) /\
  (exists new w2,
     filter_new [u8 "/auto_a_1.html"; u8 "/auto_b_2.html"]
                {| rows := [{| url := u8 "/auto_b_2.html"; title := u8 "B";
                               price_usd := 6999; odometer := 95000;
                               username := u8 "Unknown";
                               phone_number := None; image_url := None;
                               images_count := 0; car_vin := [];
                               car_number := []; datetime_found := 0 |}];
                   pending := []; log := []; ops := [];
                   fails := fun _ => true |}
     = (Returns new, w2) /\
     (In (u8 "/auto_a_1.html") new /\ In (u8 "/auto_b_2.html") new)).
Proof.
  split.
  - match goal with
    | |- exists new w1, filter_new ?urls ?w = _ /\ _ =>
      destruct (get_db (execute_select_url_in urls) w) as [[ex|e] w1] eqn:E;
        [destruct (proj1 (filter_new_set_difference urls w) ex w1 E)
           as [d [new [_ [_ [Hf [Hnd Hin]]]]]]
        | vm_compute in E; discriminate E]
    end.
    exists new, w1. split; [exact Hf|]. split; [exact Hnd|].
    split.
    + apply Hin. split; [left; reflexivity|].
      simpl. intros [H | []]. vm_compute in H. discriminate H.
    + intros H. apply Hin in H. destruct H as [_ H]. apply H.
      simpl. left. reflexivity.
  - match goal with
    | |- exists new w2, filter_new ?urls ?w = _ /\ _ =>
      destruct (get_db (execute_select_url_in urls) w) as [[ex|e] w1] eqn:E;
        [vm_compute in E; discriminate E
        | destruct (proj2 (filter_new_set_difference urls w) e w1 E)
            as [d [new [w2 [_ [_ [Hf [_ Hin]]]]]]]]
    end.
    exists new, w2. split; [exact Hf|].
    split; apply Hin; [left | right; left]; reflexivity.
Defined.

End StoreSpec.

(** ** More about [parse_phone] *)

Module PhoneLaws.
Import Py Re Utils Spec PyFacts PhoneSpec.

Lemma digits_of_decimal (d : pystr) :
  all_decimal d = true -> digits_of d = d.
Proof.
  unfold digits_of, all_decimal. induction d as [|c d IH]; [reflexivity|].
  cbn [forallb filter]. intros H. apply andb_true_iff in H.
  destruct H as [Hc Hd]. now rewrite Hc, (IH Hd).
Qed.

Lemma digits_of_app (a b : pystr) :
  digits_of (a ++ b) = digits_of a ++ digits_of b.
Proof. unfold digits_of. apply filter_app. Qed.

Lemma startswith_prefix (w s : pystr) : startswith (w ++ s) w = true.
Proof.
  induction w as [|a w IH]; [now destruct s|].
  cbn [app startswith]. now rewrite N.eqb_refl, IH.
Qed.

Lemma last_n_app (n : nat) (a b : pystr) :
  List.length b = n -> last_n n (a ++ b) = b.
Proof.
  intros H. unfold last_n. rewrite length_app.
  replace (List.length a + List.length b - n)%nat with (List.length a)
    by lia.
  rewrite skipn_app, skipn_all, Nat.sub_diag. reflexivity.
Qed.

(** X1. [parse_phone] reads nothing but the decimal digits of its input:
    two texts with the same digits in the same order give the same
    result. *)
Theorem parse_phone_same_digits (s t : pystr) :
  digits_of s = digits_of t -> parse_phone s = parse_phone t.
Proof. intros H. now rewrite !parse_phone_digits, H. Qed.

Lemma parse_phone_same_digits_witness :
  parse_phone (u8 "(099) 123-45-67") = parse_phone (u8 "0991234567").
Proof.
  apply (parse_phone_same_digits (u8 "(099) 123-45-67") (u8 "0991234567")).
  vm_compute. reflexivity.
Defined.

(** The result for digits that no prefix rule accepts. *)
Lemma parse_phone_fall_through (s p r : pystr) :
  digits_of s = p ++ r -> List.length r = 9%nat ->
  rule_380 (p ++ r) = false -> rule_80 (p ++ r) = false ->
  rule_0 (p ++ r) = false ->
  parse_phone s = u8 "+380" ++ r.
Proof.
  intros Hd Hr H1 H2 H3. rewrite parse_phone_digits. cbv zeta.
  rewrite Hd, H1, H2, H3, (last_n_app 9 p r Hr).
  destruct (p ++ r) eqn:E; [|reflexivity].
  apply (f_equal (@List.length _)) in E. rewrite length_app in E.
  simpl in E. lia.
Qed.

Ltac char_is H c :=
  destruct c as [|c]; [discriminate H|];
  repeat (destruct c as [c|c|]; try discriminate H).

Lemma canonical_phone_inv (r : pystr) :
  canonical_phone r = true ->
  exists rest, r = u8 "+380" ++ rest /\ List.length rest = 9%nat /\
               all_decimal rest = true.
Proof.
  unfold canonical_phone. intros H.
  destruct r as [|c0 [|c1 [|c2 [|c3 rest]]]]; try discriminate H;
    char_is H c0; try discriminate H;
    char_is H c1; try discriminate H;
    char_is H c2; try discriminate H;
    char_is H c3.
  apply andb_true_iff in H. destruct H as [Hl Hd].
  apply Nat.eqb_eq in Hl. exists rest. now split.
Qed.

(** X2. A number of the canonical format comes back as it is. *)
Theorem parse_phone_canonical_fixed (r : pystr) :
  canonical_phone r = true -> parse_phone r = r.
Proof.
  intros H. destruct (canonical_phone_inv r H) as [rest [-> [Hl Hd]]].
  apply (parse_phone_fall_through _ (u8 "380") rest).
  - change (digits_of (u8 "+380" ++ rest)) with (u8 "380" ++ digits_of rest).
    now rewrite (digits_of_decimal rest Hd).
  - exact Hl.
  - unfold rule_380. rewrite length_app, Hl. apply andb_false_r.
  - reflexivity.
  - reflexivity.
Qed.

Lemma parse_phone_canonical_fixed_witness :
  parse_phone (u8 "+380991234567") = u8 "+380991234567".
Proof.
  apply (parse_phone_canonical_fixed (u8 "+380991234567")).
  vm_compute. reflexivity.
Defined.

Lemma rule_380_length (d : pystr) :
  rule_380 d = true -> List.length d = 11%nat.
Proof.
  unfold rule_380. intros H. apply andb_true_iff in H.
  now apply Nat.eqb_eq.
Qed.

Lemma rule_80_length (d : pystr) :
  rule_80 d = true -> List.length d = 10%nat.
Proof.
  unfold rule_80. intros H. apply andb_true_iff in H.
  now apply Nat.eqb_eq.
Qed.

Lemma rule_0_length (d : pystr) :
  rule_0 d = true -> List.length d = 9%nat.
Proof.
  unfold rule_0. intros H. apply andb_true_iff in H.
  now apply Nat.eqb_eq.
Qed.

(** A result of a prefix rule is read again by the rule for [380]. *)
Lemma parse_phone_again_rule (p d : pystr) :
  all_decimal (p ++ d) = true -> rule_380 (p ++ d) = true ->
  parse_phone (u8 "+" ++ p ++ d) = u8 "+" ++ p ++ d.
Proof.
  intros Hd H. rewrite parse_phone_digits. cbv zeta.
  change (digits_of (u8 "+" ++ p ++ d)) with (digits_of (p ++ d)).
  now rewrite (digits_of_decimal _ Hd), H.
Qed.

(** The second reading of a result of the last branch. *)
Lemma parse_phone_again_last (l : pystr) :
  all_decimal l = true ->
  parse_phone (u8 "+380" ++ l) =
  if Nat.eqb (List.length l) 8 then u8 "+380" ++ l
  else u8 "+380" ++ last_n 9 (u8 "380" ++ l).
Proof.
  intros Hl. rewrite parse_phone_digits. cbv zeta.
  change (digits_of (u8 "+380" ++ l)) with (u8 "380" ++ digits_of l).
  rewrite (digits_of_decimal l Hl).
  assert (rule_380 (u8 "380" ++ l) = Nat.eqb (List.length l) 8) as ->.
  { unfold rule_380. now rewrite startswith_prefix. }
  destruct (Nat.eqb (List.length l) 8); reflexivity.
Qed.

(** X3. Normalising twice is normalising once exactly for the texts with no
    digit or with at least eight digits: a result with fewer digits is read
    again as a number of its own, and gets a second [380]. *)
Theorem parse_phone_idempotent_iff (s : pystr) :
  parse_phone (parse_phone s) = parse_phone s <->
  digits_of s = [] \/ (8 <= List.length (digits_of s))%nat.
Proof.
  pose proof (digits_of_all_decimal s) as Hd.
  rewrite (parse_phone_digits s). cbv zeta.
  destruct (rule_380 (digits_of s)) eqn:R1.
  { pose proof (rule_380_length _ R1) as L. split; [intros _; right; lia|].
    intros _. apply (parse_phone_again_rule [] (digits_of s) Hd R1). }
  destruct (rule_80 (digits_of s)) eqn:R2.
  { pose proof (rule_80_length _ R2) as L. split; [intros _; right; lia|].
    intros _. apply (parse_phone_again_rule (u8 "3") (digits_of s)).
    - exact Hd.
    - unfold rule_80 in R2. apply andb_true_iff in R2.
      destruct R2 as [R2 _]. unfold rule_380.
      rewrite length_app, L.
      change (startswith (u8 "3" ++ digits_of s) (u8 "380"))
        with (startswith (digits_of s) (u8 "80")).
      now rewrite R2. }
  destruct (rule_0 (digits_of s)) eqn:R3.
  { pose proof (rule_0_length _ R3) as L. split; [intros _; right; lia|].
    intros _. apply (parse_phone_again_rule (u8 "38") (digits_of s)).
    - exact Hd.
    - unfold rule_0 in R3. apply andb_true_iff in R3.
      destruct R3 as [R3 _]. unfold rule_380.
      rewrite length_app, L.
      change (startswith (u8 "38" ++ digits_of s) (u8 "380"))
        with (startswith (digits_of s) (u8 "0")).
      now rewrite R3. }
  destruct (digits_of s) as [|c d] eqn:E.
  { split; [now left | reflexivity]. }
  cbn [is_empty].
  pose proof (all_decimal_last_n 9 (c :: d) Hd) as Hl.
  pose proof (length_last_n 9 (c :: d)) as Ll.
  rewrite (parse_phone_again_last _ Hl).
  destruct (Nat.eqb (List.length (last_n 9 (c :: d))) 8) eqn:E8.
  { apply Nat.eqb_eq in E8. split; [intros _; right; lia | reflexivity]. }
  apply Nat.eqb_neq in E8. split.
  - intros H. right. apply app_inv_head in H.
    apply (f_equal (@List.length _)) in H.
    rewrite length_last_n, length_app in H. cbn [List.length] in *.
    change (List.length (u8 "380")) with 3%nat in H. lia.
  - intros [H | H]; [discriminate H|].
    f_equal. apply last_n_app. lia.
Qed.

Lemma parse_phone_idempotent_iff_witness :
  parse_phone (parse_phone (u8 "(099) 123-45-67"))
  = parse_phone (u8 "(099) 123-45-67") /\
  parse_phone (parse_phone (u8 "12345")) <> parse_phone (u8 "12345").
Proof.
  split.
  - apply (proj2 (parse_phone_idempotent_iff (u8 "(099) 123-45-67"))).
    right. vm_compute. lia.
  - intros H.
    destruct (proj1 (parse_phone_idempotent_iff (u8 "12345")) H) as [E | E].
    + vm_compute in E. discriminate E.
    + vm_compute in E. lia.
Defined.

(** X4. The full forms of a Ukrainian number give the canonical format
    through the last branch: twelve digits beginning with [380], eleven
    beginning with [80] and ten beginning with [0] all give [+380] and the
    last nine digits. *)
Theorem parse_phone_full_forms (s r : pystr) :
  List.length r = 9%nat ->
  digits_of s = u8 "380" ++ r \/ digits_of s = u8 "80" ++ r \/
  digits_of s = u8 "0" ++ r ->
  parse_phone s = u8 "+380" ++ r /\
  canonical_phone (parse_phone s) = true.
Proof.
  intros Hr H.
  assert (parse_phone s = u8 "+380" ++ r) as E.
  { destruct H as [H | [H | H]].
    - apply (parse_phone_fall_through s (u8 "380") r H Hr);
        [|reflexivity|reflexivity].
      unfold rule_380. rewrite length_app, Hr. apply andb_false_r.
    - apply (parse_phone_fall_through s (u8 "80") r H Hr);
        [reflexivity| |reflexivity].
      unfold rule_80. rewrite length_app, Hr. apply andb_false_r.
    - apply (parse_phone_fall_through s (u8 "0") r H Hr);
        [reflexivity|reflexivity|].
      unfold rule_0. rewrite length_app, Hr. apply andb_false_r. }
  split; [exact E|]. rewrite E.
  change (canonical_phone (u8 "+380" ++ r))
    with (Nat.eqb (List.length r) 9 && all_decimal r).
  rewrite Hr. cbn [Nat.eqb andb].
  pose proof (digits_of_all_decimal s) as Hd.
  destruct H as [H | [H | H]]; rewrite H, all_decimal_app in Hd;
    now apply andb_true_iff in Hd.
Qed.

Lemma parse_phone_full_forms_witness :
  parse_phone (u8 "+38 (099) 123-45-67") = u8 "+380991234567" /\
  parse_phone (u8 "8 099 123 45 67") = u8 "+380991234567" /\
  parse_phone (u8 "099 123 45 67") = u8 "+380991234567".
Proof.
  refine (conj _ (conj _ _)).
  - apply (proj1 (parse_phone_full_forms (u8 "+38 (099) 123-45-67")
                    (u8 "991234567") eq_refl (or_introl eq_refl))).
  - apply (proj1 (parse_phone_full_forms (u8 "8 099 123 45 67")
                    (u8 "991234567") eq_refl
                    (or_intror (or_introl eq_refl)))).
  - apply (proj1 (parse_phone_full_forms (u8 "099 123 45 67")
                    (u8 "991234567") eq_refl
                    (or_intror (or_intror eq_refl)))).
Defined.

(** X5. A result has at most thirteen characters whatever the length of
    the input, and at least five when it is not empty. *)
Theorem parse_phone_length (s : pystr) :
  (List.length (parse_phone s) <= 13)%nat /\
  (parse_phone s <> [] -> (5 <= List.length (parse_phone s))%nat).
Proof.
  rewrite (parse_phone_digits s). cbv zeta.
  destruct (rule_380 (digits_of s)) eqn:R1.
  { rewrite length_app, (rule_380_length _ R1). cbn. lia. }
  destruct (rule_80 (digits_of s)) eqn:R2.
  { rewrite length_app, (rule_80_length _ R2). cbn. lia. }
  destruct (rule_0 (digits_of s)) eqn:R3.
  { rewrite length_app, (rule_0_length _ R3). cbn. lia. }
  destruct (digits_of s) as [|c d].
  { cbn. split; [lia | congruence]. }
  cbn [is_empty]. rewrite length_app, length_last_n.
  change (List.length (u8 "+380")) with 4%nat. cbn [List.length]. lia.
Qed.

Lemma parse_phone_length_witness :
  (5 <= List.length (parse_phone (u8 "7")))%nat.
Proof.
  apply (proj2 (parse_phone_length (u8 "7"))).
  vm_compute. discriminate.
Defined.

End PhoneLaws.

(** ** More about [float] and [parse_price] *)

Module FloatLaws.
Import Py Spec FloatFacts.

Lemma iter_xO_digits (d p : positive) :
  Zdigits2 (Z.pos (Pos.iter xO p d)) = Zdigits2 (Z.pos p) + Z.pos d.
Proof.
  induction d as [|d IH] using Pos.peano_ind.
  - cbn [Pos.iter Zdigits2 digits2_pos]. rewrite Pos2Z.inj_succ. lia.
  - rewrite Pos.iter_succ. cbn [Zdigits2 digits2_pos] in *.
    rewrite !Pos2Z.inj_succ, IH. lia.
Qed.

(** Rounding does not add more than one digit to the magnitude. *)
Lemma binary_round_aux_magnitude (sx : bool) (m e : Z) (l : location) :
  0 <= m -> -1074 <= Zdigits2 m + e ->
  match binary_round_aux prec emax sx m e l with
  | S754_finite _ mz ez => Zdigits2 (Z.pos mz) + ez <= Zdigits2 m + e + 1
  | _ => True
  end.
Proof.
  intros Hm HD. unfold binary_round_aux.
  destruct (shr_fexp_bounds m e l Hm) as [H1 [D1 [E1 S1]]].
  destruct (shr_fexp prec emax m e l) as [mrs' e']. cbn [fst snd] in *.
  pose proof (round_nearest_even_nonneg _ (loc_of_shr_record mrs') H1) as H2.
  pose proof (round_nearest_even_digits _ (loc_of_shr_record mrs') H1) as D2.
  pose proof (Zdigits2_nonneg
                (round_nearest_even (shr_m mrs') (loc_of_shr_record mrs')))
    as N2.
  destruct (shr_fexp_bounds _ e' loc_Exact H2) as [H3 [D3 [E3 S3]]].
  destruct (shr_fexp prec emax
              (round_nearest_even (shr_m mrs') (loc_of_shr_record mrs'))
              e' loc_Exact) as [mrs'' e'']. cbn [fst snd] in *.
  rewrite !fexp_eq in *.
  destruct (shr_m mrs'') as [|p|p]; try exact I.
  destruct (e'' <=? emax - prec); [|exact I]. lia.
Qed.

(** An [int] below [2 ^ 1021] converts to a finite [float] of about its
    magnitude. *)
Lemma float_of_int_finite (n : Z) :
  0 <= n < 2 ^ 1021 ->
  exists x, float_of_int n = Returns x /\ not_negative x = true /\
            match x with
            | S754_zero _ => True
            | S754_finite _ m e =>
              Zdigits2 (Z.pos m) <= 53 /\ e <= 971 /\
              Zdigits2 (Z.pos m) + e <= 1022
            | _ => False
            end.
Proof.
  intros [H0 Hn]. destruct n as [|p|p]; [| |lia].
  { exists (S754_zero false). now repeat split. }
  assert (Zdigits2 (Z.pos p) <= 1021) as Hd
    by (apply Zdigits2_le; lia).
  pose proof (Zdigits2_nonneg (Z.pos p)) as Hd0.
  unfold float_of_int, binary_normalize, binary_round.
  assert (exists mz ez,
            shl_align p 0 (fexp prec emax (Z.pos (digits2_pos p) + 0))
            = (mz, ez) /\ ez <= 0 /\
            Zdigits2 (Z.pos mz) + ez = Zdigits2 (Z.pos p)) as [mz [ez [-> [He Hs]]]].
  { unfold shl_align. rewrite fexp_eq.
    change (Z.pos (digits2_pos p)) with (Zdigits2 (Z.pos p)).
    destruct (Z.max (Zdigits2 (Z.pos p) + 0 - 53) (-1074) - 0)
      as [|q|q] eqn:E.
    - exists p, 0. repeat split; lia.
    - exists p, 0. repeat split; lia.
    - exists (Pos.iter xO p q),
             (Z.max (Zdigits2 (Z.pos p) + 0 - 53) (-1074)).
      split; [reflexivity|]. rewrite iter_xO_digits. lia. }
  pose proof (binary_round_aux_finite false (Z.pos mz) ez loc_Exact
                ltac:(lia) ltac:(lia) ltac:(lia)) as F.
  pose proof (binary_round_aux_canonical false (Z.pos mz) ez loc_Exact
                ltac:(lia)) as C.
  pose proof (binary_round_aux_magnitude false (Z.pos mz) ez loc_Exact
                ltac:(lia) ltac:(lia)) as G.
  destruct (binary_round_aux prec emax false (Z.pos mz) ez loc_Exact)
    as [s|s| |s m e]; try contradiction.
  - eexists. split; [reflexivity|]. now split.
  - subst s. eexists. split; [reflexivity|]. split; [reflexivity|]. lia.
Qed.

(** The product of a finite value below [2 ^ 1022] by 1.1 is finite. *)
Lemma SFmul_1_1_finite (m : positive) (e : Z) :
  e <= 971 -> Zdigits2 (Z.pos m) + e <= 1022 ->
  match SFmul prec emax (S754_finite false m e) float_1_1 with
  | S754_zero _ | S754_finite false _ _ => True
  | _ => False
  end.
Proof.
  intros He Hs. unfold SFmul, float_1_1.
  pose proof (Zdigits2_nonneg (Z.pos m)) as Hd0.
  assert (Zdigits2 (Z.pos (m * 4953959590107546))
          <= Zdigits2 (Z.pos m) + 53) as Hd.
  { apply Zdigits2_le; [lia | lia |].
    rewrite Pos2Z.inj_mul, Z.pow_add_r by lia.
    pose proof (Zdigits2_lt_pow (Z.pos m) ltac:(lia)) as Hlt.
    change (2 ^ 53) with 9007199254740992. nia. }
  pose proof (binary_round_aux_finite (xorb false false)
                (Z.pos (m * 4953959590107546)) (e + -52) loc_Exact
                ltac:(lia) ltac:(lia) ltac:(lia)) as F.
  destruct (binary_round_aux prec emax (xorb false false)
              (Z.pos (m * 4953959590107546)) (e + -52) loc_Exact)
    as [s|s| |s mz ez]; try contradiction; [exact I|].
  now subst s.
Qed.

End FloatLaws.

Module PriceLaws.
Import Py Re Utils Spec PyFacts FloatFacts FloatLaws PriceSpec.

(** [parse_price] after its first test: the test for the empty text and
    for ["0"] changes nothing. *)
Lemma parse_price_clean (s : pystr) :
  parse_price s =
  let clean_price := remove_spaces (strip s) in
  match search price_re clean_price with
  | None => Returns 0
  | Some number_match =>
    try_except
      (bind (int_group number_match 1) (fun amount =>
       if contains clean_price (u8 "€") then
         bind (int_mul_float amount float_1_1) int_of_float
       else if contains clean_price (u8 "грн") then
         bind (int_div_float amount float_41_22) int_of_float
       else Returns amount))
      caught (Returns 0)
  end.
Proof.
  unfold parse_price.
  destruct (is_empty s || str_eqb s (u8 "0")) eqn:E; [|reflexivity].
  apply orb_true_iff in E. destruct E as [E | E].
  - destruct s; [reflexivity | discriminate E].
  - apply str_eqb_eq in E. subst s. reflexivity.
Qed.

(** X6. [parse_price] reads the cleaned text only: two texts that are
    equal once the white space around them and every space are removed
    give the same result; the shortcut for the empty text and for ["0"]
    agrees with it. *)
Theorem parse_price_same_clean (s t : pystr) :
  remove_spaces (strip s) = remove_spaces (strip t) ->
  parse_price s = parse_price t.
Proof. intros H. now rewrite !parse_price_clean, H. Qed.

Lemma parse_price_same_clean_witness :
  parse_price (u8 " 24 200 € ") = parse_price (u8 "24200€") /\
  parse_price (u8 " 0 ") = parse_price (u8 "0").
Proof.
  split.
  - apply (parse_price_same_clean (u8 " 24 200 € ") (u8 "24200€")).
    vm_compute. reflexivity.
  - apply (parse_price_same_clean (u8 " 0 ") (u8 "0")).
    vm_compute. reflexivity.
Defined.

(** X7. For every price text whose cleaned form carries the Euro sign, with
    or without the Hryvnia token, and whose amount (the first numeric run)
    has no more digits than [int] accepts and is below [2 ^ 1021],
    [parse_price] returns [int(amount * 1.1)]: the largest integer not
    above the binary64 product of the amount by the [float] nearest to
    1.1. *)
Theorem parse_price_euro (s pre ds post : pystr) :
  first_run (remove_spaces (strip s)) pre ds post ->
  contains (remove_spaces (strip s)) (u8 "€") = true ->
  (List.length ds <= max_str_digits)%nat ->
  decimal_number ds < 2 ^ 1021 ->
  exists (x : float) (n : Z) (v : Q),
    float_of_int (decimal_number ds) = Returns x /\
    parse_price s = Returns n /\
    float_to_Q (SFmul prec emax x float_1_1) = Some v /\
    (inject_Z n <= v)%Q /\ (v < inject_Z n + 1)%Q.
Proof.
  intros Hrun Heur Hlen Hlt.
  destruct (float_of_int_finite (decimal_number ds)
              (conj (decimal_number_nonneg ds) Hlt)) as [x [Hx [Hnn Hfin]]].
  assert (not_negative (SFmul prec emax x float_1_1) = true) as Hq.
  { apply SFmul_not_negative; [exact Hnn | | exact I].
    destruct x; try exact I; contradiction. }
  assert (parse_price s = int_of_float (SFmul prec emax x float_1_1)) as E.
  { rewrite (parse_price_first_run _ _ _ _ Hrun),
            (within_max_str_digits ds Hlen), Heur.
    unfold int_mul_float. rewrite Hx. cbn [bind].
    now apply try_except_not_negative. }
  assert (exists n, int_of_float (SFmul prec emax x float_1_1) = Returns n)
    as [n Hn].
  { destruct x as [sx|sx| |sx mx ex]; try contradiction.
    - now exists 0.
    - simpl in Hnn. apply negb_true_iff in Hnn. subst sx.
      destruct Hfin as [_ [He Hs]].
      pose proof (SFmul_1_1_finite mx ex He Hs) as Hf.
      destruct (SFmul prec emax (S754_finite false mx ex) float_1_1)
        as [s0|s0| |s0 m0 e0]; try contradiction; eexists; reflexivity. }
  destruct (int_of_float_truncates _ n Hq Hn) as [v [Hv [Hle Hlt']]].
  exists x, n, v. rewrite E. now repeat split.
Qed.

Lemma parse_price_euro_witness :
  exists (x : float) (n : Z) (v : Q),
    float_of_int 24200 = Returns x /\
    parse_price (u8 "24 200 € (1 000 000 грн)") = Returns n /\
    float_to_Q (SFmul prec emax x float_1_1) = Some v /\
    (inject_Z n <= v)%Q /\ (v < inject_Z n + 1)%Q.
Proof.
  apply (parse_price_euro (u8 "24 200 € (1 000 000 грн)") []
           (u8 "24200") (u8 "€(1000000грн)")).
  - vm_compute. repeat split; discriminate.
  - vm_compute. reflexivity.
  - vm_compute. lia.
  - vm_compute. reflexivity.
Defined.

End PriceLaws.

(** ** More about [parse_odometer], and texts without a digit *)

Module OdometerLaws.
Import Py Re Utils Spec PyFacts PriceSpec OdometerSpec.

(** No lowercase mapping reaches a block of decimal digits. *)
Lemma lower_runs_not_decimal :
  forallb (fun '(_, n, step, lo') =>
             forallb (fun z => (lo' + n * step <=? z) || (z + 10 <=? lo'))%N
                     decimal_zeros) lower_runs = true.
Proof. vm_compute. reflexivity. Qed.

Lemma lower_char_not_decimal (c : char) :
  is_decimal c = false -> is_decimal (lower_char c) = false.
Proof.
  intros Hc. unfold lower_char.
  destruct (find _ lower_runs) as [[[[lo n] step] lo']|] eqn:F;
    [|exact Hc].
  apply find_some in F. destruct F as [Hin HP].
  unfold is_decimal, decimal_value.
  destruct (find _ decimal_zeros) as [z|] eqn:Fz; [|reflexivity].
  exfalso. apply find_some in Fz. destruct Fz as [Hz Hzp].
  pose proof lower_runs_not_decimal as T.
  rewrite forallb_forall in T. specialize (T _ Hin). cbv beta iota in T.
  rewrite forallb_forall in T. specialize (T _ Hz).
  apply andb_true_iff in HP. destruct HP as [HP _].
  apply andb_true_iff in HP. destruct HP as [H1 H2].
  apply andb_true_iff in Hzp. destruct Hzp as [H3 H4].
  apply N.leb_le in H1, H3. apply N.ltb_lt in H2, H4.
  apply orb_true_iff in T. destruct T as [T | T]; apply N.leb_le in T; lia.
Qed.

Lemma no_decimal_lower (s : pystr) :
  no_decimal s = true -> no_decimal (lower s) = true.
Proof.
  unfold no_decimal, lower. induction s as [|c s IH]; [reflexivity|].
  cbn [forallb flat_map]. intros H. apply andb_true_iff in H.
  destruct H as [Hc Hs]. rewrite forallb_app.
  apply andb_true_iff. split; [|exact (IH Hs)].
  destruct (c =? 304)%N; [reflexivity|].
  cbn [forallb]. rewrite andb_true_r.
  apply negb_true_iff in Hc. now rewrite (lower_char_not_decimal c Hc).
Qed.

Lemma In_lstrip_with (sp : char -> bool) (c : char) (s : pystr) :
  In c (lstrip_with sp s) -> In c s.
Proof.
  induction s as [|a s IH]; [exact (fun H => H)|].
  cbn [lstrip_with]. destruct (sp a); [|exact (fun H => H)].
  intros H. right. now apply IH.
Qed.

Lemma no_decimal_clean (s : pystr) :
  no_decimal s = true -> no_decimal (remove_spaces (strip s)) = true.
Proof.
  unfold no_decimal. rewrite !forallb_forall. intros H c Hc. apply H.
  unfold remove_spaces in Hc. apply filter_In in Hc. destruct Hc as [Hc _].
  unfold strip, strip_with, rstrip_with in Hc.
  apply in_rev, In_lstrip_with, in_rev, In_lstrip_with in Hc. exact Hc.
Qed.

(** X8. Absence of data is zero: for a text with no decimal digit
    [parse_price] and [parse_odometer] both return 0. *)
Theorem normalizers_no_digit (s : pystr) :
  no_decimal s = true ->
  parse_price s = Returns 0 /\ parse_odometer s = Returns 0.
Proof.
  intros H. split.
  - apply parse_price_no_decimal, no_decimal_clean, H.
  - apply parse_odometer_no_number, no_decimal_lower, H.
Qed.

Lemma normalizers_no_digit_witness :
  parse_price (u8 "Договірна") = Returns 0 /\
  parse_odometer (u8 "Без пробігу") = Returns 0.
Proof.
  split.
  - apply (proj1 (normalizers_no_digit (u8 "Договірна") eq_refl)).
  - apply (proj2 (normalizers_no_digit (u8 "Без пробігу") eq_refl)).
Defined.

(** X9. [parse_odometer] raises exactly for the texts whose first numeric
    run has more digits than [int] accepts, or is followed by white space
    and another digit; [ValueError] is the only exception, and every other
    text gives an integer. *)
Theorem parse_odometer_raises_iff (s : pystr) :
  ((exists e, parse_odometer s = Raises e) <->
   exists pre ds post,
     first_run (lower s) pre ds post /\
     ((max_str_digits < List.length ds)%nat \/
      exists ws y rest,
        post = ws ++ y :: rest /\ ws <> [] /\
        all_space ws = true /\ is_decimal y = true)) /\
  (forall e, parse_odometer s = Raises e -> e = ValueError).
Proof.
  split; [split|].
  - intros [e He].
    destruct (parse_odometer_cases s)
      as [[_ E] | [pre [ds [ws [r [Hrun [Hws [Hr [[Hne [Hd E]] | [Hd E]]]]]]]]]].
    + rewrite E in He. discriminate He.
    + destruct r as [|y rest]; [discriminate Hd|].
      cbn [not_decimal_next] in Hd. apply negb_false_iff in Hd.
      exists pre, ds, (ws ++ y :: rest). split; [exact Hrun|]. right.
      now exists ws, y, rest.
    + exists pre, ds, (ws ++ r). split; [exact Hrun|]. left.
      rewrite E in He.
      destruct (max_str_digits <? List.length ds)%nat eqn:L;
        [now apply Nat.ltb_lt | discriminate He].
  - intros [pre [ds [post [Hrun [Hlen | [ws [y [rest [-> [Hne [Hws Hy]]]]]]]]]]];
      exists ValueError.
    + exact (parse_odometer_long_run s pre ds post Hrun Hlen).
    + exact (parse_odometer_spaced s pre ds ws rest y Hrun Hne Hws Hy).
  - intros e He.
    destruct (parse_odometer_outcomes s) as [[v [E _]] | E];
      rewrite E in He; [discriminate He | now injection He].
Qed.

Lemma parse_odometer_raises_iff_witness :
  exists e, parse_odometer (u8 "Пробіг 120 500 км") = Raises e.
Proof.
  apply (proj2 (proj1 (parse_odometer_raises_iff (u8 "Пробіг 120 500 км")))).
  exists (u8 "пробіг "), (u8 "120"), (u8 " 500 км").
  split; [vm_compute; repeat split; discriminate|].
  right. exists (u8 " "), 53%N, (u8 "00 км").
  vm_compute. repeat split; discriminate.
Defined.

(** X10. A text whose first numeric run has no more digits than [int]
    accepts and is not followed by white space and another digit gives the
    number of that run, multiplied by 1000 exactly when [тис] comes next,
    after white space or none; letter case does not matter. *)
Theorem parse_odometer_first_run (s pre ds ws r : pystr) :
  first_run (lower s) pre ds (ws ++ r) ->
  all_space ws = true -> not_space_next r = true ->
  not_decimal_next r = true ->
  (List.length ds <= max_str_digits)%nat ->
  parse_odometer s =
  Returns (if startswith r (u8 "тис") then decimal_number ds * 1000
           else decimal_number ds).
Proof.
  intros Hrun Hws Hsp Hr Hlen.
  now rewrite (parse_odometer_single s pre ds ws r Hrun Hws Hsp Hr),
              (within_max_str_digits ds Hlen).
Qed.

Lemma parse_odometer_first_run_witness :
  parse_odometer (u8 "Пробіг: 95 ТИС. км") = Returns 95000 /\
  parse_odometer (u8 "120500км пробіг") = Returns 120500.
Proof.
  split.
  - apply (parse_odometer_first_run (u8 "Пробіг: 95 ТИС. км")
             (u8 "пробіг: ") (u8 "95") (u8 " ") (u8 "тис. км"));
      vm_compute; try lia; repeat split; discriminate.
  - apply (parse_odometer_first_run (u8 "120500км пробіг")
             [] (u8 "120500") [] (u8 "км пробіг"));
      vm_compute; try lia; repeat split; discriminate.
Defined.

End OdometerLaws.

(** ** More about [fetch] *)

Module FetchLaws.
Import Py Scraper Spec Terms FetchSpec.

(** The run of [fetch] up to the first attempt that succeeds. *)
Lemma fetch_success_run (retry_attempts : Z)
      (env : nat -> attempt_env) (target : pystr) (j : nat)
      (body : pystr) :
  (j < Z.to_nat retry_attempts)%nat ->
  (forall i, (i < j)%nat -> succeeded (answer (env i)) = false) ->
  answer (env j) = Response 200 (Some body) ->
  fetch retry_attempts env target =
  (flat_map (failed_attempt_events env target) (seq 0 j) ++
   [Sleep (Float (random_uniform float_0_5 float_1_5 (sample (env j))));
    Get target (random_choice user_agents (choice (env j)))],
   Some body).
Proof.
  intros Hj Hfail Hok. unfold fetch.
  assert (seq 0 (Z.to_nat retry_attempts)
          = seq 0 j ++ j :: seq (S j) (Z.to_nat retry_attempts - S j)) as ->.
  { replace (Z.to_nat retry_attempts)
      with (j + S (Z.to_nat retry_attempts - S j))%nat at 1 by lia.
    now rewrite seq_app. }
  apply fetch_loop_first_success; [|exact Hok].
  intros i Hi. apply Hfail. apply in_seq in Hi. lia.
Qed.

(** X19. [fetch] returns the body of the first attempt that succeeds, and
    stops there: after [j] attempts that do not succeed and one that does,
    the trace holds what the [j] failures left and the pacing sleep and the
    request of the last attempt, [j + 1] requests in all. *)
Theorem fetch_first_success (retry_attempts : Z)
        (env : nat -> attempt_env) (target : pystr) (j : nat)
        (body : pystr) :
  (j < Z.to_nat retry_attempts)%nat ->
  (forall i, (i < j)%nat -> succeeded (answer (env i)) = false) ->
  answer (env j) = Response 200 (Some body) ->
  fetch retry_attempts env target =
  (flat_map (failed_attempt_events env target) (seq 0 j) ++
   [Sleep (Float (random_uniform float_0_5 float_1_5 (sample (env j))));
    Get target (random_choice user_agents (choice (env j)))],
   Some body) /\
  requests (fst (fetch retry_attempts env target)) = S j.
Proof.
  intros Hj Hfail Hok.
  rewrite (fetch_success_run retry_attempts env target j body Hj Hfail Hok).
  split; [reflexivity|]. cbn [fst].
  rewrite requests_app, requests_failed_attempts, length_seq.
  cbn. lia.
Qed.

Lemma fetch_first_success_witness :
  fetch 2 (fun i => {| choice := i; sample := float_0_5;
                       answer := if Nat.eqb i 0 then Response 503 None
                                 else Response 200 (Some (u8 "<html>")) |})
        (u8 "https://auto.ria.com/uk/car/used/?page=1") =
  ([Sleep (Float (S754_finite false 4503599627370496 (-52)));
    Get (u8 "https://auto.ria.com/uk/car/used/?page=1")
        (u8 "Mozilla/5.0 (Windows NT 10.0; Win64; x64) Chrome/91.0.4472.124");
    Sleep (Float (S754_finite false 4503599627370496 (-52)));
    Get (u8 "https://auto.ria.com/uk/car/used/?page=1")
        (u8 "Mozilla/5.0 (Windows NT 10.0; Win64; x64) Firefox/89.0")],
   Some (u8 "<html>")).
Proof.
  set (env := fun i => {| choice := i; sample := float_0_5;
                          answer := if Nat.eqb i 0 then Response 503 None
                                    else Response 200 (Some (u8 "<html>")) |}).
  assert (forall i, (i < 1)%nat -> succeeded (answer (env i)) = false) as H.
  { intros [|i] Hi; [reflexivity | lia]. }
  rewrite (proj1 (fetch_first_success 2 env
                    (u8 "https://auto.ria.com/uk/car/used/?page=1")
                    1 (u8 "<html>") ltac:(simpl; lia) H eq_refl)).
  vm_compute. reflexivity.
Defined.

(** What one attempt leaves: the pacing sleep, the request, and at most
    one event that is not a request. *)
Lemma fetch_attempt_shape (env : nat -> attempt_env) (target : pystr)
      (i : nat) :
  exists x tail,
    fst (fetch_attempt env target i) =
    Sleep (Float x) :: Get target (random_choice user_agents (choice (env i)))
          :: tail /\
    (tail = [] \/ (exists n, tail = [Sleep (Int n)]) \/
     exists n, tail = [LogAttemptFailed n]).
Proof.
  unfold fetch_attempt.
  destruct (answer (env i)) as [status [body|]|].
  - destruct (status =? 200); [|destruct (status =? 429)];
      eexists _, _; (split; [reflexivity|]); eauto.
  - destruct (status =? 200); [|destruct (status =? 429)];
      eexists _, _; (split; [reflexivity|]); eauto.
  - eexists _, _. split; [reflexivity|]. eauto.
Qed.

Lemma random_choice_user_agents (i : nat) :
  In (random_choice user_agents i) user_agents.
Proof.
  unfold random_choice. apply nth_In.
  apply Nat.mod_upper_bound. discriminate.
Qed.

Lemma fetch_loop_paced (env : nat -> attempt_env) (target : pystr)
      (attempts : list nat) :
  paced false (fst (fetch_loop env target attempts)) = true /\
  forall tgt ua, In (Get tgt ua) (fst (fetch_loop env target attempts)) ->
                 tgt = target /\ In ua user_agents.
Proof.
  induction attempts as [|i rest [IH1 IH2]]; [split; [reflexivity|]|].
  { intros tgt ua []. }
  cbn [fetch_loop].
  destruct (fetch_attempt_shape env target i) as [x [tail [E Ht]]].
  destruct (fetch_attempt env target i) as [evs [body|]];
    cbn [fst] in E; subst evs.
  - cbn [fst]. split.
    + destruct Ht as [-> | [[n ->] | [n ->]]]; reflexivity.
    + intros tgt ua [H | [H | H]]; [discriminate H | |].
      * injection H as <- <-. split; [reflexivity|].
        apply random_choice_user_agents.
      * destruct Ht as [-> | [[n ->] | [n ->]]];
          [destruct H | destruct H as [H | []]; discriminate H
           | destruct H as [H | []]; discriminate H].
  - destruct (fetch_loop env target rest) as [evs' r]. cbn [fst] in *.
    split.
    + destruct Ht as [-> | [[n ->] | [n ->]]]; exact IH1.
    + intros tgt ua H. cbn [app In] in H.
      destruct H as [H | [H | H]]; [discriminate H | |].
      * injection H as <- <-. split; [reflexivity|].
        apply random_choice_user_agents.
      * apply in_app_iff in H. destruct H as [H | H]; [|now apply IH2].
        destruct Ht as [-> | [[n ->] | [n ->]]];
          [destruct H | destruct H as [H | []]; discriminate H
           | destruct H as [H | []]; discriminate H].
Qed.

(** X20. [fetch] never sends a request without the pacing sleep right
    before it, and every request goes to the URL asked for, with one of
    the two user agents. *)
Theorem fetch_requests_paced (retry_attempts : Z)
        (env : nat -> attempt_env) (target : pystr) :
  paced false (fst (fetch retry_attempts env target)) = true /\
  forall tgt ua,
    In (Get tgt ua) (fst (fetch retry_attempts env target)) ->
    tgt = target /\ In ua user_agents.
Proof. unfold fetch. apply fetch_loop_paced. Qed.

Lemma fetch_requests_paced_witness :
  u8 "https://auto.ria.com/uk/car/used/?page=1"
  = u8 "https://auto.ria.com/uk/car/used/?page=1" /\
  In (u8 "Mozilla/5.0 (Windows NT 10.0; Win64; x64) Firefox/89.0")
     user_agents.
Proof.
  apply (proj2 (fetch_requests_paced 1
                  (fun _ => {| choice := 1; sample := float_0_5;
                               answer := Fault |})
                  (u8 "https://auto.ria.com/uk/car/used/?page=1"))).
  vm_compute. right. left. reflexivity.
Defined.

End FetchLaws.

(** ** More about the store: [get_db], [save_cars], [car_exists] *)

Module StoreLaws.
Import Py Database Scraper Extractor Spec Terms PyFacts StoreSpec.

(** X11. [save_cars] stores a batch as a whole or not at all, whatever
    fails and wherever: afterwards the table holds what it held, or that
    and the whole batch after it; and it keeps the URLs of the table
    distinct. *)
Theorem save_cars_all_or_nothing (cars : list car) (w : world) :
  (rows (snd (save_cars cars w)) = rows w \/
   rows (snd (save_cars cars w)) = rows w ++ cars /\
   fails w (List.length (ops w)) = false) /\
  (unique_urls (map url (rows w)) = true ->
   unique_urls (map url (rows (snd (save_cars cars w)))) = true).
Proof.
  destruct w as [rs pend lg os fl]. cbn [ops rows fails].
  db_run fl; cbn [snd rows]; rewrite ?app_nil_r;
    (split; [first [now left | now right] | auto]).
Qed.

Lemma save_cars_all_or_nothing_witness :
  unique_urls
    (map url
       (rows (snd (save_cars [example_car (u8 "/auto_a_1.html")]
                             (example_world [] (fun i => Nat.eqb i 1))))))
  = true.
Proof.
  apply (proj2 (save_cars_all_or_nothing
                  [example_car (u8 "/auto_a_1.html")]
                  (example_world [] (fun i => Nat.eqb i 1)))).
  reflexivity.
Defined.

(** *** [get_db] *)

Lemma last_op_app (l : list db_op) (op : db_op) :
  last_op (l ++ [op]) = Some op.
Proof. unfold last_op. now rewrite rev_app_distr. Qed.

(** X12. The scope of [get_db] closes the session on every path, whatever
    its body does and whatever fails; and an exception of the body is never
    swallowed: after a rollback the scope raises, and the table is as the
    body left it. *)
Theorem get_db_closes_and_reraises {A : Type} (body : M A) (w : world) :
  last_op (ops (snd (get_db body w))) = Some Close /\
  (forall e w1,
     body (snd (async_session w)) = (Raises e, w1) ->
     (exists e', fst (get_db body w) = Raises e') /\
     rows (snd (get_db body w)) = rows w1 /\
     In Rollback (ops (snd (get_db body w)))).
Proof.
  unfold get_db, try_finally, try_catch, mbind.
  destruct (async_session w) as [[[]|e0] w0] eqn:E0;
    [|unfold async_session, mbind, get_rows, set_rows in E0; discriminate E0].
  cbn [snd].
  destruct (body w0) as [[a|e] w1] eqn:Eb.
  - split; [|intros e w2 H; discriminate H].
    destruct w1 as [rs pend lg os fl].
    db_run fl; cbn [snd ops]; rewrite ?app_assoc; apply last_op_app.
  - destruct w1 as [rs pend lg os fl]. split.
    + db_run fl; cbn [snd ops]; rewrite ?app_assoc; apply last_op_app.
    + intros e1 w2 H. injection H as <- <-.
      db_run fl; cbn [fst snd ops rows];
        (split; [eexists; reflexivity|]; split; [reflexivity|]);
        rewrite !in_app_iff; cbn [In]; tauto.
Qed.

Lemma get_db_closes_and_reraises_witness :
  (exists e',
     fst (get_db (raise ValueError : M unit)
                 (example_world [] (fun _ => false))) = Raises e') /\
  In Rollback
     (ops (snd (get_db (raise ValueError : M unit)
                       (example_world [] (fun _ => false))))).
Proof.
  destruct (proj2 (get_db_closes_and_reraises (raise ValueError : M unit)
                     (example_world [] (fun _ => false)))
                  ValueError _ eq_refl) as [H1 [_ H3]].
  exact (conj H1 H3).
Defined.

(** *** [car_exists] *)

Ltac page_step :=
  cbv beta iota zeta delta
      [car_exists execute_select_car_by_url scalar_one_or_none put_store
       logger_note store journal trace fetches net
       get_db try_catch try_finally mbind async_session add_all
       commit rollback close round_trip get_rows get_pending set_rows ret
       raise logger_error ops rows log fails pending fst snd];
  cbn [app].

Ltac page_run fl :=
  repeat (page_step; rewrite ?length_app; cbn [List.length];
          match goal with
          | |- context [if fl ?n then _ else _] => destruct (fl n) eqn:?
          | |- context [if unique_urls ?l then _ else _] =>
            destruct (unique_urls l) eqn:?
          | |- context [match filter ?f ?l with _ => _ end] =>
            let c := fresh "c" in
            let c' := fresh "c" in
            let l' := fresh "l" in
            destruct (filter f l) as [|c [|c' l']] eqn:?
          end);
  page_step.

(** With distinct URLs at most one row has a given URL. *)
Lemma unique_urls_filter (u : pystr) (rs : list car) :
  unique_urls (map url rs) = true ->
  filter (fun c => str_eqb (url c) u) rs = [] /\
  set_mem u (map url rs) = false \/
  (exists c, filter (fun c => str_eqb (url c) u) rs = [c]) /\
  set_mem u (map url rs) = true.
Proof.
  unfold set_mem.
  induction rs as [|c rs IH]; [now left|].
  cbn [map unique_urls filter existsb]. intros H.
  apply andb_true_iff in H. destruct H as [Hc Hu].
  apply negb_true_iff in Hc.
  destruct (str_eqb (url c) u) eqn:E.
  - apply str_eqb_eq in E. subst u. right. rewrite str_eqb_refl.
    split; [|reflexivity]. exists c. f_equal.
    destruct (IH Hu) as [[H _] | [_ H]]; [exact H|].
    unfold set_mem in H. congruence.
  - assert (str_eqb u (url c) = false) as E'.
    { apply str_eqb_neq. apply str_eqb_neq in E. congruence. }
    rewrite E'. cbn [orb]. exact (IH Hu).
Qed.

(** X13. [car_exists] never reports a car that the table does not hold,
    whatever fails: it answers [True] only for a URL of the table. *)
Theorem car_exists_true_is_stored (u : pystr) (st : state) :
  fst (car_exists u st) = true -> In u (stored_urls (store st)).
Proof.
  destruct st as [[rs pend lg os fl] jn tr fe nt].
  unfold stored_urls. cbn [store rows].
  page_run fl; intros H; try discriminate H.
  all: match goal with
       | E : filter ?f ?l = [?c] |- _ =>
         assert (In c (filter f l)) as Hin by (rewrite E; now left);
         apply filter_In in Hin; destruct Hin as [Hin Hu];
         apply str_eqb_eq in Hu; subst u; now apply in_map
       end.
Qed.

Lemma car_exists_true_is_stored_witness :
  In (u8 "/auto_a_1.html")
     (stored_urls
        (example_world [example_car (u8 "/auto_a_1.html")]
                       (fun _ => false))).
Proof.
  apply (car_exists_true_is_stored (u8 "/auto_a_1.html")
           (example_state
              (example_world [example_car (u8 "/auto_a_1.html")]
                             (fun _ => false))
              no_network)).
  vm_compute. reflexivity.
Defined.

(** The run of [car_exists] when nothing fails. *)
Lemma car_exists_run (u : pystr) (st : state) :
  let n := List.length (ops (store st)) in
  fails (store st) n = false -> fails (store st) (n + 1)%nat = false ->
  fails (store st) (n + 2)%nat = false ->
  unique_urls (stored_urls (store st)) = true ->
  car_exists u st =
  (set_mem u (stored_urls (store st)),
   put_store {| rows := rows (store st); pending := [];
                log := log (store st);
                ops := ops (store st) ++ [Execute; Commit; Close];
                fails := fails (store st) |} st).
Proof.
  destruct st as [[rs pend lg os fl] jn tr fe nt].
  unfold stored_urls. cbn [store rows ops fails log]. intros H0 H1 H2 Hu.
  page_step. rewrite H0. page_step.
  destruct (unique_urls_filter u rs Hu) as [[-> ->] | [[c ->] ->]];
    page_step; rewrite length_app; cbn [List.length]; rewrite H1;
    page_step; rewrite app_nil_r, Hu; page_step;
    rewrite !length_app; cbn [List.length];
    replace (List.length os + 1 + 1)%nat with (List.length os + 2)%nat
      by lia;
    rewrite H2; page_step; now rewrite <- !app_assoc.
Qed.

(** X14. When its three round trips work and the URLs of the table are
    distinct, [car_exists] answers whether the URL is in the table, logs
    nothing and leaves the select, the commit and the closing of the
    session behind. *)
Theorem car_exists_working (u : pystr) (st : state) :
  let n := List.length (ops (store st)) in
  fails (store st) n = false -> fails (store st) (n + 1)%nat = false ->
  fails (store st) (n + 2)%nat = false ->
  unique_urls (stored_urls (store st)) = true ->
  (fst (car_exists u st) = true <-> In u (stored_urls (store st))) /\
  journal (snd (car_exists u st)) = journal st /\
  ops (store (snd (car_exists u st)))
  = ops (store st) ++ [Execute; Commit; Close].
Proof.
  intros n H0 H1 H2 Hu. rewrite (car_exists_run u st H0 H1 H2 Hu).
  cbn [fst snd]. split; [apply set_mem_In|]. now split.
Qed.

Lemma car_exists_working_witness :
  fst (car_exists (u8 "/auto_a_1.html")
         (example_state
            (example_world [example_car (u8 "/auto_a_1.html")]
                           (fun _ => false))
            no_network)) = true.
Proof.
  apply (proj1 (car_exists_working (u8 "/auto_a_1.html")
                  (example_state
                     (example_world [example_car (u8 "/auto_a_1.html")]
                                    (fun _ => false))
                     no_network)
                  eq_refl eq_refl eq_refl eq_refl)).
  left. reflexivity.
Defined.

(** X15. A failed check reads as a car that is not there: when one of the
    three round trips fails, [car_exists] answers [False] and logs the
    error; nothing is raised to the caller. *)
Theorem car_exists_fault (u : pystr) (st : state) :
  let n := List.length (ops (store st)) in
  fails (store st) n = true \/ fails (store st) (n + 1)%nat = true \/
  fails (store st) (n + 2)%nat = true ->
  fst (car_exists u st) = false /\
  journal (snd (car_exists u st))
  = journal st ++ [ErrorCheckingCarExistence].
Proof.
  destruct st as [[rs pend lg os fl] jn tr fe nt].
  cbn [store ops fails journal]. intros H.
  replace (List.length os + 2)%nat with (List.length os + 1 + 1)%nat in H
    by lia.
  page_run fl; try (split; reflexivity);
    exfalso; destruct H as [H | [H | H]]; congruence.
Qed.

Lemma car_exists_fault_witness :
  fst (car_exists (u8 "/auto_a_1.html")
         (example_state
            (example_world [example_car (u8 "/auto_a_1.html")]
                           (fun i => Nat.eqb i 1))
            no_network)) = false.
Proof.
  apply (proj1 (car_exists_fault (u8 "/auto_a_1.html")
                  (example_state
                     (example_world [example_car (u8 "/auto_a_1.html")]
                                    (fun i => Nat.eqb i 1))
                     no_network)
                  (or_intror (or_introl eq_refl)))).
Defined.

(** *** What only reads *)

Ltac read_run fl :=
  unfold filter_new, bulk_check_existence;
  repeat (db_step; rewrite ?length_app; cbn [List.length];
          match goal with
          | |- context [if fl ?n then _ else _] => destruct (fl n) eqn:?
          | |- context [if unique_urls ?l then _ else _] =>
            destruct (unique_urls l) eqn:?
          end);
  db_step.

(** X16. The checks never write: [car_exists], [bulk_check_existence] and
    the filter leave the table as it is, whatever fails; and [car_exists]
    sends no request. *)
Theorem checks_keep_the_table (u : pystr) (urls : list pystr) (st : state) :
  rows (store (snd (car_exists u st))) = rows (store st) /\
  trace (snd (car_exists u st)) = trace st /\
  fetches (snd (car_exists u st)) = fetches st /\
  rows (snd (bulk_check_existence urls (store st))) = rows (store st) /\
  rows (snd (filter_new urls (store st))) = rows (store st).
Proof.
  destruct st as [[rs pend lg os fl] jn tr fe nt]. cbn [store rows].
  split; [|split; [|split; [|split]]].
  - page_run fl; rewrite ?app_nil_r; reflexivity.
  - page_run fl; reflexivity.
  - page_run fl; reflexivity.
  - read_run fl; cbn [snd rows]; rewrite ?app_nil_r; reflexivity.
  - read_run fl; cbn [snd rows]; rewrite ?app_nil_r; reflexivity.
Qed.

(** *** A batch that has been saved *)

(** The run of [save_cars] when nothing fails. *)
Lemma save_cars_run (cars : list car) (w : world) :
  no_fault_from w (List.length (ops w)) ->
  unique_urls (map url (rows w ++ cars)) = true ->
  save_cars cars w =
  (Returns tt,
   {| rows := rows w ++ cars; pending := []; log := log w;
      ops := ops w ++ [Commit; Commit; Close]; fails := fails w |}).
Proof.
  unfold no_fault_from.
  destruct w as [rs pend lg os fl]. cbn [ops rows log fails].
  intros Hnf Hu.
  db_step. rewrite (Hnf _ (Nat.le_refl _)). db_step. rewrite Hu. db_step.
  rewrite length_app. cbn [List.length].
  rewrite (Hnf (List.length os + 1)%nat) by lia. db_step.
  rewrite app_nil_r, Hu. db_step.
  rewrite !length_app. cbn [List.length].
  rewrite (Hnf (List.length os + 1 + 1)%nat) by lia. db_step.
  now rewrite <- !app_assoc.
Qed.

(** The filter when the lookup returns. *)
Lemma filter_new_returns (urls existing : list pystr) (w w1 : world) :
  get_db (execute_select_url_in urls) w = (Returns existing, w1) ->
  exists new,
    filter_new urls w = (Returns new, w1) /\ NoDup new /\
    forall u, In u new <-> In u urls /\ ~ In u (map url (rows w)).
Proof.
  intros E.
  pose proof (lookup_returns urls existing w w1 E) as Hex.
  destruct (dict_comprehension_spec (fun u => set_mem u existing) urls)
    as [Hnd [Hkeys Hval]].
  destruct (new_car_links_spec _ Hnd) as [Hnew Hin].
  eexists. split; [|split; [exact Hnew|]].
  - unfold filter_new, bulk_check_existence, try_catch, mbind, ret.
    now rewrite E.
  - intros u. rewrite Hin. split.
    + intros Hget.
      assert (In u urls) as Hu.
      { apply Hkeys, dict_get_keys. now exists false. }
      split; [exact Hu|].
      apply (not_known_iff urls existing w u Hex Hu).
      rewrite (Hval u Hu) in Hget. congruence.
    + intros [Hu Hnot]. rewrite (Hval u Hu). f_equal.
      now apply (not_known_iff urls existing w u Hex Hu).
Qed.

(** X17. What [save_cars] has stored, [car_exists] finds: after a save in
    which nothing fails, and while nothing fails, [car_exists] answers
    [True] exactly for the URLs that the table held and for those of the
    batch. *)
Theorem saved_cars_exist (cars : list car) (w : world) (st : state)
        (u : pystr) :
  no_fault_from w (List.length (ops w)) ->
  unique_urls (map url (rows w ++ cars)) = true ->
  (fst (car_exists u (put_store (snd (save_cars cars w)) st)) = true <->
   In u (stored_urls w) \/ In u (map url cars)).
Proof.
  intros Hnf Hu. rewrite (save_cars_run cars w Hnf Hu). cbn [snd].
  rewrite car_exists_run.
  - cbn [fst]. unfold stored_urls, put_store. cbn [store rows].
    now rewrite set_mem_In, map_app, in_app_iff.
  - cbn. apply Hnf. rewrite length_app. lia.
  - cbn. apply Hnf. rewrite length_app. lia.
  - cbn. apply Hnf. rewrite length_app. lia.
  - exact Hu.
Qed.

Lemma saved_cars_exist_witness :
  fst (car_exists (u8 "/auto_b_2.html")
         (put_store
            (snd (save_cars [example_car (u8 "/auto_b_2.html")]
                    (example_world [example_car (u8 "/auto_a_1.html")]
                                   (fun _ => false))))
            (example_state (example_world [] (fun _ => false))
                           no_network))) = true.
Proof.
  apply (proj2 (saved_cars_exist
                  [example_car (u8 "/auto_b_2.html")]
                  (example_world [example_car (u8 "/auto_a_1.html")]
                                 (fun _ => false))
                  (example_state (example_world [] (fun _ => false))
                                 no_network)
                  (u8 "/auto_b_2.html")
                  (fun i _ => eq_refl) eq_refl)).
  right. left. reflexivity.
Defined.

(** X18. What [save_cars] has stored, the filter leaves out: after a save
    in which nothing fails, and while nothing fails, the filter returns the
    candidates that are neither in the table as it was nor in the batch,
    each once. *)
Theorem saved_cars_are_filtered (cars : list car) (w : world)
        (urls : list pystr) :
  no_fault_from w (List.length (ops w)) ->
  unique_urls (map url (rows w ++ cars)) = true ->
  exists new w2,
    filter_new urls (snd (save_cars cars w)) = (Returns new, w2) /\
    NoDup new /\
    forall u, In u new <->
              In u urls /\ ~ In u (stored_urls w) /\ ~ In u (map url cars).
Proof.
  intros Hnf Hu. rewrite (save_cars_run cars w Hnf Hu). cbn [snd].
  destruct (lookup_succeeds urls
              {| rows := rows w ++ cars; pending := []; log := log w;
                 ops := ops w ++ [Commit; Commit; Close];
                 fails := fails w |})
    as [existing [w1 [E _]]].
  - cbn. apply Hnf. rewrite length_app. lia.
  - cbn. apply Hnf. rewrite length_app. lia.
  - cbn. apply Hnf. rewrite length_app. lia.
  - exact Hu.
  - destruct (filter_new_returns urls existing _ w1 E)
      as [new [Hf [Hnd Hin]]].
    exists new, w1. split; [exact Hf|]. split; [exact Hnd|].
    intros u0. rewrite Hin. cbn [rows]. unfold stored_urls.
    rewrite map_app, in_app_iff. tauto.
Qed.

Lemma saved_cars_are_filtered_witness :
  exists new w2,
    filter_new [u8 "/auto_a_1.html"; u8 "/auto_b_2.html";
                u8 "/auto_c_3.html"]
               (snd (save_cars [example_car (u8 "/auto_b_2.html")]
                       (example_world [example_car (u8 "/auto_a_1.html")]
                                      (fun _ => false))))
    = (Returns new, w2) /\
    ~ In (u8 "/auto_b_2.html") new /\ In (u8 "/auto_c_3.html") new.
Proof.
  destruct (saved_cars_are_filtered
              [example_car (u8 "/auto_b_2.html")]
              (example_world [example_car (u8 "/auto_a_1.html")]
                             (fun _ => false))
              [u8 "/auto_a_1.html"; u8 "/auto_b_2.html";
               u8 "/auto_c_3.html"]
              (fun i _ => eq_refl) eq_refl) as [new [w2 [E [_ H]]]].
  exists new, w2. split; [exact E|]. split.
  - intros Hin. apply H in Hin. destruct Hin as [_ [_ Hin]].
    apply Hin. left. reflexivity.
  - apply H. split; [right; right; left; reflexivity|].
    split; intros [F | []]; vm_compute in F; discriminate F.
Defined.

(** *** [init_db] *)

(** X30. [init_db] forgets: when its round trips work it returns with the
    table empty, whatever the table held, so that afterwards, and while
    nothing fails, [car_exists] answers [False] for every URL; when one of
    its statements or its commit fails it raises, and the table is as it
    was. *)
Theorem init_db_forgets (w : world) (st : state) (u : pystr) :
  let n := List.length (ops w) in
  (no_fault_from w n ->
   fst (init_db w) = Returns tt /\ rows (snd (init_db w)) = [] /\
   fst (car_exists u (put_store (snd (init_db w)) st)) = false) /\
  (fails w n = true \/ fails w (n + 1)%nat = true \/
   fails w (n + 2)%nat = true ->
   fst (init_db w) = Raises SQLAlchemyError /\
   rows (snd (init_db w)) = rows w).
Proof.
  destruct w as [rs pend lg os fl]. cbn [ops fails rows]. split.
  - unfold no_fault_from. cbn [fails]. intros Hnf.
    assert (init_db {| rows := rs; pending := pend; log := lg; ops := os;
                       fails := fl |}
            = (Returns tt,
               {| rows := []; pending := []; log := lg;
                  ops := os ++ [Execute; Execute; Commit; Close];
                  fails := fl |})) as E.
    { unfold init_db. db_step.
      rewrite (Hnf _ (Nat.le_refl _)). db_step.
      rewrite length_app. cbn [List.length].
      rewrite (Hnf (List.length os + 1)%nat) by lia. db_step.
      rewrite !length_app. cbn [List.length].
      rewrite (Hnf (List.length os + 1 + 1)%nat) by lia. db_step.
      rewrite !length_app. cbn [List.length].
      rewrite (Hnf (List.length os + 1 + 1 + 1)%nat) by lia.
      now rewrite <- !app_assoc. }
    rewrite E. cbn [fst snd rows]. split; [reflexivity|].
    split; [reflexivity|].
    rewrite car_exists_run; [reflexivity| | | |reflexivity];
      cbn; apply Hnf; rewrite length_app; lia.
  - intros H.
    replace (List.length os + 2)%nat with (List.length os + 1 + 1)%nat in H
      by lia.
    unfold init_db.
    db_run fl; try (split; reflexivity);
      exfalso; destruct H as [H | [H | H]]; congruence.
Qed.

Lemma init_db_forgets_witness :
  rows (snd (init_db
               (example_world [example_car (u8 "/auto_a_1.html")]
                              (fun _ => false)))) = [] /\
  fst (car_exists (u8 "/auto_a_1.html")
         (put_store
            (snd (init_db
                    (example_world [example_car (u8 "/auto_a_1.html")]
                                   (fun _ => false))))
            (example_state (example_world [] (fun _ => false))
                           no_network))) = false.
Proof.
  exact (proj2 (proj1 (init_db_forgets
                         (example_world [example_car (u8 "/auto_a_1.html")]
                                        (fun _ => false))
                         (example_state (example_world [] (fun _ => false))
                                        no_network)
                         (u8 "/auto_a_1.html"))
                      (fun i _ => eq_refl))).
Defined.

End StoreLaws.

(** ** The listing pages and the detail pages *)

Module PageLaws.
Import Py Utils Database Scraper Extractor Spec Terms PyFacts.
Import PhoneSpec PriceSpec OdometerSpec FetchSpec StoreSpec.
Import FetchLaws StoreLaws.

(** *** [extract_car_links], [get_car_links] *)

(** X21. The links of a listing page are the [href] values of its cards
    that are there and not empty: a card without one gives no link, and no
    link is empty. *)
Theorem extract_car_links_spec (ctx : context) (html h : pystr) :
  In h (extract_car_links ctx html) <->
  h <> [] /\ In (Some h) (listing_cards ctx html).
Proof.
  unfold extract_car_links. rewrite in_flat_map. split.
  - intros [x [Hin H]].
    destruct x as [[|c t]|]; cbn [In] in H; try contradiction.
    destruct H as [<- | []]. split; [discriminate | exact Hin].
  - intros [Hne Hin]. exists (Some h). split; [exact Hin|].
    destruct h as [|c t]; [congruence | now left].
Qed.

Lemma extract_car_links_spec_witness :
  In (u8 "/auto_b_2.html")
     (extract_car_links (example_context (title_only (u8 "A")))
                        (u8 "<html>")) /\
  ~ In [] (extract_car_links (example_context (title_only (u8 "A")))
                             (u8 "<html>")).
Proof.
  split.
  - apply (proj2 (extract_car_links_spec
                    (example_context (title_only (u8 "A")))
                    (u8 "<html>") (u8 "/auto_b_2.html"))).
    split; [discriminate|]. right. right. right. left. reflexivity.
  - intros H.
    apply (proj1 (extract_car_links_spec
                    (example_context (title_only (u8 "A")))
                    (u8 "<html>") [])) in H.
    now destruct H as [H _].
Defined.

(** The URL of a listing page. *)
Lemma get_car_links_unfold (ctx : context) (page : Z) (st : state) :
  get_car_links ctx page st =
  (let html := snd (fetch (RETRY_ATTEMPTS ctx) (net st (fetches st))
                          (START_URL ctx ++ u8 "?page=" ++ str_of_int page))
   in if truthy html then extract_car_links ctx (text_or html []) else [],
   {| store := store st; journal := journal st;
      trace := trace st ++
               fst (fetch (RETRY_ATTEMPTS ctx) (net st (fetches st))
                          (START_URL ctx ++ u8 "?page=" ++ str_of_int page));
      fetches := S (fetches st); net := net st |}).
Proof.
  unfold get_car_links, pbind, fetch_page, pure.
  destruct (fetch _ _ _) as [evs [[|c h]|]]; reflexivity.
Qed.

(** X22. A listing page that cannot be fetched gives no link and no
    error: when no attempt succeeds [get_car_links] returns the empty list
    after [RETRY_ATTEMPTS] requests for [START_URL?page=N], and does not
    touch the store. *)
Theorem get_car_links_unavailable (ctx : context) (page : Z) (st : state) :
  (forall i, (i < Z.to_nat (RETRY_ATTEMPTS ctx))%nat ->
             succeeded (answer (net st (fetches st) i)) = false) ->
  fst (get_car_links ctx page st) = [] /\
  store (snd (get_car_links ctx page st)) = store st /\
  trace (snd (get_car_links ctx page st)) =
  trace st ++
  flat_map (failed_attempt_events
              (net st (fetches st))
              (START_URL ctx ++ u8 "?page=" ++ str_of_int page))
           (seq 0 (Z.to_nat (RETRY_ATTEMPTS ctx))).
Proof.
  intros H. rewrite get_car_links_unfold. unfold fetch.
  rewrite fetch_loop_exhausted.
  - now repeat split.
  - intros i Hi. apply H. apply in_seq in Hi. lia.
Qed.

Lemma get_car_links_unavailable_witness :
  fst (get_car_links (example_context (title_only (u8 "A"))) 3
         (example_state (example_world [] (fun _ => false)) no_network))
  = [].
Proof.
  apply (proj1 (get_car_links_unavailable
                  (example_context (title_only (u8 "A"))) 3
                  (example_state (example_world [] (fun _ => false))
                                 no_network)
                  (fun i _ => eq_refl))).
Defined.

(** X23. The links of page [N] come from the first body that a request
    for [START_URL?page=N] brings: [get_car_links] returns the links of
    that body (none for an empty body), and the store is not touched. *)
Theorem get_car_links_first_success (ctx : context) (page : Z) (st : state)
        (j : nat) (html : pystr) :
  (j < Z.to_nat (RETRY_ATTEMPTS ctx))%nat ->
  (forall i, (i < j)%nat ->
             succeeded (answer (net st (fetches st) i)) = false) ->
  answer (net st (fetches st) j) = Response 200 (Some html) ->
  fst (get_car_links ctx page st)
  = (if is_empty html then [] else extract_car_links ctx html) /\
  store (snd (get_car_links ctx page st)) = store st /\
  trace (snd (get_car_links ctx page st)) =
  trace st ++
  flat_map (failed_attempt_events
              (net st (fetches st))
              (START_URL ctx ++ u8 "?page=" ++ str_of_int page))
           (seq 0 j) ++
  [Sleep (Float (random_uniform float_0_5 float_1_5
                                (sample (net st (fetches st) j))));
   Get (START_URL ctx ++ u8 "?page=" ++ str_of_int page)
       (random_choice user_agents (choice (net st (fetches st) j)))].
Proof.
  intros Hj Hfail Hok. rewrite get_car_links_unfold.
  rewrite (fetch_success_run _ _ _ j html Hj Hfail Hok).
  cbn [fst snd store trace].
  split; [now destruct html | now split].
Qed.

Lemma get_car_links_first_success_witness :
  fst (get_car_links (example_context (title_only (u8 "A"))) 3
         (example_state (example_world [] (fun _ => false))
                        (network_of (u8 "<html>"))))
  = [u8 "/auto_a_1.html"; u8 "/auto_b_2.html"] /\
  trace (snd (get_car_links (example_context (title_only (u8 "A"))) 3
                (example_state (example_world [] (fun _ => false))
                               (network_of (u8 "<html>")))))
  = [Sleep (Float (S754_finite false 4503599627370496 (-52)));
     Get (u8 "https://auto.ria.com/uk/car/used/?page=3")
         (u8 "Mozilla/5.0 (Windows NT 10.0; Win64; x64) Chrome/91.0.4472.124")].
Proof.
  destruct (get_car_links_first_success
              (example_context (title_only (u8 "A"))) 3
              (example_state (example_world [] (fun _ => false))
                             (network_of (u8 "<html>")))
              0 (u8 "<html>") ltac:(simpl; lia)
              (fun i (H : (i < 0)%nat) =>
                 match Nat.nlt_0_r i H with end)
              eq_refl) as [H1 [_ H3]].
  split; [rewrite H1 | rewrite H3]; vm_compute; reflexivity.
Defined.

(** *** [parse_car_page] *)

Lemma car_exists_frame (u : pystr) (st : state) :
  net (snd (car_exists u st)) = net st /\
  fetches (snd (car_exists u st)) = fetches st /\
  trace (snd (car_exists u st)) = trace st /\
  rows (store (snd (car_exists u st))) = rows (store st).
Proof.
  destruct st as [[rs pend lg os fl] jn tr fe nt].
  repeat split; page_run fl; rewrite ?app_nil_r; reflexivity.
Qed.

(** [parse_car_page] on a URL that is neither a new-car page nor known. *)
Lemma parse_car_page_unfold (ctx : context) (now : Z) (u : pystr)
      (st : state) :
  contains u (u8 "newauto") = false ->
  fst (car_exists u st) = false ->
  parse_car_page ctx now u st =
  let st1 := snd (car_exists u st) in
  let r := fetch (RETRY_ATTEMPTS ctx) (net st (fetches st)) u in
  let st2 := {| store := store st1; journal := journal st1;
                trace := trace st ++ fst r; fetches := S (fetches st);
                net := net st |} in
  if truthy (snd r) then
    match build_car u (detail_elements ctx (text_or (snd r) [])) now with
    | Built c => (Some c, st2)
    | Failed _ =>
      (None, {| store := store st1;
                journal := journal st1 ++ [ErrorParsingCarPage];
                trace := trace st ++ fst r; fetches := S (fetches st);
                net := net st |})
    end
  else (None, st2).
Proof.
  intros Hn Hk. unfold parse_car_page. rewrite Hn. unfold pbind.
  destruct (car_exists_frame u st) as [E1 [E2 [E3 _]]].
  destruct (car_exists u st) as [known st1]. cbn [fst snd] in *.
  subst known. unfold fetch_page. rewrite E1, E2, E3.
  destruct (fetch _ _ u) as [evs r]. cbn [fst snd].
  destruct (truthy r); [|reflexivity].
  destruct (build_car _ _ _); reflexivity.
Qed.

(** What a record says about the run that gave it. *)
Lemma parse_car_page_some (ctx : context) (now : Z) (u : pystr)
      (st : state) (c : car) :
  fst (parse_car_page ctx now u st) = Some c ->
  contains u (u8 "newauto") = false /\
  fst (car_exists u st) = false /\
  exists html,
    snd (fetch (RETRY_ATTEMPTS ctx) (net st (fetches st)) u) = Some html /\
    html <> [] /\
    build_car u (detail_elements ctx html) now = Built c.
Proof.
  destruct (contains u (u8 "newauto")) eqn:Hn.
  { unfold parse_car_page. rewrite Hn. intros H. discriminate H. }
  destruct (fst (car_exists u st)) eqn:Hk.
  { unfold parse_car_page, pbind. rewrite Hn.
    destruct (car_exists u st) as [known st1]. cbn [fst] in Hk.
    subst known. intros H. discriminate H. }
  rewrite (parse_car_page_unfold ctx now u st Hn Hk). cbv zeta.
  destruct (snd (fetch _ _ u)) as [[|c0 h]|]; cbn [truthy text_or];
    try (intros H; discriminate H).
  destruct (build_car _ _ _) as [c'|e] eqn:E; intros H;
    [|discriminate H].
  cbn [fst] in H. injection H as ->.
  split; [reflexivity|]. split; [reflexivity|].
  exists (c0 :: h). split; [reflexivity|]. split; [discriminate | exact E].
Qed.

(** What [build_car] puts into the record. *)
Lemma build_car_built (u : pystr) (els : page_elements) (now : Z)
      (c : car) :
  build_car u els now = Built c ->
  url c = u /\ el_title els = Some (title c) /\
  parse_price (text_or (el_price els) (u8 "0")) = Returns (price_usd c) /\
  parse_odometer (text_or (el_odometer els) (u8 "0"))
  = Returns (odometer c) /\
  username c = text_or (el_username els) (u8 "Unknown") /\
  phone_number c = Some (hd [] (collect_phones (el_phones els))) /\
  image_url c = match el_images els with
                | first_image :: _ =>
                  or3 (srcset first_image) (src first_image)
                      (data_src first_image)
                | [] => None
                end /\
  images_count c = Z.of_nat (List.length (el_images els)) /\
  car_vin c = text_or (el_vin els) [] /\
  car_number c = match el_car_number els with
                 | Some (first_child :: _) => first_child
                 | _ => []
                 end /\
  datetime_found c = now.
Proof.
  unfold build_car.
  destruct (el_title els) as [t|]; [|destruct (el_images els); discriminate].
  destruct (parse_price _) as [p|e];
    [|destruct (el_images els); discriminate].
  destruct (parse_odometer _) as [o|e];
    [|destruct (el_images els); discriminate].
  destruct (el_images els) as [|i l]; cbn [get_text of_result bbind];
    intros H; injection H as <-; cbn; now repeat split.
Qed.

(** The phones kept are results of [parse_phone] that are not empty. *)
Lemma hd_collect_phones (texts : list pystr) :
  hd [] (collect_phones texts) =
  match find has_digit texts with
  | Some p => parse_phone p
  | None => []
  end.
Proof.
  unfold collect_phones. induction texts as [|p texts IH]; [reflexivity|].
  cbn [map filter find].
  destruct (parse_phone_shape p) as [[E D] | [ds [E [_ [_ D]]]]].
  - rewrite E. cbn [is_empty negb].
    assert (has_digit p = false) as ->; [|exact IH].
    unfold has_digit. apply not_true_iff_false. intros H.
    apply existsb_exists in H. destruct H as [x [Hx Hd]].
    rewrite (proj1 (digits_of_nil p) D x Hx) in Hd. discriminate Hd.
  - rewrite E. cbn [is_empty negb hd].
    assert (has_digit p = true) as ->; [|now rewrite E].
    unfold has_digit. apply not_false_iff_true. intros H.
    apply D. apply (proj2 (digits_of_nil p)). intros x Hx.
    apply not_true_iff_false. intros Hd.
    assert (existsb is_decimal p = true) as F
        by (apply existsb_exists; now exists x).
    congruence.
Qed.

(** X24. Every record that [parse_car_page] returns carries the URL it
    was asked for, which is not a new-car page and which [car_exists] did
    not report, the time of the call, a price, an odometer value and a
    number of images that are not negative, and a phone number that is
    empty or a [+] and digits. *)
Theorem parse_car_page_record (ctx : context) (now : Z) (u : pystr)
        (st : state) (c : car) :
  fst (parse_car_page ctx now u st) = Some c ->
  url c = u /\ contains u (u8 "newauto") = false /\
  fst (car_exists u st) = false /\ datetime_found c = now /\
  0 <= price_usd c /\ 0 <= odometer c /\ 0 <= images_count c /\
  (phone_number c = Some [] \/
   exists ds, phone_number c = Some (43%N :: ds) /\ ds <> [] /\
              all_decimal ds = true).
Proof.
  intros H.
  destruct (parse_car_page_some ctx now u st c H)
    as [Hn [Hk [html [_ [_ Hb]]]]].
  destruct (build_car_built u _ now c Hb)
    as [Hu [_ [Hp [Ho [_ [Hph [_ [Hi [_ [_ Hd]]]]]]]]]].
  split; [exact Hu|]. split; [exact Hn|]. split; [exact Hk|].
  split; [exact Hd|]. split; [|split; [|split]].
  - destruct (parse_price_outcomes
                (text_or (el_price (detail_elements ctx html)) (u8 "0")))
      as [[v [E Hv]] | E]; rewrite E in Hp; [|discriminate Hp].
    injection Hp as <-. exact Hv.
  - destruct (parse_odometer_outcomes
                (text_or (el_odometer (detail_elements ctx html)) (u8 "0")))
      as [[v [E Hv]] | E]; rewrite E in Ho; [|discriminate Ho].
    injection Ho as <-. exact Hv.
  - rewrite Hi. lia.
  - rewrite Hph, hd_collect_phones.
    destruct (find has_digit (el_phones (detail_elements ctx html)))
      as [p|]; [|now left].
    destruct (parse_phone_shape p) as [[E _] | [ds [E [H1 [H2 _]]]]];
      rewrite E; [now left | right; now exists ds].
Qed.

Lemma parse_car_page_record_witness :
  url (example_car (u8 "/auto_a_1.html")) = u8 "/auto_a_1.html" /\
  0 <= price_usd (example_car (u8 "/auto_a_1.html")).
Proof.
  pose (els := {| el_title := Some (u8 "A");
                  el_price := Some (u8 "6 999 $");
                  el_odometer := Some (u8 "95 тис. км");
                  el_username := None; el_vin := None;
                  el_car_number := None; el_phones := [];
                  el_images := [] |}).
  destruct (parse_car_page_record (example_context els) 0
              (u8 "/auto_a_1.html")
              (example_state (example_world [] (fun _ => false))
                             (network_of (u8 "<html>")))
              {| url := u8 "/auto_a_1.html"; title := u8 "A";
                 price_usd := 6999; odometer := 95000;
                 username := u8 "Unknown"; phone_number := Some [];
                 image_url := None; images_count := 0; car_vin := [];
                 car_number := []; datetime_found := 0 |})
    as [H1 [_ [_ [_ [H2 _]]]]].
  - vm_compute. reflexivity.
  - exact (conj H1 H2).
Defined.

(** X25. Pages that are skipped: a new-car URL is dropped at once, with
    no lookup and no request; a URL of the table, when the lookup works, is
    dropped after the lookup, with no request; and a page that no attempt
    brings is dropped after [RETRY_ATTEMPTS] requests.  Each gives [None],
    never an error. *)
Theorem parse_car_page_skips (ctx : context) (now : Z) (u : pystr)
        (st : state) :
  (contains u (u8 "newauto") = true ->
   parse_car_page ctx now u st =
   (None, {| store := store st;
             journal := journal st ++ [DebugSkippingNewCar];
             trace := trace st; fetches := fetches st; net := net st |})) /\
  (contains u (u8 "newauto") = false ->
   no_fault_from (store st) (List.length (ops (store st))) ->
   unique_urls (stored_urls (store st)) = true ->
   In u (stored_urls (store st)) ->
   fst (parse_car_page ctx now u st) = None /\
   trace (snd (parse_car_page ctx now u st)) = trace st /\
   journal (snd (parse_car_page ctx now u st))
   = journal st ++ [DebugSkippingProcessedCar]) /\
  (contains u (u8 "newauto") = false ->
   fst (car_exists u st) = false ->
   (forall i, (i < Z.to_nat (RETRY_ATTEMPTS ctx))%nat ->
              succeeded (answer (net st (fetches st) i)) = false) ->
   fst (parse_car_page ctx now u st) = None /\
   requests (trace (snd (parse_car_page ctx now u st)))
   = (requests (trace st) + Z.to_nat (RETRY_ATTEMPTS ctx))%nat /\
   journal (snd (parse_car_page ctx now u st))
   = journal (snd (car_exists u st))).
Proof.
  split; [|split].
  - intros Hn. unfold parse_car_page. now rewrite Hn.
  - intros Hn Hnf Hu Hin. unfold parse_car_page, pbind. rewrite Hn.
    rewrite car_exists_run;
      [|apply Hnf; lia|apply Hnf; lia|apply Hnf; lia|exact Hu].
    rewrite (proj2 (set_mem_In u _) Hin). now repeat split.
  - intros Hn Hk Hfail.
    rewrite (parse_car_page_unfold ctx now u st Hn Hk). cbv zeta.
    unfold fetch. rewrite fetch_loop_exhausted.
    + cbn [fst snd truthy trace journal]. split; [reflexivity|].
      split; [|reflexivity].
      now rewrite requests_app, requests_failed_attempts, length_seq.
    + intros i Hi. apply Hfail. apply in_seq in Hi. lia.
Qed.

Lemma parse_car_page_skips_witness :
  fst (parse_car_page (example_context (title_only (u8 "A"))) 0
         (u8 "/newauto/auto_a_1.html")
         (example_state (example_world [] (fun _ => false))
                        (network_of (u8 "<html>")))) = None /\
  fst (parse_car_page (example_context (title_only (u8 "A"))) 0
         (u8 "/auto_a_1.html")
         (example_state
            (example_world [example_car (u8 "/auto_a_1.html")]
                           (fun _ => false))
            (network_of (u8 "<html>")))) = None /\
  fst (parse_car_page (example_context (title_only (u8 "A"))) 0
         (u8 "/auto_a_1.html")
         (example_state (example_world [] (fun _ => false))
                        no_network)) = None.
Proof.
  refine (conj _ (conj _ _)).
  - rewrite (proj1 (parse_car_page_skips
                      (example_context (title_only (u8 "A"))) 0
                      (u8 "/newauto/auto_a_1.html")
                      (example_state (example_world [] (fun _ => false))
                                     (network_of (u8 "<html>"))))
                   eq_refl).
    reflexivity.
  - apply (proj1 (proj2 (parse_car_page_skips
                           (example_context (title_only (u8 "A"))) 0
                           (u8 "/auto_a_1.html")
                           (example_state
                              (example_world
                                 [example_car (u8 "/auto_a_1.html")]
                                 (fun _ => false))
                              (network_of (u8 "<html>")))))
                 eq_refl (fun i _ => eq_refl) eq_refl
                 (or_introl eq_refl)).
  - apply (proj2 (proj2 (parse_car_page_skips
                           (example_context (title_only (u8 "A"))) 0
                           (u8 "/auto_a_1.html")
                           (example_state
                              (example_world [] (fun _ => false))
                              no_network)))
                 eq_refl eq_refl (fun i _ => eq_refl)).
Defined.

(** X26. [parse_car_page] never writes to the table, whatever fails, and
    sends at most [RETRY_ATTEMPTS] requests, all of them for the URL it was
    asked for. *)
Theorem parse_car_page_reads_only (ctx : context) (now : Z) (u : pystr)
        (st : state) :
  rows (store (snd (parse_car_page ctx now u st))) = rows (store st) /\
  exists evs,
    trace (snd (parse_car_page ctx now u st)) = trace st ++ evs /\
    (requests evs <= Z.to_nat (RETRY_ATTEMPTS ctx))%nat /\
    forall tgt ua, In (Get tgt ua) evs -> tgt = u.
Proof.
  destruct (contains u (u8 "newauto")) eqn:Hn.
  { unfold parse_car_page. rewrite Hn. cbn. split; [reflexivity|].
    exists []. rewrite app_nil_r. split; [reflexivity|].
    split; [cbn; lia | intros tgt ua []]. }
  destruct (car_exists_frame u st) as [_ [_ [Et Er]]].
  destruct (fst (car_exists u st)) eqn:Hk.
  { unfold parse_car_page, pbind. rewrite Hn.
    destruct (car_exists u st) as [known st1]. cbn [fst snd] in *.
    subst known. cbn. split; [exact Er|].
    exists []. rewrite app_nil_r. split; [exact Et|].
    split; [cbn; lia | intros tgt ua []]. }
  rewrite (parse_car_page_unfold ctx now u st Hn Hk). cbv zeta.
  pose proof (fetch_loop_requests (net st (fetches st)) u
                (seq 0 (Z.to_nat (RETRY_ATTEMPTS ctx)))) as Hr.
  rewrite length_seq in Hr.
  pose proof (proj2 (fetch_loop_paced (net st (fetches st)) u
                       (seq 0 (Z.to_nat (RETRY_ATTEMPTS ctx))))) as Hg.
  fold (fetch (RETRY_ATTEMPTS ctx) (net st (fetches st)) u) in Hr, Hg.
  assert (forall tgt ua,
            In (Get tgt ua)
               (fst (fetch (RETRY_ATTEMPTS ctx) (net st (fetches st)) u)) ->
            tgt = u) as Hg' by (intros tgt ua H; now apply (Hg tgt ua)).
  destruct (truthy (snd (fetch _ _ u)));
    [destruct (build_car _ _ _)|]; cbn [snd store trace];
    (split; [exact Er|]); eexists; (split; [reflexivity|]);
    (split; [exact Hr | exact Hg']).
Qed.

Lemma parse_car_page_reads_only_witness :
  exists evs,
    trace (snd (parse_car_page
                  (example_context (example_page (u8 "95 тис. км"))) 0
                  (u8 "/auto_a_1.html")
                  (example_state (example_world [] (fun _ => false))
                                 no_network))) = [] ++ evs /\
    (requests evs <= 2)%nat /\
    forall tgt ua, In (Get tgt ua) evs -> tgt = u8 "/auto_a_1.html".
Proof.
  exact (proj2 (parse_car_page_reads_only
                  (example_context (example_page (u8 "95 тис. км"))) 0
                  (u8 "/auto_a_1.html")
                  (example_state (example_world [] (fun _ => false))
                                 no_network))).
Defined.

(** X27. The phone number of a record is the normal form of the first
    phone element of the page that has a digit, or the empty string when
    none has; the number of images is the number of [source] elements, and
    the image URL is taken from the first of them only. *)
Theorem parse_car_page_phone_and_images (ctx : context) (now : Z)
        (u : pystr) (st : state) (c : car) (html : pystr) :
  fst (parse_car_page ctx now u st) = Some c ->
  snd (fetch (RETRY_ATTEMPTS ctx) (net st (fetches st)) u) = Some html ->
  phone_number c =
  Some (match find has_digit (el_phones (detail_elements ctx html)) with
        | Some p => parse_phone p
        | None => []
        end) /\
  images_count c
  = Z.of_nat (List.length (el_images (detail_elements ctx html))) /\
  image_url c = match el_images (detail_elements ctx html) with
                | first_image :: _ =>
                  or3 (srcset first_image) (src first_image)
                      (data_src first_image)
                | [] => None
                end.
Proof.
  intros H Hf.
  destruct (parse_car_page_some ctx now u st c H)
    as [_ [_ [html' [Hf' [_ Hb]]]]].
  rewrite Hf in Hf'. injection Hf' as <-.
  destruct (build_car_built u _ now c Hb)
    as [_ [_ [_ [_ [_ [Hph [Him [Hi _]]]]]]]].
  rewrite Hph, hd_collect_phones. now repeat split.
Qed.

Lemma parse_car_page_phone_and_images_witness :
  phone_number (example_record (u8 "/auto_a_1.html"))
  = Some (u8 "+380991234567") /\
  images_count (example_record (u8 "/auto_a_1.html")) = 2 /\
  image_url (example_record (u8 "/auto_a_1.html"))
  = Some (u8 "https://cdn.example/1.jpg").
Proof.
  assert (fst (parse_car_page
                 (example_context (example_page (u8 "95 тис. км"))) 0
                 (u8 "/auto_a_1.html")
                 (example_state (example_world [] (fun _ => false))
                                (network_of (u8 "<html>"))))
          = Some (example_record (u8 "/auto_a_1.html"))) as H
      by (vm_compute; reflexivity).
  assert (snd (fetch (RETRY_ATTEMPTS
                        (example_context (example_page (u8 "95 тис. км"))))
                     (network_of (u8 "<html>") 0%nat)
                     (u8 "/auto_a_1.html"))
          = Some (u8 "<html>")) as Hf by (vm_compute; reflexivity).
  destruct (parse_car_page_phone_and_images
              (example_context (example_page (u8 "95 тис. км"))) 0
              (u8 "/auto_a_1.html")
              (example_state (example_world [] (fun _ => false))
                             (network_of (u8 "<html>")))
              (example_record (u8 "/auto_a_1.html")) (u8 "<html>") H Hf)
    as [H1 [H2 H3]].
  rewrite H1, H2, H3. vm_compute. now repeat split.
Defined.

(** X28. What a page lacks is filled in: without the price element the
    price is 0, without the odometer element the odometer is 0, without
    the seller the name is [Unknown], without the VIN or the plate (or with
    a plate element that has no child) the field is the empty string. *)
Theorem parse_car_page_defaults (ctx : context) (now : Z)
        (u : pystr) (st : state) (c : car) (html : pystr) :
  fst (parse_car_page ctx now u st) = Some c ->
  snd (fetch (RETRY_ATTEMPTS ctx) (net st (fetches st)) u) = Some html ->
  el_title (detail_elements ctx html) = Some (title c) /\
  (el_price (detail_elements ctx html) = None -> price_usd c = 0) /\
  (el_odometer (detail_elements ctx html) = None -> odometer c = 0) /\
  (el_username (detail_elements ctx html) = None ->
   username c = u8 "Unknown") /\
  (el_vin (detail_elements ctx html) = None -> car_vin c = []) /\
  (el_car_number (detail_elements ctx html) = None \/
   el_car_number (detail_elements ctx html) = Some [] ->
   car_number c = []).
Proof.
  intros H Hf.
  destruct (parse_car_page_some ctx now u st c H)
    as [_ [_ [html' [Hf' [_ Hb]]]]].
  rewrite Hf in Hf'. injection Hf' as <-.
  destruct (build_car_built u _ now c Hb)
    as [_ [Ht [Hp [Ho [Hu [_ [_ [_ [Hv [Hc _]]]]]]]]]].
  split; [exact Ht|]. split; [|split; [|split; [|split]]].
  - intros E. rewrite E in Hp. cbn [text_or] in Hp.
    change (parse_price (u8 "0")) with (Returns 0 : result Z) in Hp.
    now injection Hp.
  - intros E. rewrite E in Ho. cbn [text_or] in Ho.
    assert (parse_odometer (u8 "0") = Returns 0) as E0
        by (vm_compute; reflexivity).
    rewrite E0 in Ho. now injection Ho.
  - intros E. now rewrite Hu, E.
  - intros E. now rewrite Hv, E.
  - intros [E | E]; now rewrite Hc, E.
Qed.

Lemma parse_car_page_defaults_witness :
  price_usd (bare_record (u8 "/auto_a_1.html")) = 0 /\
  odometer (bare_record (u8 "/auto_a_1.html")) = 0 /\
  username (bare_record (u8 "/auto_a_1.html")) = u8 "Unknown" /\
  car_vin (bare_record (u8 "/auto_a_1.html")) = [] /\
  car_number (bare_record (u8 "/auto_a_1.html")) = [].
Proof.
  assert (fst (parse_car_page
                 (example_context (title_only (u8 "Audi A4 2016"))) 0
                 (u8 "/auto_a_1.html")
                 (example_state (example_world [] (fun _ => false))
                                (network_of (u8 "<html>"))))
          = Some (bare_record (u8 "/auto_a_1.html"))) as H
      by (vm_compute; reflexivity).
  assert (snd (fetch (RETRY_ATTEMPTS
                        (example_context (title_only (u8 "Audi A4 2016"))))
                     (network_of (u8 "<html>") 0%nat)
                     (u8 "/auto_a_1.html"))
          = Some (u8 "<html>")) as Hf by (vm_compute; reflexivity).
  destruct (parse_car_page_defaults
              (example_context (title_only (u8 "Audi A4 2016"))) 0
              (u8 "/auto_a_1.html")
              (example_state (example_world [] (fun _ => false))
                             (network_of (u8 "<html>")))
              (bare_record (u8 "/auto_a_1.html")) (u8 "<html>") H Hf)
    as [_ [H1 [H2 [H3 [H4 H5]]]]].
  exact (conj (H1 eq_refl)
              (conj (H2 eq_refl)
                    (conj (H3 eq_refl)
                          (conj (H4 eq_refl) (H5 (or_introl eq_refl)))))).
Defined.

(** The causes of a failure of the [try] block. *)
Lemma build_car_fails (u : pystr) (els : page_elements) (now : Z) :
  el_title els = None \/
  (exists e, parse_odometer (text_or (el_odometer els) (u8 "0"))
             = Raises e) ->
  exists e, build_car u els now = Failed e.
Proof.
  unfold build_car. intros [H | [e H]].
  - rewrite H. destruct (el_images els); eexists; reflexivity.
  - rewrite H. destruct (el_title els); destruct (parse_price _);
      destruct (el_images els); eexists; reflexivity.
Qed.

(** X29. A page without its title, or with an odometer text in which
    white space and another digit follow the first number (as in
    [95 000 км]), gives no record: the exception is caught, logged, and
    [None] is returned, whatever else the page holds. *)
Theorem parse_car_page_lost_record (ctx : context) (now : Z) (u : pystr)
        (st : state) (html : pystr) :
  contains u (u8 "newauto") = false ->
  fst (car_exists u st) = false ->
  snd (fetch (RETRY_ATTEMPTS ctx) (net st (fetches st)) u) = Some html ->
  html <> [] ->
  el_title (detail_elements ctx html) = None \/
  (exists t pre ds ws y rest,
     el_odometer (detail_elements ctx html) = Some t /\
     first_run (lower t) pre ds (ws ++ y :: rest) /\ ws <> [] /\
     all_space ws = true /\ is_decimal y = true) ->
  fst (parse_car_page ctx now u st) = None /\
  journal (snd (parse_car_page ctx now u st))
  = journal (snd (car_exists u st)) ++ [ErrorParsingCarPage].
Proof.
  intros Hn Hk Hf Hne Hc.
  rewrite (parse_car_page_unfold ctx now u st Hn Hk). cbv zeta.
  rewrite Hf. destruct html as [|c0 h]; [congruence|].
  cbn [truthy text_or].
  destruct (build_car_fails u (detail_elements ctx (c0 :: h)) now)
    as [e ->]; [|now split].
  destruct Hc as [Ht | [t [pre [ds [ws [y [rest [Ho [Hr [Hw [Hs Hy]]]]]]]]]]];
    [now left | right].
  exists ValueError. rewrite Ho. cbn [text_or].
  exact (parse_odometer_spaced t pre ds ws rest y Hr Hw Hs Hy).
Qed.

Lemma parse_car_page_lost_record_witness :
  fst (parse_car_page
         (example_context (example_page (u8 "95 000 км"))) 0
         (u8 "/auto_a_1.html")
         (example_state (example_world [] (fun _ => false))
                        (network_of (u8 "<html>")))) = None.
Proof.
  assert (first_run (lower (u8 "95 000 км")) [] (u8 "95")
                    (u8 " " ++ 48%N :: u8 "00 км")) as Hr
      by (vm_compute; repeat split; discriminate).
  assert (fst (car_exists (u8 "/auto_a_1.html")
                 (example_state (example_world [] (fun _ => false))
                                (network_of (u8 "<html>")))) = false) as Hk
      by (vm_compute; reflexivity).
  assert (snd (fetch (RETRY_ATTEMPTS
                        (example_context (example_page (u8 "95 000 км"))))
                     (network_of (u8 "<html>") 0%nat)
                     (u8 "/auto_a_1.html"))
          = Some (u8 "<html>")) as Hf by (vm_compute; reflexivity).
  refine (proj1 (parse_car_page_lost_record
                   (example_context (example_page (u8 "95 000 км"))) 0
                   (u8 "/auto_a_1.html")
                   (example_state (example_world [] (fun _ => false))
                                  (network_of (u8 "<html>")))
                   (u8 "<html>") eq_refl Hk Hf ltac:(discriminate) _)).
  right.
  exists (u8 "95 000 км"), [], (u8 "95"), (u8 " "), 48%N, (u8 "00 км").
  split; [reflexivity|]. split; [exact Hr|]. split; [discriminate|].
  split; reflexivity.
Defined.

End PageLaws.
